(** * ImpalaToGo dfs_cache: connection-pooling adapter and cache-layer registry

    A shallow embedding of
      - be/src/dfs_cache/filesystem-descriptor-bound.cc
        (FileSystemDescriptorBound, TachyonFileSystemDescriptorBound)
      - be/src/dfs_cache/cache-layer-registry.cc (CacheLayerRegistry)
    together with the properties of the design document that concern them.

    Conventions.  C pointers (fsBridge, dfsFile, buffers) are integers with
    NULL = 0.  C ints are integers; the only arithmetic the code performs on
    them is the dead byte counter of the Tachyon priming loop, which is
    wrapped to 32 bits.  The native binding (hadoop-fs-adaptive.h) and libc's
    allocator are an opaque, stateful environment: a world [W] and a responder
    that answers each external call.  Every external call is logged. *)

From Stdlib Require Import ZArith Lia.
From stdpp Require Import gmap strings list.

Set Default Proof Using "Type".

(** ** Plain data *)

Abbreviation fsBridge := Z (only parsing).
Abbreviation dfsFile := Z (only parsing).
Abbreviation pointer := Z (only parsing).

Definition NULL : Z := 0%Z.

(** enum DFS_TYPE, in the order operator<< (filesystem-descriptor-bound.cc:16)
    names its members. *)
Inductive DFS_TYPE :=
| hdfs | s3n | s3a | local | tachyon | DEFAULT_FROM_CONFIG | OTHER | NON_SPECIFIED.

#[global] Instance DFS_TYPE_eq_dec : EqDecision DFS_TYPE.
Proof. solve_decision. Defined.

Definition DFS_TYPE_to_nat (t : DFS_TYPE) : nat :=
  match t with
  | hdfs => 0 | s3n => 1 | s3a => 2 | local => 3 | tachyon => 4
  | DEFAULT_FROM_CONFIG => 5 | OTHER => 6 | NON_SPECIFIED => 7
  end.

Definition DFS_TYPE_of_nat (n : nat) : option DFS_TYPE :=
  match n with
  | 0 => Some hdfs | 1 => Some s3n | 2 => Some s3a | 3 => Some local
  | 4 => Some tachyon | 5 => Some DEFAULT_FROM_CONFIG | 6 => Some OTHER
  | 7 => Some NON_SPECIFIED | _ => None
  end.

#[global] Instance DFS_TYPE_countable : Countable DFS_TYPE.
Proof.
  apply (inj_countable DFS_TYPE_to_nat DFS_TYPE_of_nat).
  intros []; reflexivity.
Defined.

(** struct FileSystemDescriptor.  Its declaration is not part of the sources
    at hand; the fields are those the code reads and writes (dfs_type, host,
    port) followed by the three trailing members of the aggregate initialiser
    in gtest-fixtures.hpp:51: a type, a host, a port, two strings and a
    boolean. *)
Record FileSystemDescriptor := mkFileSystemDescriptor {
  dfs_type : DFS_TYPE;
  host : string;
  port : Z;
  credentials : string;
  password : string;
  valid : bool
}.

#[global] Instance FileSystemDescriptor_eq_dec : EqDecision FileSystemDescriptor.
Proof. solve_decision. Defined.

(** <fcntl.h> open flags (Linux values). *)
Definition O_RDONLY : Z := 0%Z.
Definition O_WRONLY : Z := 1%Z.
Definition O_RDWR : Z := 2%Z.
Definition O_ACCMODE : Z := 3%Z.
Definition O_CREAT : Z := 64%Z.
Definition O_APPEND : Z := 1024%Z.

(** tSize is int32_t. *)
Definition wrap32 (z : Z) : Z := ((z + 2 ^ 31) mod 2 ^ 32 - 2 ^ 31)%Z.

(** ** Pooled connections *)

(** Modelled from the spec: dfsConnection::ConnectionState is declared in
    filesystem-descriptor-bound.hpp, which is not at hand.  The three states
    are the ones the code assigns (NON_INITIALIZED, FREE_INITIALIZED, BUSY_OK)
    and the ones the design document lists (Uninitialized, FreeReady, Busy). *)
Inductive ConnectionState := NON_INITIALIZED | FREE_INITIALIZED | BUSY_OK.

#[global] Instance ConnectionState_eq_dec : EqDecision ConnectionState.
Proof. solve_decision. Defined.

Record dfsConnection := mkDfsConnection {
  connection : fsBridge;
  state : ConnectionState
}.

#[global] Instance dfsConnection_eq_dec : EqDecision dfsConnection.
Proof. solve_decision. Defined.

(** Modelled from the spec: freeConnectionPredicate (declared in the missing
    header) selects a connection in FreeReady state. *)
Definition freeConnectionPredicate (c : dfsConnection) : bool :=
  bool_decide (state c = FREE_INITIALIZED).

(** Modelled from the spec: anyNonInitializedConnectionPredicate (declared in
    the missing header) selects a connection in neither Busy nor FreeReady
    state; see also the comment at filesystem-descriptor-bound.cc:97. *)
Definition anyNonInitializedConnectionPredicate (c : dfsConnection) : bool :=
  negb (bool_decide (state c = BUSY_OK)) && negb (bool_decide (state c = FREE_INITIALIZED)).

(** boost::shared_ptr<dfsConnection>: an address in the store of connection
    objects, or null. *)
Abbreviation dfsConnectionPtr := (option nat) (only parsing).

(** raiiDfsConnection, the lease: it wraps one dfsConnectionPtr; the empty
    lease wraps the null pointer ([raiiDfsConnection(dfsConnectionPtr())]). *)
Abbreviation raiiDfsConnection := (option nat) (only parsing).

(** The builder of a native connection is plain configuration until
    _dfsBuilderConnect consumes it. *)
Record fsBuilder := mkFsBuilder {
  bld_host : option string;          (* None: _dfsBuilderSetHost(bld, NULL) *)
  bld_type : option DFS_TYPE;        (* set by _dfsBuilderSetHostAndFilesystemType *)
  bld_port : option Z                (* None: _dfsBuilderSetPort not called *)
}.

Definition _dfsNewBuilder : fsBuilder :=
  {| bld_host := None; bld_type := None; bld_port := None |}.
Definition _dfsBuilderSetHostAndFilesystemType (b : fsBuilder) (h : string) (t : DFS_TYPE) : fsBuilder :=
  {| bld_host := Some h; bld_type := Some t; bld_port := bld_port b |}.
Definition _dfsBuilderSetHost (b : fsBuilder) (h : option string) : fsBuilder :=
  {| bld_host := h; bld_type := bld_type b; bld_port := bld_port b |}.
(* The builder's port is unsigned and its width is set in a header that is
   not among the sources: the field holds the argument as the caller passes
   it, which is the port the builder carries only when the argument fits
   that type. *)
Definition _dfsBuilderSetPort (b : fsBuilder) (p : Z) : fsBuilder :=
  {| bld_host := bld_host b; bld_type := bld_type b; bld_port := Some p |}.

(** ** The external environment *)

(** One constructor per external function the two files call, indexed by the
    type of what the function hands back.  Out-parameters are part of the
    answer. *)
Inductive ext_call : Type → Type :=
| DfsBuilderConnect (bld : fsBuilder) : ext_call fsBridge
  (* status, host buffer, *port and *dfs_type after the call; the current
     port and type are passed by address *)
| DfsGetDefaultFsHostPortType (bld : fsBuilder) (port_in : Z) (type_in : DFS_TYPE)
    : ext_call (Z * string * Z * DFS_TYPE)
| DfsOpenFile (fs : fsBridge) (path : string) (flags bufferSize replication blocksize : Z)
    : ext_call dfsFile
| DfsCloseFile (fs : fsBridge) (file : dfsFile) : ext_call Z
| DfsTell (fs : fsBridge) (file : dfsFile) : ext_call Z
| DfsSeek (fs : fsBridge) (file : dfsFile) (desiredPos : Z) : ext_call Z
| DfsRead (fs : fsBridge) (file : dfsFile) (buffer : pointer) (length : Z) : ext_call Z
| DfsPread (fs : fsBridge) (file : dfsFile) (position : Z) (buffer : pointer) (length : Z)
    : ext_call Z
| DfsWrite (fs : fsBridge) (file : dfsFile) (buffer : pointer) (length : Z) : ext_call Z
| DfsFlush (fs : fsBridge) (file : dfsFile) : ext_call Z
| DfsRename (fs : fsBridge) (oldPath newPath : string) : ext_call Z
| DfsDelete (fs : fsBridge) (path : string) (recursive : Z) : ext_call Z
| DfsGetPathInfo (fs : fsBridge) (path : string) : ext_call pointer
  (* the listing and the value stored through numEntries *)
| DfsListDirectory (fs : fsBridge) (path : string) : ext_call (pointer * Z)
| DfsCreateDirectory (fs : fsBridge) (path : string) : ext_call Z
| DfsPathExists (fs : fsBridge) (path : string) : ext_call Z
| DfsCopy (srcFS : fsBridge) (src : string) (dstFS : fsBridge) (dst : string) : ext_call Z
| DfsMove (srcFS : fsBridge) (src : string) (dstFS : fsBridge) (dst : string) : ext_call Z
| DfsGetDefaultBlockSize (fs : fsBridge) : ext_call Z
| DfsAvailable (fs : fsBridge) (file : dfsFile) : ext_call Z
| DfsSetReplication (fs : fsBridge) (path : string) (replication : Z) : ext_call Z
| DfsGetCapacity (fs : fsBridge) : ext_call Z
| DfsGetUsed (fs : fsBridge) : ext_call Z
| DfsChown (fs : fsBridge) (path owner group : string) : ext_call Z
| DfsChmod (fs : fsBridge) (path : string) (mode : Z) : ext_call Z
| Malloc (size : Z) : ext_call pointer
| Free (p : pointer) : ext_call unit.

(** A logged external call. *)
Inductive event : Type :=
| Ext : ∀ R : Type, ext_call R → event.
Arguments Ext {R} c.

Definition is_read (e : event) : bool :=
  match e with Ext (DfsRead _ _ _ _) => true | _ => false end.
Definition is_open (e : event) : bool :=
  match e with Ext (DfsOpenFile _ _ _ _ _ _) => true | _ => false end.
Definition is_close (e : event) : bool :=
  match e with Ext (DfsCloseFile _ _) => true | _ => false end.
Definition is_connect (e : event) : bool :=
  match e with Ext (DfsBuilderConnect _) => true | _ => false end.
Definition is_native (e : event) : bool :=
  match e with Ext (Malloc _) | Ext (Free _) => false | _ => true end.

(** ** The adapter and its machine *)

(** Which class an adapter object belongs to: FileSystemDescriptorBound, or
    its subclass TachyonFileSystemDescriptorBound, which overrides fileOpen. *)
Inductive adapter_class := PlainBound | TachyonBound.

#[global] Instance adapter_class_eq_dec : EqDecision adapter_class.
Proof. solve_decision. Defined.

Record FileSystemDescriptorBound := mkBound {
  class_of : adapter_class;
  m_fsDescriptor : FileSystemDescriptor;
  (* std::list<boost::shared_ptr<dfsConnection>>, in list order *)
  m_connections : list nat;
  (* boost::mutex m_mux: true while it is locked *)
  m_mux : bool
}.

(** What getFreeConnection does to the pool, recorded together with the state
    of m_mux at that moment. *)
Inductive pool_op :=
| ScanStates                                   (* std::find_if over m_connections *)
| WriteState (p : nat) (s : ConnectionState)   (* i->state = s *)
| WriteHandle (p : nat) (h : fsBridge)         (* i->connection = h *)
| PushBack (p : nat).                          (* m_connections.push_back *)

Record access := mkAccess { what : pool_op; under_lock : bool }.

Section Machine.
Context {W : Type}.

Record machine := mkMachine {
  world : W;                       (* the environment's own state *)
  calls : list event;              (* external calls made so far, oldest first *)
  store : list dfsConnection;      (* the dfsConnection objects, by address *)
  this : FileSystemDescriptorBound;
  accesses : list access           (* pool accesses so far, oldest first *)
}.

(** How a method ends: it returns, it dereferences a null (or dangling)
    shared_ptr, or the model's fuel for a loop or a recursion ran out. *)
Inductive outcome (A : Type) :=
| Returns (a : A) (m : machine)
| BadDeref (m : machine)
| OutOfFuel.
Global Arguments Returns {A} a m.
Global Arguments BadDeref {A} m.
Global Arguments OutOfFuel {A}.

Definition M (A : Type) : Type := machine → outcome A.

Definition ret {A} (a : A) : M A := fun m => Returns a m.

Definition bind {A B} (c : M A) (k : A → M B) : M B :=
  fun m => match c m with
           | Returns a m' => k a m'
           | BadDeref m' => BadDeref m'
           | OutOfFuel => OutOfFuel
           end.
End Machine.
Arguments machine W : clear implicits.
Arguments outcome W A : clear implicits.
Arguments M W A : clear implicits.

Notation "'let!' x ':=' c 'in' k" := (bind c (fun x => k))
  (at level 10, x name, c at level 200, k at level 200).

(** The pass-through operations that take a lease, with their arguments,
    indexed by what they return. *)
Inductive passthrough : Type → Type :=
| FileOpen (conn : raiiDfsConnection) (path : string)
    (flags bufferSize replication blocksize : Z) : passthrough dfsFile
| FileClose (conn : raiiDfsConnection) (file : dfsFile) : passthrough Z
| FileTell (conn : raiiDfsConnection) (file : dfsFile) : passthrough Z
| FileSeek (conn : raiiDfsConnection) (file : dfsFile) (desiredPos : Z) : passthrough Z
| FileRead (conn : raiiDfsConnection) (file : dfsFile) (buffer : pointer) (length : Z)
    : passthrough Z
| FilePread (conn : raiiDfsConnection) (file : dfsFile) (position : Z) (buffer : pointer)
    (length : Z) : passthrough Z
| FileWrite (conn : raiiDfsConnection) (file : dfsFile) (buffer : pointer) (length : Z)
    : passthrough Z
| FileFlush (conn : raiiDfsConnection) (file : dfsFile) : passthrough Z
| FileRename (conn : raiiDfsConnection) (oldPath newPath : string) : passthrough Z
| PathDelete (conn : raiiDfsConnection) (path : string) (recursive : Z) : passthrough Z
| FileInfo (conn : raiiDfsConnection) (path : string) : passthrough pointer
| ListDirectory (conn : raiiDfsConnection) (path : string) : passthrough (pointer * Z)
| CreateDirectory (conn : raiiDfsConnection) (path : string) : passthrough Z
| PathExists (conn : raiiDfsConnection) (path : string) : passthrough bool
| FileCopy (conn_src : raiiDfsConnection) (src : string)
    (conn_dest : raiiDfsConnection) (dst : string) : passthrough Z
| FsMove (conn_src : raiiDfsConnection) (src : string)
    (conn_dest : raiiDfsConnection) (dst : string) : passthrough Z
| GetDefaultBlockSize (conn : raiiDfsConnection) : passthrough Z
| FileAvailable (conn : raiiDfsConnection) (file : dfsFile) : passthrough Z
| FsSetReplication (conn : raiiDfsConnection) (path : string) (replication : Z)
    : passthrough Z
| FsGetCapacity (conn : raiiDfsConnection) : passthrough Z
| FsGetUsed (conn : raiiDfsConnection) : passthrough Z
| FsChown (conn : raiiDfsConnection) (path owner group : string) : passthrough Z
| FsChmod (conn : raiiDfsConnection) (path : string) (mode : Z) : passthrough Z.

(** The leases an operation is given, in the order it uses them. *)
Definition leases {R} (op : passthrough R) : list raiiDfsConnection :=
  match op with
  | FileOpen conn _ _ _ _ _ | FileClose conn _ | FileTell conn _ | FileSeek conn _ _
  | FileRead conn _ _ _ | FilePread conn _ _ _ _ | FileWrite conn _ _ _
  | FileFlush conn _ | FileRename conn _ _ | PathDelete conn _ _ | FileInfo conn _
  | ListDirectory conn _ | CreateDirectory conn _ | PathExists conn _
  | GetDefaultBlockSize conn | FileAvailable conn _ | FsSetReplication conn _ _
  | FsGetCapacity conn | FsGetUsed conn | FsChown conn _ _ _ | FsChmod conn _ _ => [conn]
  | FileCopy conn_src _ conn_dest _ | FsMove conn_src _ conn_dest _ => [conn_src; conn_dest]
  end.

(** The native connections a logged call was made on. *)
Definition bridges (e : event) : list fsBridge :=
  match e with
  | Ext (DfsOpenFile fs _ _ _ _ _) | Ext (DfsCloseFile fs _) | Ext (DfsTell fs _)
  | Ext (DfsSeek fs _ _) | Ext (DfsRead fs _ _ _) | Ext (DfsPread fs _ _ _ _)
  | Ext (DfsWrite fs _ _ _) | Ext (DfsFlush fs _) | Ext (DfsRename fs _ _)
  | Ext (DfsDelete fs _ _) | Ext (DfsGetPathInfo fs _) | Ext (DfsListDirectory fs _)
  | Ext (DfsCreateDirectory fs _) | Ext (DfsPathExists fs _)
  | Ext (DfsGetDefaultBlockSize fs) | Ext (DfsAvailable fs _)
  | Ext (DfsSetReplication fs _ _) | Ext (DfsGetCapacity fs) | Ext (DfsGetUsed fs)
  | Ext (DfsChown fs _ _ _) | Ext (DfsChmod fs _ _) => [fs]
  | Ext (DfsCopy fs1 _ fs2 _) | Ext (DfsMove fs1 _ fs2 _) => [fs1; fs2]
  | Ext (DfsBuilderConnect _) | Ext (DfsGetDefaultFsHostPortType _ _ _)
  | Ext (Malloc _) | Ext (Free _) => []
  end.

Section Adapter.
Context {W : Type}.
Variable respond : ∀ R : Type, ext_call R → W → R * W.

(** An external call: the environment answers and moves on; the call is
    appended to the log. *)
Definition call {R} (c : ext_call R) : M W R :=
  fun m => let '(r, w) := respond R c (world m) in
           Returns r {| world := w; calls := calls m ++ [Ext c];
                        store := store m; this := this m;
                        accesses := accesses m |}.

(** The machine after the external call [c]. *)
Definition after_call {R} (c : ext_call R) (m : machine W) : machine W :=
  {| world := (respond R c (world m)).2; calls := calls m ++ [Ext c];
     store := store m; this := this m; accesses := accesses m |}.

(** The environment's answer to [c] when asked in machine [m]. *)
Definition answer {R} (c : ext_call R) (m : machine W) : R :=
  (respond R c (world m)).1.

(** The machine after [k] consecutive calls [c]. *)
Definition after_calls {R} (c : ext_call R) (k : nat) (m : machine W) : machine W :=
  Nat.iter k (after_call c) m.

(** Repeating the call [c] from machine [m] on, the first [n] answers are
    positive and the next one is not: for a read, the stream ends (or
    fails) at the read number [n], counted from 0. *)
Definition ends_at (c : ext_call Z) (m : machine W) (n : nat) : Prop :=
  (∀ k, k < n → (0 < answer c (after_calls c k m))%Z) ∧
  (answer c (after_calls c n m) ≤ 0)%Z.

(** [p->connection] and [p->state] for a shared_ptr [p]. *)
Definition deref (p : dfsConnectionPtr) : M W dfsConnection :=
  fun m => match p with
           | None => BadDeref m
           | Some a => match store m !! a with
                       | Some c => Returns c m
                       | None => BadDeref m
                       end
           end.

(** [conn.connection()->connection] *)
Definition bridge_of (conn : raiiDfsConnection) : M W fsBridge :=
  let! c := deref conn in ret (connection c).

(** fsBridge FileSystemDescriptorBound::connect(): the builder it sets up
    from m_fsDescriptor (lines 34-44) ... *)
Definition connect_builder (d : FileSystemDescriptor) : fsBuilder :=
  let fs_builder := _dfsNewBuilder in
  let fs_builder :=
    if negb (bool_decide (host d = EmptyString))
    then _dfsBuilderSetHostAndFilesystemType fs_builder (host d) (dfs_type d)
    else
      (* Connect to local filesystem *)
      _dfsBuilderSetHost fs_builder None in
  (* forward the port to the unsigned builder's port only if the port is positive *)
  if (0 <? port d)%Z then _dfsBuilderSetPort fs_builder (port d) else fs_builder.

(** ... and the connection attempt (line 45). *)
Definition connect : M W fsBridge :=
  fun m => call (DfsBuilderConnect (connect_builder (m_fsDescriptor (this m)))) m.

(** *** Pass-through operations (filesystem-descriptor-bound.cc:135-234) *)

Definition fileOpen (conn : raiiDfsConnection) (path : string)
    (flags bufferSize replication blocksize : Z) : M W dfsFile :=
  let! fs := bridge_of conn in call (DfsOpenFile fs path flags bufferSize replication blocksize).

Definition fileClose (conn : raiiDfsConnection) (file : dfsFile) : M W Z :=
  let! fs := bridge_of conn in call (DfsCloseFile fs file).

Definition fileTell (conn : raiiDfsConnection) (file : dfsFile) : M W Z :=
  let! fs := bridge_of conn in call (DfsTell fs file).

Definition fileSeek (conn : raiiDfsConnection) (file : dfsFile) (desiredPos : Z) : M W Z :=
  let! fs := bridge_of conn in call (DfsSeek fs file desiredPos).

Definition fileRead (conn : raiiDfsConnection) (file : dfsFile) (buffer : pointer)
    (length : Z) : M W Z :=
  let! fs := bridge_of conn in call (DfsRead fs file buffer length).

Definition filePread (conn : raiiDfsConnection) (file : dfsFile) (position : Z)
    (buffer : pointer) (length : Z) : M W Z :=
  let! fs := bridge_of conn in call (DfsPread fs file position buffer length).

Definition fileWrite (conn : raiiDfsConnection) (file : dfsFile) (buffer : pointer)
    (length : Z) : M W Z :=
  let! fs := bridge_of conn in call (DfsWrite fs file buffer length).

Definition fileFlush (conn : raiiDfsConnection) (file : dfsFile) : M W Z :=
  let! fs := bridge_of conn in call (DfsFlush fs file).

Definition fileRename (conn : raiiDfsConnection) (oldPath newPath : string) : M W Z :=
  let! fs := bridge_of conn in call (DfsRename fs oldPath newPath).

Definition pathDelete (conn : raiiDfsConnection) (path : string) (recursive : Z) : M W Z :=
  let! fs := bridge_of conn in call (DfsDelete fs path recursive).

Definition fileInfo (conn : raiiDfsConnection) (path : string) : M W pointer :=
  let! fs := bridge_of conn in call (DfsGetPathInfo fs path).

Definition listDirectory (conn : raiiDfsConnection) (path : string) : M W (pointer * Z) :=
  let! fs := bridge_of conn in call (DfsListDirectory fs path).

Definition createDirectory (conn : raiiDfsConnection) (path : string) : M W Z :=
  let! fs := bridge_of conn in call (DfsCreateDirectory fs path).

Definition pathExists (conn : raiiDfsConnection) (path : string) : M W bool :=
  let! fs := bridge_of conn in let! r := call (DfsPathExists fs path) in ret (r =? 0)%Z.

Definition fileCopy (conn_src : raiiDfsConnection) (src : string)
    (conn_dest : raiiDfsConnection) (dst : string) : M W Z :=
  let! fs1 := bridge_of conn_src in let! fs2 := bridge_of conn_dest in
  call (DfsCopy fs1 src fs2 dst).

Definition fsMove (conn_src : raiiDfsConnection) (src : string)
    (conn_dest : raiiDfsConnection) (dst : string) : M W Z :=
  let! fs1 := bridge_of conn_src in let! fs2 := bridge_of conn_dest in
  call (DfsMove fs1 src fs2 dst).

Definition getDefaultBlockSize (conn : raiiDfsConnection) : M W Z :=
  let! fs := bridge_of conn in call (DfsGetDefaultBlockSize fs).

Definition fileAvailable (conn : raiiDfsConnection) (file : dfsFile) : M W Z :=
  let! fs := bridge_of conn in call (DfsAvailable fs file).

Definition fsSetReplication (conn : raiiDfsConnection) (path : string)
    (replication : Z) : M W Z :=
  let! fs := bridge_of conn in call (DfsSetReplication fs path replication).

Definition fsGetCapacity (conn : raiiDfsConnection) : M W Z :=
  let! fs := bridge_of conn in call (DfsGetCapacity fs).

Definition fsGetUsed (conn : raiiDfsConnection) : M W Z :=
  let! fs := bridge_of conn in call (DfsGetUsed fs).

Definition fsChown (conn : raiiDfsConnection) (path owner group : string) : M W Z :=
  let! fs := bridge_of conn in call (DfsChown fs path owner group).

Definition fsChmod (conn : raiiDfsConnection) (path : string) (mode : Z) : M W Z :=
  let! fs := bridge_of conn in call (DfsChmod fs path mode).

Definition invoke {R} (op : passthrough R) : M W R :=
  match op with
  | FileOpen conn path flags bufferSize replication blocksize =>
      fileOpen conn path flags bufferSize replication blocksize
  | FileClose conn file => fileClose conn file
  | FileTell conn file => fileTell conn file
  | FileSeek conn file desiredPos => fileSeek conn file desiredPos
  | FileRead conn file buffer length => fileRead conn file buffer length
  | FilePread conn file position buffer length => filePread conn file position buffer length
  | FileWrite conn file buffer length => fileWrite conn file buffer length
  | FileFlush conn file => fileFlush conn file
  | FileRename conn oldPath newPath => fileRename conn oldPath newPath
  | PathDelete conn path recursive => pathDelete conn path recursive
  | FileInfo conn path => fileInfo conn path
  | ListDirectory conn path => listDirectory conn path
  | CreateDirectory conn path => createDirectory conn path
  | PathExists conn path => pathExists conn path
  | FileCopy conn_src src conn_dest dst => fileCopy conn_src src conn_dest dst
  | FsMove conn_src src conn_dest dst => fsMove conn_src src conn_dest dst
  | GetDefaultBlockSize conn => getDefaultBlockSize conn
  | FileAvailable conn file => fileAvailable conn file
  | FsSetReplication conn path replication => fsSetReplication conn path replication
  | FsGetCapacity conn => fsGetCapacity conn
  | FsGetUsed conn => fsGetUsed conn
  | FsChown conn path owner group => fsChown conn path owner group
  | FsChmod conn path mode => fsChmod conn path mode
  end.

(** The native connection a lease gives access to, if it holds one. *)
Definition lease_bridge (m : machine W) (conn : raiiDfsConnection) : option fsBridge :=
  match conn with
  | None => None
  | Some a => connection <$> store m !! a
  end.

(** *** The pool (filesystem-descriptor-bound.cc:82-133) *)

Definition set_store (st : list dfsConnection) (m : machine W) : machine W :=
  {| world := world m; calls := calls m; store := st; this := this m;
     accesses := accesses m |}.

Definition set_pool (l : list nat) (m : machine W) : machine W :=
  {| world := world m; calls := calls m; store := store m;
     this := {| class_of := class_of (this m); m_fsDescriptor := m_fsDescriptor (this m);
                m_connections := l; m_mux := m_mux (this m) |};
     accesses := accesses m |}.

Definition set_mux (b : bool) (m : machine W) : machine W :=
  {| world := world m; calls := calls m; store := store m;
     this := {| class_of := class_of (this m); m_fsDescriptor := m_fsDescriptor (this m);
                m_connections := m_connections (this m); m_mux := b |};
     accesses := accesses m |}.

(** Every access to the pool is recorded with the state of m_mux. *)
Definition note (o : pool_op) (m : machine W) : machine W :=
  {| world := world m; calls := calls m; store := store m; this := this m;
     accesses := accesses m ++ [mkAccess o (m_mux (this m))] |}.

Definition log_access (o : pool_op) : M W unit :=
  fun m => Returns tt (note o m).

(** boost::mutex::scoped_lock is boost::unique_lock<boost::mutex>; the value
    of a lock object is whether it owns m_mux.  [scoped_lock name(m_mux)]
    locks the mutex; the default constructor refers to no mutex at all; the
    destructor unlocks what the object owns. *)
Definition scoped_lock_on_m_mux : M W bool :=
  fun m => Returns true (set_mux true m).
Definition scoped_lock_default : M W bool := ret false.
Definition scoped_lock_destroy (owns : bool) : M W unit :=
  fun m => Returns tt (if owns then set_mux false m else m).

(** The first pointer of the list whose object satisfies the predicate. *)
Fixpoint find_first (pred : dfsConnection → bool) (st : list dfsConnection)
    (l : list nat) : option nat :=
  match l with
  | [] => None
  | p :: l' =>
      match st !! p with
      | Some c => if pred c then Some p else find_first pred st l'
      | None => find_first pred st l'
      end
  end.

(** std::find_if(m_connections.begin(), m_connections.end(), pred); the
    result is None for m_connections.end(). *)
Definition find_if (pred : dfsConnection → bool) : M W (option nat) :=
  let! _ := log_access ScanStates in
  fun m => Returns (find_first pred (store m) (m_connections (this m))) m.

(** [p->state = s] *)
Definition set_state (p : nat) (s : ConnectionState) : M W unit :=
  let! _ := log_access (WriteState p s) in
  let! c := deref (Some p) in
  fun m => Returns tt (set_store (<[p := {| connection := connection c; state := s |}]> (store m)) m).

(** [p->connection = h] *)
Definition set_connection (p : nat) (h : fsBridge) : M W unit :=
  let! _ := log_access (WriteHandle p h) in
  let! c := deref (Some p) in
  fun m => Returns tt (set_store (<[p := {| connection := h; state := state c |}]> (store m)) m).

(** [boost::shared_ptr<dfsConnection> connection(new dfsConnection());
     connection->state = dfsConnection::NON_INITIALIZED;]
    The object gets the next free address. *)
Definition new_dfsConnection : M W nat :=
  fun m => let p := length (store m) in
    bind (log_access (WriteState p NON_INITIALIZED))
         (fun _ m' => Returns p (set_store (store m' ++ [{| connection := NULL; state := NON_INITIALIZED |}]) m'))
         m.

(** The only shared_ptr to the object allocated last goes out of scope: the
    object is deleted. *)
Definition drop_last (p : nat) : M W unit :=
  fun m => Returns tt (set_store (take p (store m)) m).

(** [m_connections.push_back(p)] *)
Definition push_back (p : nat) : M W unit :=
  let! _ := log_access (PushBack p) in
  fun m => Returns tt (set_pool (m_connections (this m) ++ [p]) m).

(** raiiDfsConnection FileSystemDescriptorBound::getFreeConnection().

    Line 85 reads [boost::mutex::scoped_lock(m_mux);].  A statement of the
    form [T(x);] with T a type is a declaration: it declares a local lock
    object called m_mux, default-constructed, which hides the member and
    owns no mutex.  (Read as an expression it would build a temporary that
    is destroyed, and the mutex released, at the end of that very
    statement.)  The registry's methods show the form that does lock:
    [boost::mutex::scoped_lock lockconn(m_connmux);].

    The method calls itself once a new connection is in the pool; [fuel]
    bounds the depth of that recursion. *)
Fixpoint getFreeConnection (fuel : nat) : M W raiiDfsConnection :=
  match fuel with
  | O => fun _ => OutOfFuel
  | S fuel' =>
    let! lk := scoped_lock_default in
    let! r := (let! i1 := find_if freeConnectionPredicate in
          match i1 with
          | Some p =>
              (* return the connection, mark it busy! *)
              let! _ := set_state p BUSY_OK in ret (Some p)
          | None =>
            let! i2 := find_if anyNonInitializedConnectionPredicate in
            match i2 with
            | Some p =>
                let! conn := connect in
                if negb (conn =? NULL)%Z then
                  let! _ := set_connection p conn in
                  let! _ := set_state p BUSY_OK in
                  ret (Some p)
                else ret None
            | None =>
                let! connection := new_dfsConnection in
                let! conn := connect in
                if negb (conn =? NULL)%Z then
                  let! _ := set_connection connection conn in
                  let! _ := set_state connection FREE_INITIALIZED in
                  let! _ := push_back connection in
                  getFreeConnection fuel'
                else
                  let! _ := drop_last connection in ret None
            end
          end) in
    let! _ := scoped_lock_destroy lk in
    ret r
  end.

(** *** TachyonFileSystemDescriptorBound::fileOpen (lines 270-330) *)

Definition BUFFER_SIZE : Z := 6684672%Z.

(** The [for (; last_read > 0;)] loop of the reader lambda.  [fuel] bounds
    the number of iterations. *)
Fixpoint reader_loop (fuel : nat) (conn : raiiDfsConnection) (handle : dfsFile)
    (buffer : pointer) (last_read bytes : Z) : M W (Z * Z) :=
  if (0 <? last_read)%Z then
    match fuel with
    | O => fun _ => OutOfFuel
    | S fuel' =>
        let bytes := wrap32 (bytes + last_read) in
        (* read next data buffer: *)
        let! fs := bridge_of conn in
        let! last_read := call (DfsRead fs handle buffer BUFFER_SIZE) in
        reader_loop fuel' conn handle buffer last_read bytes
    end
  else ret (last_read, bytes).

(** The reader lambda; it leaves (last_read, bytes). *)
Definition reader (fuel : nat) (conn : raiiDfsConnection) (handle : dfsFile)
    (buffer : pointer) : M W (Z * Z) :=
  let! fs := bridge_of conn in
  let! last_read := call (DfsRead fs handle buffer BUFFER_SIZE) in
  reader_loop fuel conn handle buffer last_read 0%Z.

Definition Tachyon_fileOpen (fuel : nat) (conn : raiiDfsConnection) (path : string)
    (flags bufferSize replication blocksize : Z) : M W dfsFile :=
  let! fs := bridge_of conn in
  let! handle := call (DfsOpenFile fs path flags bufferSize replication blocksize) in
  if (handle =? NULL)%Z then ret handle
  else if (flags =? O_WRONLY)%Z then
    (* file is opened for write, no need to trigger its caching on Tachyon *)
    ret handle
  else
    (* read from the remote file to trigger its caching *)
    let! buffer := call (Malloc (1 * BUFFER_SIZE)) in
    if (buffer =? NULL)%Z then
      let! fs := bridge_of conn in
      let! _ := call (DfsCloseFile fs handle) in
      ret NULL
    else
      let! lb := reader fuel conn handle buffer in
      let last_read := lb.1 in
      if (last_read =? 0)%Z then
        let! _ := call (Free buffer) in
        let! fs := bridge_of conn in
        let! r := call (DfsCloseFile fs handle) in
        if negb (r =? 0)%Z then ret NULL
        else
          (* reopen the stream from position 0: *)
          let! fs := bridge_of conn in
          call (DfsOpenFile fs path flags bufferSize replication blocksize)
      else
        (* last_read == -1 only logs a warning *)
        ret NULL.

(** fileOpen as a client of an adapter object reaches it. *)
Definition fileOpen_of_class (k : adapter_class) (fuel : nat) :=
  match k with
  | PlainBound => fileOpen
  | TachyonBound => Tachyon_fileOpen fuel
  end.

End Adapter.

(** [p] is the first pointer of the pool [l] whose connection object
    satisfies [pred]; no pointer of the pool has such an object. *)
Definition first_with (pred : dfsConnection → bool) (st : list dfsConnection)
    (l : list nat) (p : nat) : Prop :=
  ∃ l1 l2 c, l = l1 ++ p :: l2 ∧ st !! p = Some c ∧ pred c = true ∧
             ∀ q c', q ∈ l1 → st !! q = Some c' → pred c' = false.

Definition none_with (pred : dfsConnection → bool) (st : list dfsConnection)
    (l : list nat) : Prop :=
  ∀ q c', q ∈ l → st !! q = Some c' → pred c' = false.

(** Pool accesses made while m_mux is in the state it has in machine [m]. *)
Definition logged {W} (m : machine W) (ops : list pool_op) : list access :=
  map (λ o, mkAccess o (m_mux (this m))) ops.

(** ** The cache-layer registry (cache-layer-registry.cc) *)

Inductive StatusInternal := OK | DFS_ADAPTOR_IS_NOT_CONFIGURED.

#[global] Instance StatusInternal_eq_dec : EqDecision StatusInternal.
Proof. solve_decision. Defined.

(** The registry members the modelled methods touch.  Adapter objects live on
    the heap and the directory holds shared pointers to them: [adapters] is
    that heap, by address. *)
Record CacheLayerRegistry := mkRegistry {
  adapters : list FileSystemDescriptorBound;
  (* std::map<DFS_TYPE, std::map<std::string, boost::shared_ptr<FileSystemDescriptorBound>>> *)
  m_filesystems : gmap DFS_TYPE (gmap string nat);
  (* local file handle -> remote file handle *)
  m_createFromSelect : gmap Z Z
}.

(** std::map::operator[]: the mapped value, default-inserted when the key is
    missing. *)
Definition subscript {K V} `{Countable K} (dflt : V) (m : gmap K V) (k : K) : V * gmap K V :=
  match m !! k with
  | Some v => (v, m)
  | None => (dflt, <[k := dflt]> m)
  end.

(** Modelled from the spec: the constructors of FileSystemDescriptorBound and
    of TachyonFileSystemDescriptorBound are in the missing header; an adapter
    starts with the descriptor it was built from and an empty pool. *)
Definition new_FileSystemDescriptorBound (k : adapter_class) (d : FileSystemDescriptor)
    : FileSystemDescriptorBound :=
  {| class_of := k; m_fsDescriptor := d; m_connections := []; m_mux := false |}.

Section Registry.
Context {W : Type}.
Variable respond : ∀ R : Type, ext_call R → W → R * W.
(** constants::DEFAULT_FS, the host that asks for resolution; its value is
    not in the sources at hand. *)
Variable DEFAULT_FS : string.

(** int FileSystemDescriptorBound::resolveFsAddress(FileSystemDescriptor&),
    static.  The native resolver receives the addresses of the descriptor's
    port and type and may store through them whatever its status. *)
Definition resolveFsAddress (fsDescriptor : FileSystemDescriptor) (w : W)
    : Z * FileSystemDescriptor * W :=
  let fs_builder := _dfsNewBuilder in
  let fs_builder :=
    if negb (bool_decide (host fsDescriptor = EmptyString))
    then _dfsBuilderSetHost fs_builder (Some (host fsDescriptor))
    else _dfsBuilderSetHost fs_builder None in
  let fs_builder := _dfsBuilderSetPort fs_builder (port fsDescriptor) in
  let '(status, host', port', type', w') :=
    respond _ (DfsGetDefaultFsHostPortType fs_builder (port fsDescriptor)
                                           (dfs_type fsDescriptor)) w in
  let d := {| dfs_type := type'; host := host fsDescriptor; port := port';
              credentials := credentials fsDescriptor;
              password := password fsDescriptor; valid := valid fsDescriptor |} in
  if (status =? 0)%Z then
    (status,
     {| dfs_type := dfs_type d; host := host';
        (* if port is not specified, set 0 *)
        port := if (port d <? 0)%Z then 0%Z else port d;
        credentials := credentials d; password := password d; valid := valid d |},
     w')
  else (status, d, w').

(** status::StatusInternal CacheLayerRegistry::setupFileSystem(FileSystemDescriptor&).
    The descriptor is passed by reference: the result carries it back. *)
Definition setupFileSystem (fsDescriptor : FileSystemDescriptor) (w : W)
    (reg : CacheLayerRegistry)
    : StatusInternal * FileSystemDescriptor * W * CacheLayerRegistry :=
  let '(status, d, w1) :=
    if bool_decide (host fsDescriptor = DEFAULT_FS)
    then resolveFsAddress fsDescriptor w
    else (0%Z, fsDescriptor, w) in
  if negb (status =? 0)%Z then (DFS_ADAPTOR_IS_NOT_CONFIGURED, d, w1, reg)
  else
    let '(by_host, fss) := subscript ∅ (m_filesystems reg) (dfs_type d) in
    if bool_decide (is_Some (by_host !! host d)) then
      (* descriptor is already a part of the registry, nothing to add *)
      (OK, d, w1,
       {| adapters := adapters reg; m_filesystems := fss;
          m_createFromSelect := m_createFromSelect reg |})
    else
      let descriptor := length (adapters reg) in
      let object :=
        if bool_decide (dfs_type d = tachyon)
        then new_FileSystemDescriptorBound TachyonBound d
        else new_FileSystemDescriptorBound PlainBound d in
      let '(by_host', fss') := subscript ∅ fss (dfs_type d) in
      (OK, d, w1,
       {| adapters := adapters reg ++ [object];
          m_filesystems := <[dfs_type d := <[host d := descriptor]> by_host']> fss';
          m_createFromSelect := m_createFromSelect reg |}).

(** CacheLayerRegistry::getFileSystemDescriptor: the shared pointer stored
    for (type, host), or nullptr. *)
Definition getFileSystemDescriptor (reg : CacheLayerRegistry)
    (fsDescriptor : FileSystemDescriptor) : option nat :=
  match m_filesystems reg !! dfs_type fsDescriptor with
  | Some by_host => by_host !! host fsDescriptor
  | None => None
  end.

Definition set_createFromSelect (m : gmap Z Z) (reg : CacheLayerRegistry) : CacheLayerRegistry :=
  {| adapters := adapters reg; m_filesystems := m_filesystems reg;
     m_createFromSelect := m |}.

(** bool CacheLayerRegistry::registerCreateFromSelectScenario(local, remote) *)
Definition registerCreateFromSelectScenario (local remote : dfsFile)
    (reg : CacheLayerRegistry) : bool * CacheLayerRegistry :=
  match m_createFromSelect reg !! local with
  | None => (true, set_createFromSelect (<[local := remote]> (m_createFromSelect reg)) reg)
  | Some _ => (false, reg)
  end.

(** bool CacheLayerRegistry::unregisterCreateFromSelectScenario(local):
    std::map::erase(key) returns the number of elements removed. *)
Definition unregisterCreateFromSelectScenario (local : dfsFile)
    (reg : CacheLayerRegistry) : bool * CacheLayerRegistry :=
  let erased_items : nat :=
    match m_createFromSelect reg !! local with Some _ => 1 | None => 0 end in
  (bool_decide (erased_items = 1),
   set_createFromSelect (delete local (m_createFromSelect reg)) reg).

(** dfsFile CacheLayerRegistry::getCreateFromSelectScenario(local, bool& exists):
    the remote handle and what is stored through [exists]. *)
Definition getCreateFromSelectScenario (local : dfsFile) (reg : CacheLayerRegistry)
    : dfsFile * bool :=
  match m_createFromSelect reg !! local with
  | None => (NULL, false)
  | Some remote => (remote, true)
  end.

End Registry.

(** Lines 69-82 of setupFileSystem in closed form: the registry once an
    adapter for (type, host) of [d] is present. *)
Definition with_adapter (d : FileSystemDescriptor) (reg : CacheLayerRegistry)
    : CacheLayerRegistry :=
  let by_host := default ∅ (m_filesystems reg !! dfs_type d) in
  match by_host !! host d with
  | Some _ => reg
  | None =>
      {| adapters := adapters reg ++
           [new_FileSystemDescriptorBound
              (if bool_decide (dfs_type d = tachyon) then TachyonBound else PlainBound) d];
         m_filesystems :=
           <[dfs_type d := <[host d := length (adapters reg)]> by_host]> (m_filesystems reg);
         m_createFromSelect := m_createFromSelect reg |}
  end.

(** ** A scripted environment

    An executable environment for worked examples: each kind of external call
    takes its answers from a list, oldest first; an exhausted list answers
    with the default given below. *)
Module Scripted.

Record script := mkScript {
  connects : list Z;      (* _dfsBuilderConnect; default: bridge 7 *)
  opens : list Z;         (* _dfsOpenFile; default: handle 11 *)
  reads : list Z;         (* _dfsRead; default: 0, end of stream *)
  closes : list Z;        (* _dfsCloseFile; default: 0 *)
  mallocs : list Z;       (* malloc; default: buffer 99 *)
  resolved : Z * string * Z * DFS_TYPE   (* _dfsGetDefaultFsHostPortType *)
}.

Definition pop (dflt : Z) (l : list Z) : Z * list Z :=
  match l with
  | [] => (dflt, [])
  | x :: l' => (x, l')
  end.

Definition respond (R : Type) (c : ext_call R) (w : script) : R * script :=
  match c in ext_call R return R * script with
  | DfsBuilderConnect _ =>
      let '(x, l) := pop 7%Z (connects w) in
      (x, mkScript l (opens w) (reads w) (closes w) (mallocs w) (resolved w))
  | DfsGetDefaultFsHostPortType _ _ _ => (resolved w, w)
  | DfsOpenFile _ _ _ _ _ _ =>
      let '(x, l) := pop 11%Z (opens w) in
      (x, mkScript (connects w) l (reads w) (closes w) (mallocs w) (resolved w))
  | DfsRead _ _ _ _ =>
      let '(x, l) := pop 0%Z (reads w) in
      (x, mkScript (connects w) (opens w) l (closes w) (mallocs w) (resolved w))
  | DfsCloseFile _ _ =>
      let '(x, l) := pop 0%Z (closes w) in
      (x, mkScript (connects w) (opens w) (reads w) l (mallocs w) (resolved w))
  | Malloc _ =>
      let '(x, l) := pop 99%Z (mallocs w) in
      (x, mkScript (connects w) (opens w) (reads w) (closes w) l (resolved w))
  | Free _ => (tt, w)
  | DfsListDirectory _ _ => ((0%Z, 0%Z), w)
  | _ => (0%Z, w)
  end.

Definition quiet : script :=
  mkScript [] [] [] [] [] (0%Z, "nn1", 8020%Z, hdfs).

Definition namenode : FileSystemDescriptor :=
  mkFileSystemDescriptor hdfs "nn1" 8020 EmptyString EmptyString true.

(** A machine around a plain adapter for [namenode] with the given
    connection objects and pool. *)
Definition boot (w : script) (st : list dfsConnection) (pool : list nat) : machine script :=
  {| world := w; calls := []; store := st;
     this := {| class_of := PlainBound; m_fsDescriptor := namenode;
                m_connections := pool; m_mux := false |};
     accesses := [] |}.

Definition empty_registry : CacheLayerRegistry :=
  {| adapters := []; m_filesystems := ∅; m_createFromSelect := ∅ |}.

(** One Busy connection on bridge 5, leased as [Some 0]. *)
Definition leased (w : script) : machine script :=
  boot w [{| connection := 5; state := BUSY_OK |}] [0].

Definition with_reads (l : list Z) : script :=
  mkScript [] [] l [] [] (resolved quiet).

Definition without_memory : script :=
  mkScript [] [] [] [] [0%Z] (resolved quiet).

Definition unresolved : FileSystemDescriptor :=
  mkFileSystemDescriptor DEFAULT_FROM_CONFIG "default" 0 EmptyString EmptyString true.

(** The resolver answers namenode "nn1" and leaves the port at -1. *)
Definition resolving : script :=
  mkScript [] [] [] [] [] (0%Z, "nn1", (-1)%Z, hdfs).

(** A file of two buffers: the reads answer 3, 4 and then 0. *)
Definition two_chunks : machine script := leased (with_reads [3%Z; 4%Z]).

(** A stream that fails at the second read. *)
Definition failing : machine script := leased (with_reads [3%Z; (-1)%Z]).

End Scripted.

(** ** Further operations of the two files *)

(** std::ostream& operator<<(std::ostream&, const DFS_TYPE&)
    (filesystem-descriptor-bound.cc:16-31): the table filled by
    INSERT_ELEMENT on the first call ... *)
Definition DFS_TYPE_strings (p : DFS_TYPE) : string :=
  match p with
  | hdfs => "hdfs" | s3n => "s3n" | s3a => "s3a" | local => "local"
  | tachyon => "tachyon" | DEFAULT_FROM_CONFIG => "DEFAULT_FROM_CONFIG"
  | OTHER => "OTHER" | NON_SPECIFIED => "NON_SPECIFIED"
  end.

(** ... and the text that is written to the stream. *)
Definition DFS_TYPE_out (value : DFS_TYPE) : string :=
  if bool_decide (value = local) then "file" else DFS_TYPE_strings value.

(** The pool holds each connection object once, and only objects that
    exist. *)
Definition pool_wf {W} (m : machine W) : Prop :=
  NoDup (m_connections (this m)) ∧
  ∀ p, p ∈ m_connections (this m) → p < length (store m).

Section Callers.
Context {W : Type}.
Variable respond : ∀ R : Type, ext_call R → W → R * W.

(** A client that takes [k] leases in a row and gives none back. *)
Fixpoint acquire_many (fuel k : nat) : M W (list raiiDfsConnection) :=
  match k with
  | O => ret []
  | S k' =>
      let! lease := getFreeConnection respond fuel in
      let! more := acquire_many fuel k' in
      ret (lease :: more)
  end.

End Callers.

(** Every entry of the adapter directory points to an adapter object that was
    built for the entry's own (type, host), of the class that goes with the
    type. *)
Definition registry_wf (reg : CacheLayerRegistry) : Prop :=
  ∀ (t : DFS_TYPE) (h : string) (by_host : gmap string nat) (a : nat),
    m_filesystems reg !! t = Some by_host → by_host !! h = Some a →
    ∃ obj, adapters reg !! a = Some obj ∧
           dfs_type (m_fsDescriptor obj) = t ∧ host (m_fsDescriptor obj) = h ∧
           class_of obj = (if bool_decide (t = tachyon) then TachyonBound else PlainBound).

(** *** File operations of the registry (cache-layer-registry.cc:93-140)

    The directory of cache entries (m_cache) and the derivation of the
    canonical local path (managed_file::File::constructLocalPath) are
    collaborators whose code is not at hand: the directory is a state of some
    type [C] with the four operations the registry calls, File* is a pointer.
    An out-parameter [File*& file] is passed in and handed back. *)
Section FileOperations.
Context {C : Type}.
Variable constructLocalPath : FileSystemDescriptor → string → string.
(* m_cache->find(fqp, transformCmd) and m_cache->find(fqp) *)
Variable cache_find : string → string → C → pointer * C.
Variable cache_find_plain : string → C → pointer * C.
(* m_cache->add(fqp, file, creationFlag): the result and what is stored in file *)
Variable cache_add : string → pointer → Z → C → bool * pointer * C.
(* m_cache->remove(fqp, physically) *)
Variable cache_remove : string → bool → C → bool * C.
(* m_cache->deletePath(fqp) *)
Variable cache_deletePath : string → C → bool * C.

(** bool findFile(const char* path, const FileSystemDescriptor& descriptor,
                  managed_file::File*& file, const std::string transformCmd) *)
Definition findFile (path : string) (descriptor : FileSystemDescriptor)
    (file : pointer) (transformCmd : string) (m_cache : C) : bool * pointer * C :=
  let fqp := constructLocalPath descriptor path in
  if bool_decide (fqp = EmptyString) then (false, file, m_cache)
  else
    let '(file, m_cache) := cache_find fqp transformCmd m_cache in
    (negb (file =? NULL)%Z, file, m_cache).

(** bool findFile(const char* path, managed_file::File*& file) *)
Definition findFile_canonical (path : string) (file : pointer) (m_cache : C)
    : bool * pointer * C :=
  let fqp := path in
  if bool_decide (fqp = EmptyString) then (false, file, m_cache)
  else
    let '(file, m_cache) := cache_find_plain fqp m_cache in
    (negb (file =? NULL)%Z, file, m_cache).

(** bool addFile(path, descriptor, file, creationFlag) *)
Definition addFile (path : string) (descriptor : FileSystemDescriptor)
    (file : pointer) (creationFlag : Z) (m_cache : C) : bool * pointer * C :=
  let fqp := constructLocalPath descriptor path in
  if bool_decide (fqp = EmptyString) then (false, file, m_cache)
  else cache_add fqp file creationFlag m_cache.

(** bool deleteFile(descriptor, path, physically) *)
Definition deleteFile (descriptor : FileSystemDescriptor) (path : string)
    (physically : bool) (m_cache : C) : bool * C :=
  let fqp := constructLocalPath descriptor path in
  if bool_decide (fqp = EmptyString) then (false, m_cache)
  else cache_remove fqp physically m_cache.

(** bool deletePath(descriptor, path) *)
Definition deletePath (descriptor : FileSystemDescriptor) (path : string)
    (m_cache : C) : bool * C :=
  let fqp := constructLocalPath descriptor path in
  if bool_decide (fqp = EmptyString) then (false, m_cache)
  else cache_deletePath fqp m_cache.

End FileOperations.

(** *** CacheLayerRegistry::init (cache-layer-registry.cc:19-42)

    The registry object itself (its constructor, valid() and reload()) is
    declared in the header that is not at hand: it is a value of some type
    [I] with these three operations.  The static members instance_ and
    fileSeparator and the calls of managed_file::File::initialize() make up
    the process state. *)
Section Init.
Context {I : Type}.
(* new CacheLayerRegistry(mem_limit_percent, root, timeslice, size_hard_limit) *)
Variable new_CacheLayerRegistry : Z → string → Z → Z → I.
Variable valid_registry : I → bool.       (* valid() *)
Variable reload : I → I.                  (* reload() *)
(* boost::filesystem::path("/").make_preferred().native() *)
Variable preferredSlash : string.

Record process := mkProcess {
  instance_ : option I;            (* boost::scoped_ptr<CacheLayerRegistry> *)
  fileSeparator : string;
  File_initialize_calls : nat      (* how often File::initialize() has run *)
}.

Definition init (mem_limit_percent : Z) (root : string) (timeslice size_hard_limit : Z)
    (p : process) : bool * process :=
  (* configure platform-specific file separator: *)
  let fileSeparator := preferredSlash in
  let instance :=
    match instance_ p with
    | None => new_CacheLayerRegistry mem_limit_percent root timeslice size_hard_limit
    | Some i => i
    end in
  if negb (valid_registry instance) then
    (false, {| instance_ := Some instance; fileSeparator := fileSeparator;
               File_initialize_calls := File_initialize_calls p |})
  else
    (* Initialize File class, reload the cache *)
    (true, {| instance_ := Some (reload instance); fileSeparator := fileSeparator;
              File_initialize_calls := S (File_initialize_calls p) |}).

End Init.

(** ** A steady environment

    An environment without state, for worked examples that need the same
    answer every time: connect gives bridge 7, open gives handle 11, malloc
    gives buffer 99, every read gives 1 byte, everything else 0. *)
Module Steady.

Definition respond (R : Type) (c : ext_call R) (w : unit) : R * unit :=
  match c in ext_call R return R * unit with
  | DfsBuilderConnect _ => (7%Z, w)
  | DfsGetDefaultFsHostPortType _ p t => ((1%Z, "ignored", p, t), w)
  | DfsOpenFile _ _ _ _ _ _ => (11%Z, w)
  | DfsRead _ _ _ _ => (1%Z, w)
  | Malloc _ => (99%Z, w)
  | Free _ => (tt, w)
  | DfsListDirectory _ _ => ((0%Z, 0%Z), w)
  | _ => (0%Z, w)
  end.

Definition boot (st : list dfsConnection) (pool : list nat) : machine unit :=
  {| world := tt; calls := []; store := st;
     this := {| class_of := TachyonBound;
                m_fsDescriptor := mkFileSystemDescriptor tachyon "master" 19998
                                    EmptyString EmptyString true;
                m_connections := pool; m_mux := false |};
     accesses := [] |}.

End Steady.

(** The endpoint of [Scripted.namenode] with another port and credentials. *)
Definition other_port : FileSystemDescriptor :=
  mkFileSystemDescriptor hdfs "nn1" 9000 "user" "secret" true.

(** ** The native call behind a pass-through operation *)

(** A call of the native binding together with what a wrapper makes of its
    answer. *)
Record native_form (R : Type) := mkNative {
  native_type : Type;
  native_call : ext_call native_type;
  native_result : native_type → R
}.
Arguments mkNative {R native_type} native_call native_result.
Arguments native_type {R} n.
Arguments native_call {R} n.
Arguments native_result {R} n r.

(** The native binding call that corresponds to each pass-through operation:
    the binding function of the same purpose (fileOpen and _dfsOpenFile,
    fileSeek and _dfsSeek, pathDelete and _dfsDelete, fileInfo and
    _dfsGetPathInfo, ...), on the native connection [b] finds behind each
    lease and with the operation's own arguments in their order.  The
    operation's result is the answer of that call as it is; pathExists alone
    turns the answer into whether it is zero. *)
Definition corresponding_call {R} (op : passthrough R) (b : raiiDfsConnection → fsBridge)
    : native_form R :=
  match op in passthrough R0 return native_form R0 with
  | FileOpen conn path flags bufferSize replication blocksize =>
      mkNative (DfsOpenFile (b conn) path flags bufferSize replication blocksize) id
  | FileClose conn file => mkNative (DfsCloseFile (b conn) file) id
  | FileTell conn file => mkNative (DfsTell (b conn) file) id
  | FileSeek conn file desiredPos => mkNative (DfsSeek (b conn) file desiredPos) id
  | FileRead conn file buffer length => mkNative (DfsRead (b conn) file buffer length) id
  | FilePread conn file position buffer length =>
      mkNative (DfsPread (b conn) file position buffer length) id
  | FileWrite conn file buffer length => mkNative (DfsWrite (b conn) file buffer length) id
  | FileFlush conn file => mkNative (DfsFlush (b conn) file) id
  | FileRename conn oldPath newPath => mkNative (DfsRename (b conn) oldPath newPath) id
  | PathDelete conn path recursive => mkNative (DfsDelete (b conn) path recursive) id
  | FileInfo conn path => mkNative (DfsGetPathInfo (b conn) path) id
  | ListDirectory conn path => mkNative (DfsListDirectory (b conn) path) id
  | CreateDirectory conn path => mkNative (DfsCreateDirectory (b conn) path) id
  | PathExists conn path => mkNative (DfsPathExists (b conn) path) (λ r, (r =? 0)%Z)
  | FileCopy conn_src src conn_dest dst =>
      mkNative (DfsCopy (b conn_src) src (b conn_dest) dst) id
  | FsMove conn_src src conn_dest dst =>
      mkNative (DfsMove (b conn_src) src (b conn_dest) dst) id
  | GetDefaultBlockSize conn => mkNative (DfsGetDefaultBlockSize (b conn)) id
  | FileAvailable conn file => mkNative (DfsAvailable (b conn) file) id
  | FsSetReplication conn path replication =>
      mkNative (DfsSetReplication (b conn) path replication) id
  | FsGetCapacity conn => mkNative (DfsGetCapacity (b conn)) id
  | FsGetUsed conn => mkNative (DfsGetUsed (b conn)) id
  | FsChown conn path owner group => mkNative (DfsChown (b conn) path owner group) id
  | FsChmod conn path mode => mkNative (DfsChmod (b conn) path mode) id
  end.

(** The native connection behind a lease in a machine, NULL when the lease
    holds no connection object. *)
Definition bridge {W} (m : machine W) (conn : raiiDfsConnection) : fsBridge :=
  default NULL (lease_bridge m conn).

(** * Properties *)

(** ** The registry *)

Section RegistryFacts.
Context {W : Type}.
Variable respond : ∀ R : Type, ext_call R → W → R * W.
Variable DEFAULT_FS : string.

Lemma registry_eta (reg : CacheLayerRegistry) :
  {| adapters := adapters reg; m_filesystems := m_filesystems reg;
     m_createFromSelect := m_createFromSelect reg |} = reg.
Proof. by destruct reg. Qed.

Lemma subscript_present {K V} `{Countable K} (dflt v : V) (m : gmap K V) (k : K) :
  m !! k = Some v → subscript dflt m k = (v, m).
Proof. intros E. unfold subscript. by rewrite E. Qed.

Lemma subscript_lookup {K V} `{Countable K} (dflt : V) (m : gmap K V) (k : K) :
  (subscript dflt m k).2 !! k = Some (subscript dflt m k).1.
Proof.
  unfold subscript. destruct (m !! k) eqn:E; simpl; [done|].
  apply lookup_insert_eq.
Qed.

Lemma subscript_value {K V} `{Countable K} (dflt : V) (m : gmap K V) (k : K) :
  (subscript dflt m k).1 = default dflt (m !! k).
Proof. unfold subscript. by destruct (m !! k). Qed.

(** The two phases of setupFileSystem: resolution when asked for, then the
    directory. *)
Lemma setupFileSystem_phases (d : FileSystemDescriptor) (w : W) (reg : CacheLayerRegistry) :
  setupFileSystem respond DEFAULT_FS d w reg =
    let '(status, d1, w1) :=
      if bool_decide (host d = DEFAULT_FS) then resolveFsAddress respond d w
      else (0%Z, d, w) in
    if (status =? 0)%Z then (OK, d1, w1, with_adapter d1 reg)
    else (DFS_ADAPTOR_IS_NOT_CONFIGURED, d1, w1, reg).
Proof.
  unfold setupFileSystem.
  destruct (if bool_decide (host d = DEFAULT_FS) then _ else _) as [[status d1] w1].
  destruct (status =? 0)%Z; [|done]. cbn [negb].
  destruct (subscript ∅ (m_filesystems reg) (dfs_type d1)) as [by_host fss] eqn:Es.
  pose proof (subscript_value ∅ (m_filesystems reg) (dfs_type d1)) as Hv.
  pose proof (subscript_lookup ∅ (m_filesystems reg) (dfs_type d1)) as Hl.
  rewrite Es in Hv, Hl. simpl in Hv, Hl. subst by_host.
  unfold with_adapter. cbv zeta.
  destruct (default ∅ (m_filesystems reg !! dfs_type d1) !! host d1) as [a|] eqn:Ea.
  - rewrite bool_decide_eq_true_2 by eauto.
    assert (fss = m_filesystems reg) as ->.
    { unfold subscript in Es.
      destruct (m_filesystems reg !! dfs_type d1) eqn:E; [congruence|].
      simpl in Ea. by rewrite lookup_empty in Ea. }
    by rewrite registry_eta.
  - rewrite bool_decide_eq_false_2 by (intros [? ?]; congruence).
    rewrite (subscript_present _ _ _ _ Hl).
    do 2 f_equal.
    + by destruct (bool_decide (dfs_type d1 = tachyon)).
    + unfold subscript in Es.
      destruct (m_filesystems reg !! dfs_type d1) eqn:E; [congruence|].
      inversion Es; subst. by rewrite insert_insert_eq.
Qed.

(** With a concrete host no resolution takes place. *)
Lemma setupFileSystem_concrete (d : FileSystemDescriptor) (w : W) (reg : CacheLayerRegistry) :
  host d ≠ DEFAULT_FS →
  setupFileSystem respond DEFAULT_FS d w reg = (OK, d, w, with_adapter d reg).
Proof.
  intros Hh. rewrite setupFileSystem_phases.
  by rewrite bool_decide_eq_false_2 by done.
Qed.

Lemma getFileSystemDescriptor_with_adapter (d : FileSystemDescriptor) (reg : CacheLayerRegistry) :
  getFileSystemDescriptor (with_adapter d reg) d =
    Some (default (length (adapters reg)) (getFileSystemDescriptor reg d)).
Proof.
  unfold with_adapter, getFileSystemDescriptor. cbv zeta.
  destruct (m_filesystems reg !! dfs_type d) as [by_host|] eqn:E; simpl.
  - destruct (by_host !! host d) eqn:E2; simpl.
    + by rewrite E, E2.
    + rewrite lookup_insert_eq. by rewrite lookup_insert_eq.
  - rewrite lookup_empty. simpl. rewrite lookup_insert_eq. by rewrite lookup_insert_eq.
Qed.

Lemma getFileSystemDescriptor_default (reg : CacheLayerRegistry) (d : FileSystemDescriptor) :
  getFileSystemDescriptor reg d = default ∅ (m_filesystems reg !! dfs_type d) !! host d.
Proof.
  unfold getFileSystemDescriptor.
  destruct (m_filesystems reg !! dfs_type d); [done|]. simpl. by rewrite lookup_empty.
Qed.

(** C5: with a concrete host, setupFileSystem answers OK and leaves the
    descriptor and the environment alone; afterwards an adapter is registered
    for (type, host): the one that was there, or else a new object, of class
    TachyonFileSystemDescriptorBound exactly when the type is tachyon, and
    other endpoints keep what they had; any number of further identical
    calls answer OK and leave the registry as it is, so the lookup keeps
    returning the same adapter object. *)
Theorem setupFileSystem_singleton (d : FileSystemDescriptor) (w : W)
    (reg : CacheLayerRegistry) :
  host d ≠ DEFAULT_FS →
  ∃ reg1 a,
    setupFileSystem respond DEFAULT_FS d w reg = (OK, d, w, reg1) ∧
    getFileSystemDescriptor reg1 d = Some a ∧
    (getFileSystemDescriptor reg d = Some a ∧ reg1 = reg
     ∨ getFileSystemDescriptor reg d = None ∧ a = length (adapters reg) ∧
       adapters reg1 = adapters reg ++
         [new_FileSystemDescriptorBound
            (if bool_decide (dfs_type d = tachyon) then TachyonBound else PlainBound) d]) ∧
    (∀ d', (dfs_type d', host d') ≠ (dfs_type d, host d) →
           getFileSystemDescriptor reg1 d' = getFileSystemDescriptor reg d') ∧
    (∀ n, Nat.iter n (λ r, (setupFileSystem respond DEFAULT_FS d w r).2) reg1 = reg1) ∧
    setupFileSystem respond DEFAULT_FS d w reg1 = (OK, d, w, reg1).
Proof.
  intros Hh.
  assert (∀ r a, getFileSystemDescriptor r d = Some a →
                 setupFileSystem respond DEFAULT_FS d w r = (OK, d, w, r)) as Hstable.
  { intros r a Ha. rewrite setupFileSystem_concrete by done.
    rewrite getFileSystemDescriptor_default in Ha. unfold with_adapter. cbv zeta.
    by rewrite Ha. }
  assert (∀ r a n, getFileSystemDescriptor r d = Some a →
                   Nat.iter n (λ r, (setupFileSystem respond DEFAULT_FS d w r).2) r = r) as Hiter.
  { intros r a n Ha. induction n as [|n IH]; [done|]. simpl. rewrite IH.
    by rewrite (Hstable r a Ha). }
  destruct (getFileSystemDescriptor reg d) as [a|] eqn:Eg.
  - exists reg, a. rewrite (Hstable reg a Eg).
    split; [done|]. split; [done|]. split; [by left|].
    split; [done|]. split; [|done]. intros n. by apply (Hiter reg a).
  - exists (with_adapter d reg), (length (adapters reg)).
    split; [by apply setupFileSystem_concrete|].
    assert (getFileSystemDescriptor (with_adapter d reg) d = Some (length (adapters reg)))
      as Hg1 by (by rewrite getFileSystemDescriptor_with_adapter, Eg).
    split; [done|].
    pose proof Eg as Eg'. rewrite getFileSystemDescriptor_default in Eg'.
    split.
    { right. split; [done|]. split; [done|]. unfold with_adapter. cbv zeta. by rewrite Eg'. }
    split; [|split; [intros n; by apply (Hiter _ _ n Hg1) | by apply (Hstable _ _ Hg1)]].
    intros d' Hne. unfold with_adapter. cbv zeta. rewrite Eg'.
    unfold getFileSystemDescriptor at 1. simpl.
    destruct (decide (dfs_type d = dfs_type d')) as [Et|Et].
    + rewrite Et, lookup_insert_eq.
      assert (host d ≠ host d') by congruence.
      rewrite lookup_insert_ne by done.
      by rewrite <- Et, getFileSystemDescriptor_default, Et.
    + by rewrite lookup_insert_ne.
Qed.

(** C6: registering a pairing for an unpaired local key answers true and
    inserts it; registering the same key again answers false and changes
    nothing, so the key still maps to the first remote; unregistering answers
    true exactly when the key was paired, and removes the pairing; after
    that the lookup reports that no pairing exists. *)
Theorem createFromSelect_pairing (L R1 R2 : Z) (reg : CacheLayerRegistry) :
  m_createFromSelect reg !! L = None →
  ∃ reg1,
    registerCreateFromSelectScenario L R1 reg = (true, reg1) ∧
    m_createFromSelect reg1 = <[L := R1]> (m_createFromSelect reg) ∧
    registerCreateFromSelectScenario L R2 reg1 = (false, reg1) ∧
    getCreateFromSelectScenario L reg1 = (R1, true) ∧
    (∀ r, (unregisterCreateFromSelectScenario L r).1 = true
          ↔ is_Some (m_createFromSelect r !! L)) ∧
    (∀ r, m_createFromSelect (unregisterCreateFromSelectScenario L r).2
          = delete L (m_createFromSelect r)) ∧
    (∀ r, getCreateFromSelectScenario L (unregisterCreateFromSelectScenario L r).2
          = (NULL, false)) ∧
    unregisterCreateFromSelectScenario L reg1 = (true, reg).
Proof.
  intros Hfresh.
  exists (set_createFromSelect (<[L := R1]> (m_createFromSelect reg)) reg).
  split; [unfold registerCreateFromSelectScenario; by rewrite Hfresh|].
  split; [reflexivity|].
  split.
  { unfold registerCreateFromSelectScenario. simpl. by rewrite lookup_insert_eq. }
  split.
  { unfold getCreateFromSelectScenario. simpl. by rewrite lookup_insert_eq. }
  split.
  { intros r. unfold unregisterCreateFromSelectScenario. simpl.
    destruct (m_createFromSelect r !! L) eqn:E.
    - rewrite bool_decide_eq_true_2 by done. split; eauto.
    - rewrite bool_decide_eq_false_2 by done. split; [done|]. by intros [? ?]. }
  split; [done|].
  split.
  { intros r. unfold getCreateFromSelectScenario, unregisterCreateFromSelectScenario.
    simpl. by rewrite lookup_delete_eq. }
  unfold unregisterCreateFromSelectScenario. simpl. rewrite lookup_insert_eq.
  rewrite bool_decide_eq_true_2 by done. f_equal.
  unfold set_createFromSelect. simpl.
  rewrite delete_insert_id by done. apply registry_eta.
Qed.

(** What the resolver is asked when the descriptor is [d]. *)
Lemma resolveFsAddress_spec (d : FileSystemDescriptor) (w : W) :
  ∃ bld status h p t w',
    respond _ (DfsGetDefaultFsHostPortType bld (port d) (dfs_type d)) w
      = (status, h, p, t, w') ∧
    resolveFsAddress respond d w =
      (status,
       (if (status =? 0)%Z
        then mkFileSystemDescriptor t h (Z.max 0 p) (credentials d) (password d) (valid d)
        else mkFileSystemDescriptor t (host d) p (credentials d) (password d) (valid d)),
       w').
Proof.
  unfold resolveFsAddress.
  match goal with |- context [respond _ ?c w] =>
    destruct (respond _ c w) as [[[[status h] p] t] w'] eqn:E end.
  do 6 eexists. split; [exact E|]. simpl.
  destruct (status =? 0)%Z; [|done].
  do 2 f_equal. destruct (Z.ltb_spec p 0); f_equal; lia.
Qed.

(** C7: when the descriptor's host is the resolution sentinel,
    setupFileSystem runs resolveFsAddress first.  A nonzero status makes it
    answer DFS_ADAPTOR_IS_NOT_CONFIGURED with the registry untouched.  With
    status zero the descriptor handed back carries the host and the type the
    resolver gave and the resolver's port with a negative value replaced by
    zero, and it is under this descriptor that the adapter is looked up and,
    if missing, created. *)
Theorem setupFileSystem_resolution (d : FileSystemDescriptor) (w : W)
    (reg : CacheLayerRegistry) :
  host d = DEFAULT_FS →
  ∃ bld status h p t w',
    respond _ (DfsGetDefaultFsHostPortType bld (port d) (dfs_type d)) w
      = (status, h, p, t, w') ∧
    (status ≠ 0%Z →
       ∃ d', setupFileSystem respond DEFAULT_FS d w reg
             = (DFS_ADAPTOR_IS_NOT_CONFIGURED, d', w', reg)) ∧
    (status = 0%Z →
       ∃ d' reg1,
         setupFileSystem respond DEFAULT_FS d w reg = (OK, d', w', reg1) ∧
         host d' = h ∧ dfs_type d' = t ∧ port d' = Z.max 0 p ∧ (0 ≤ port d')%Z ∧
         reg1 = with_adapter d' reg ∧
         is_Some (getFileSystemDescriptor reg1 d') ∧
         (getFileSystemDescriptor reg d' = None →
            adapters reg1 = adapters reg ++
              [new_FileSystemDescriptorBound
                 (if bool_decide (dfs_type d' = tachyon) then TachyonBound else PlainBound)
                 d'])).
Proof.
  intros Hh.
  destruct (resolveFsAddress_spec d w) as (bld & status & h & p & t & w' & Hq & Hr).
  exists bld, status, h, p, t, w'. split; [exact Hq|].
  rewrite setupFileSystem_phases, bool_decide_eq_true_2, Hr by done.
  split.
  - intros Hs. apply Z.eqb_neq in Hs. rewrite Hs. eauto.
  - intros ->. simpl. do 2 eexists. split; [reflexivity|]. simpl.
    split; [done|]. split; [done|]. split; [done|]. split; [lia|]. split; [done|].
    split.
    + rewrite getFileSystemDescriptor_with_adapter. eauto.
    + intros Hnone. rewrite getFileSystemDescriptor_default in Hnone.
      unfold with_adapter. cbv zeta. by rewrite Hnone.
Qed.
End RegistryFacts.

(** ** The adapter *)

Section AdapterFacts.
Context {W : Type}.
Variable respond : ∀ R : Type, ext_call R → W → R * W.

Lemma bridge_of_valid (m : machine W) (conn : raiiDfsConnection) (fs : fsBridge) :
  lease_bridge m conn = Some fs → bridge_of conn m = Returns fs m.
Proof.
  unfold lease_bridge, bridge_of, bind, deref. destruct conn as [a|]; [|done].
  destruct (store m !! a); simpl; [|done]. by intros [= ->].
Qed.

Lemma bridge_of_invalid (m : machine W) (conn : raiiDfsConnection) :
  lease_bridge m conn = None → bridge_of conn m = BadDeref m.
Proof.
  unfold lease_bridge, bridge_of, bind, deref. destruct conn as [a|]; [|done].
  by destruct (store m !! a).
Qed.

Lemma bind_Returns {A B} (c : M W A) (k : A → M W B) (m m' : machine W) (a : A) :
  c m = Returns a m' → bind c k m = k a m'.
Proof. unfold bind. by intros ->. Qed.

Lemma bind_BadDeref {A B} (c : M W A) (k : A → M W B) (m m' : machine W) :
  c m = BadDeref m' → bind c k m = BadDeref m'.
Proof. unfold bind. by intros ->. Qed.

Lemma call_Returns {R} (c : ext_call R) (m : machine W) :
  call respond c m = Returns (answer respond c m) (after_call respond c m).
Proof. unfold call, after_call, answer. by destruct (respond R c (world m)). Qed.

Ltac unfold_passthrough :=
  unfold invoke, fileOpen, fileClose, fileTell, fileSeek, fileRead, filePread,
    fileWrite, fileFlush, fileRename, pathDelete, fileInfo, listDirectory,
    createDirectory, pathExists, fileCopy, fsMove, getDefaultBlockSize,
    fileAvailable, fsSetReplication, fsGetCapacity, fsGetUsed, fsChown, fsChmod.

Lemma passthrough_invalid_lease {R} (op : passthrough R) (m : machine W)
    (conn : raiiDfsConnection) :
  conn ∈ leases op → lease_bridge m conn = None → invoke respond op m = BadDeref m.
Proof.
  intros Hin Hb.
  destruct op; cbn [leases] in Hin; unfold_passthrough;
    repeat (apply elem_of_cons in Hin as [->|Hin]);
    try (by apply elem_of_nil in Hin);
    try (by apply bind_BadDeref, bridge_of_invalid).
  all: destruct (lease_bridge m conn_src) as [fs1|] eqn:E1;
    [ rewrite (bind_Returns _ _ _ _ _ (bridge_of_valid _ _ _ E1));
      by apply bind_BadDeref, bridge_of_invalid
    | by apply bind_BadDeref, bridge_of_invalid ].
Qed.

(** The call that corresponds to an operation is a call of the native
    binding, made on the native connections of the operation's leases. *)
Lemma corresponding_call_bridges {R} (op : passthrough R)
    (b : raiiDfsConnection → fsBridge) :
  is_native (Ext (native_call (corresponding_call op b))) = true ∧
  bridges (Ext (native_call (corresponding_call op b))) = b <$> leases op.
Proof. by destruct op. Qed.

(** With a connection behind every lease, an operation is its corresponding
    native call: it returns what that call answers and leaves the machine as
    that call leaves it. *)
Lemma passthrough_forwards {R} (op : passthrough R) (m : machine W) :
  (∀ conn, conn ∈ leases op → is_Some (lease_bridge m conn)) →
  invoke respond op m =
    Returns (native_result (corresponding_call op (bridge m))
               (answer respond (native_call (corresponding_call op (bridge m))) m))
            (after_call respond (native_call (corresponding_call op (bridge m))) m).
Proof.
  intros Hall.
  destruct op; cbn [leases] in Hall; unfold_passthrough;
    cbn [corresponding_call native_call native_result].
  all: repeat match goal with
       | |- context [bridge_of ?c] =>
           let fs := fresh "fs" in
           let E := fresh "E" in
           destruct (Hall c) as [fs E];
           [ repeat first [by apply list_elem_of_here | apply list_elem_of_further] |];
           rewrite (bind_Returns _ _ _ _ _ (bridge_of_valid _ _ _ E));
           replace (bridge m c) with fs by (unfold bridge; by rewrite E);
           cbv beta
       end.
  all: try (rewrite (bind_Returns _ _ _ _ _ (call_Returns _ _)); unfold ret).
  all: try rewrite call_Returns.
  all: reflexivity.
Qed.

Lemma mapM_lease_bridge (m : machine W) (l : list raiiDfsConnection)
    (hs : list fsBridge) :
  mapM (lease_bridge m) l = Some hs →
  (∀ conn, conn ∈ l → is_Some (lease_bridge m conn)) ∧ bridge m <$> l = hs.
Proof.
  intros H%mapM_Some_1.
  induction H as [|x y l k Hxy _ [IH1 IH2]].
  - split; [|done]. by intros conn Hin%elem_of_nil.
  - split.
    + intros conn [->|Hin]%elem_of_cons; [by rewrite Hxy|by apply IH1].
    + cbn [fmap list_fmap]. unfold bridge at 1. rewrite Hxy. cbn [default].
      f_equal. exact IH2.
Qed.

(** *** The priming read *)

Lemma after_calls_S {R} (c : ext_call R) (k : nat) (m : machine W) :
  after_calls respond c k (after_call respond c m) = after_calls respond c (S k) m.
Proof. unfold after_calls. by rewrite Nat.iter_succ_r. Qed.

Lemma after_calls_frame {R} (c : ext_call R) (k : nat) (m : machine W) :
  store (after_calls respond c k m) = store m ∧
  this (after_calls respond c k m) = this m ∧
  accesses (after_calls respond c k m) = accesses m ∧
  calls (after_calls respond c k m) = calls m ++ replicate k (Ext c).
Proof.
  induction k as [|k (IH1 & IH2 & IH3 & IH4)].
  - simpl. by rewrite app_nil_r.
  - rewrite replicate_S_end. unfold after_calls in *. simpl.
    split_and!; try done. rewrite IH4. by rewrite <- app_assoc.
Qed.

Lemma lease_bridge_store (m m' : machine W) (conn : raiiDfsConnection) :
  store m' = store m → lease_bridge m' conn = lease_bridge m conn.
Proof. unfold lease_bridge. by intros ->. Qed.

Lemma reader_loop_ends (conn : raiiDfsConnection) (handle : dfsFile) (buffer : pointer)
    (fs : fsBridge) (n : nat) :
  ∀ (fuel : nat) (m : machine W) (last_read bytes : Z),
    lease_bridge m conn = Some fs →
    n ≤ fuel →
    let c := DfsRead fs handle buffer BUFFER_SIZE in
    (∀ k, k < n → (0 < match k with O => last_read
                               | S j => answer respond c (after_calls respond c j m) end)%Z) →
    (match n with O => last_read
             | S j => answer respond c (after_calls respond c j m) end ≤ 0)%Z →
    ∃ bytes',
      reader_loop respond fuel conn handle buffer last_read bytes m =
        Returns (match n with O => last_read
                         | S j => answer respond c (after_calls respond c j m) end, bytes')
                (after_calls respond c n m).
Proof.
  induction n as [|n IH]; intros fuel m last_read bytes Hv Hfuel c Hpos Hend.
  - exists bytes. destruct fuel; simpl;
      by rewrite (proj2 (Z.ltb_ge 0 last_read)) by lia.
  - destruct fuel as [|fuel]; [lia|].
    assert (0 < last_read)%Z as Hlast by (apply (Hpos 0); lia).
    simpl. rewrite (proj2 (Z.ltb_lt 0 last_read)) by lia.
    rewrite (bind_Returns _ _ _ _ _ (bridge_of_valid _ _ _ Hv)).
    rewrite (bind_Returns _ _ _ _ _ (call_Returns _ _)).
    fold c.
    destruct (IH fuel (after_call respond c m) (answer respond c m)
                 (wrap32 (bytes + last_read))) as [bytes' Hl].
    + by rewrite (lease_bridge_store m).
    + lia.
    + intros [|k] Hk.
      * apply (Hpos 1). lia.
      * rewrite after_calls_S. apply (Hpos (S (S k))). lia.
    + destruct n as [|n]; [exact Hend|]. by rewrite after_calls_S.
    + exists bytes'. rewrite Hl. fold c. rewrite after_calls_S. f_equal.
      destruct n as [|n]; [done|]. by rewrite after_calls_S.
Qed.

(** The reader lambda returns as soon as a read answers 0 or less: with the
    stream ending at read [n] and fuel for [n] iterations, it leaves that
    answer in last_read after exactly [n + 1] reads. *)
Lemma reader_ends (conn : raiiDfsConnection) (handle : dfsFile) (buffer : pointer)
    (fs : fsBridge) (n fuel : nat) (m : machine W) :
  lease_bridge m conn = Some fs →
  n ≤ fuel →
  let c := DfsRead fs handle buffer BUFFER_SIZE in
  ends_at respond c m n →
  ∃ bytes,
    reader respond fuel conn handle buffer m =
      Returns (answer respond c (after_calls respond c n m), bytes)
              (after_calls respond c (S n) m).
Proof.
  intros Hv Hfuel c [Hpos Hend]. unfold reader.
  rewrite (bind_Returns _ _ _ _ _ (bridge_of_valid _ _ _ Hv)).
  rewrite (bind_Returns _ _ _ _ _ (call_Returns _ _)). fold c.
  destruct (reader_loop_ends conn handle buffer fs n fuel (after_call respond c m)
              (answer respond c m) 0%Z) as [bytes Hl].
  - by rewrite (lease_bridge_store m).
  - done.
  - intros [|k] Hk; [apply (Hpos 0); lia|].
    rewrite after_calls_S. apply Hpos. lia.
  - destruct n as [|n]; [exact Hend|]. rewrite after_calls_S. exact Hend.
  - exists bytes. rewrite Hl. rewrite after_calls_S. f_equal.
    destruct n as [|n]; [done|]. by rewrite after_calls_S.
Qed.

(** *** TachyonFileSystemDescriptorBound::fileOpen, branch by branch *)

Section Priming.
Variables (conn : raiiDfsConnection) (path : string).
Variables (flags bufferSize replication blocksize : Z).
Variables (m : machine W) (fs : fsBridge).
Hypothesis lease_ok : lease_bridge m conn = Some fs.

Let c_open := DfsOpenFile fs path flags bufferSize replication blocksize.
Let handle := answer respond c_open m.
Let m1 := after_call respond c_open m.
Let c_malloc := Malloc (1 * BUFFER_SIZE).
Let buffer := answer respond c_malloc m1.
Let m2 := after_call respond c_malloc m1.
Let c_read := DfsRead fs handle buffer BUFFER_SIZE.
Let c_close := DfsCloseFile fs handle.

Lemma lease_ok_after (m' : machine W) :
  store m' = store m → bridge_of conn m' = Returns fs m'.
Proof using lease_ok.
  intros Hs. apply bridge_of_valid. by rewrite (lease_bridge_store m).
Qed.

Lemma Tachyon_fileOpen_base_failed (fuel : nat) :
  handle = NULL →
  Tachyon_fileOpen respond fuel conn path flags bufferSize replication blocksize m
    = Returns NULL m1.
Proof using lease_ok.
  intros Hh. unfold Tachyon_fileOpen.
  rewrite (bind_Returns _ _ _ _ _ (bridge_of_valid _ _ _ lease_ok)).
  rewrite (bind_Returns _ _ _ _ _ (call_Returns _ _)).
  fold c_open handle m1. by rewrite Hh.
Qed.

Lemma Tachyon_fileOpen_alloc_failed (fuel : nat) :
  handle ≠ NULL → flags ≠ O_WRONLY → buffer = NULL →
  Tachyon_fileOpen respond fuel conn path flags bufferSize replication blocksize m
    = Returns NULL (after_call respond c_close m2).
Proof using lease_ok.
  intros Hh Hf Hb. unfold Tachyon_fileOpen.
  rewrite (bind_Returns _ _ _ _ _ (bridge_of_valid _ _ _ lease_ok)).
  rewrite (bind_Returns _ _ _ _ _ (call_Returns _ _)).
  fold c_open handle m1.
  rewrite (proj2 (Z.eqb_neq handle NULL)), (proj2 (Z.eqb_neq flags O_WRONLY)) by done.
  rewrite (bind_Returns _ _ _ _ _ (call_Returns _ _)).
  fold c_malloc buffer m2. rewrite Hb. simpl (NULL =? NULL)%Z. cbv iota.
  rewrite (bind_Returns _ _ _ _ _ (lease_ok_after m2 eq_refl)).
  by rewrite (bind_Returns _ _ _ _ _ (call_Returns _ _)).
Qed.

(** The branches that run the reader. *)
Lemma Tachyon_fileOpen_read (fuel n : nat) :
  handle ≠ NULL → flags ≠ O_WRONLY → buffer ≠ NULL →
  ends_at respond c_read m2 n → n ≤ fuel →
  let last_read := answer respond c_read (after_calls respond c_read n m2) in
  let m3 := after_calls respond c_read (S n) m2 in
  let m4 := after_call respond (Free buffer) m3 in
  let m5 := after_call respond c_close m4 in
  Tachyon_fileOpen respond fuel conn path flags bufferSize replication blocksize m =
    if (last_read =? 0)%Z then
      if (answer respond c_close m4 =? 0)%Z
      then Returns (answer respond c_open m5) (after_call respond c_open m5)
      else Returns NULL m5
    else Returns NULL m3.
Proof using lease_ok.
  intros Hh Hf Hb Hends Hfuel last_read m3 m4 m5. unfold Tachyon_fileOpen.
  rewrite (bind_Returns _ _ _ _ _ (bridge_of_valid _ _ _ lease_ok)).
  rewrite (bind_Returns _ _ _ _ _ (call_Returns _ _)).
  fold c_open handle m1.
  rewrite (proj2 (Z.eqb_neq handle NULL)), (proj2 (Z.eqb_neq flags O_WRONLY)) by done.
  rewrite (bind_Returns _ _ _ _ _ (call_Returns _ _)).
  fold c_malloc buffer m2.
  rewrite (proj2 (Z.eqb_neq buffer NULL)) by done.
  destruct (reader_ends conn handle buffer fs n fuel m2) as [bytes Hr]; [|done|done|].
  { by rewrite (lease_bridge_store m). }
  rewrite (bind_Returns _ _ _ _ _ Hr). cbn [fst].
  fold c_read last_read m3.
  assert (store m3 = store m) as Hs3
    by exact (proj1 (after_calls_frame c_read (S n) m2)).
  destruct (last_read =? 0)%Z; [|done].
  rewrite (bind_Returns _ _ _ _ _ (call_Returns _ _)). fold m4.
  rewrite (bind_Returns _ _ _ _ _ (lease_ok_after m4 Hs3)).
  rewrite (bind_Returns _ _ _ _ _ (call_Returns _ _)). fold c_close m5.
  destruct (answer respond c_close m4 =? 0)%Z; cbn [negb]; [|done].
  rewrite (bind_Returns _ _ _ _ _ (lease_ok_after m5 Hs3)).
  by rewrite call_Returns.
Qed.
End Priming.

(** With flags equal to O_WRONLY the override is the base fileOpen. *)
Lemma Tachyon_fileOpen_O_WRONLY (fuel : nat) (conn : raiiDfsConnection) (path : string)
    (bufferSize replication blocksize : Z) (m : machine W) :
  Tachyon_fileOpen respond fuel conn path O_WRONLY bufferSize replication blocksize m
    = fileOpen respond conn path O_WRONLY bufferSize replication blocksize m.
Proof.
  unfold Tachyon_fileOpen, fileOpen, bind.
  destruct (bridge_of conn m) as [fs m'| |]; [|done|done].
  rewrite call_Returns. simpl (O_WRONLY =? O_WRONLY)%Z.
  destruct (answer respond _ m' =? NULL)%Z; done.
Qed.

(** *** getFreeConnection, case by case *)

Lemma find_first_Some (pred : dfsConnection → bool) (st : list dfsConnection)
    (l : list nat) (p : nat) :
  find_first pred st l = Some p ↔ first_with pred st l p.
Proof.
  split.
  - induction l as [|q l IH]; [done|]. simpl.
    destruct (st !! q) as [c|] eqn:Eq; [destruct (pred c) eqn:Ep|].
    + intros [= ->]. exists [], l, c. split_and!; try done.
      intros ? ? Hin. by apply elem_of_nil in Hin.
    + intros (l1 & l2 & c' & -> & ? & ? & Hl1)%IH.
      exists (q :: l1), l2, c'. split_and!; try done.
      intros q' c'' [->|Hin]%elem_of_cons Hq'; [congruence|eauto].
    + intros (l1 & l2 & c' & -> & ? & ? & Hl1)%IH.
      exists (q :: l1), l2, c'. split_and!; try done.
      intros q' c'' [->|Hin]%elem_of_cons Hq'; [congruence|eauto].
  - intros (l1 & l2 & c & -> & Hc & Hp & Hl1).
    induction l1 as [|q l1 IH]; simpl.
    + by rewrite Hc, Hp.
    + destruct (st !! q) as [c'|] eqn:Eq.
      * rewrite (Hl1 q c') by (done || by left).
        apply IH. intros ? ? ?. apply Hl1. by right.
      * apply IH. intros ? ? ?. apply Hl1. by right.
Qed.

Lemma find_first_None (pred : dfsConnection → bool) (st : list dfsConnection)
    (l : list nat) :
  find_first pred st l = None ↔ none_with pred st l.
Proof.
  unfold none_with. induction l as [|q l IH]; simpl.
  - split; [|done]. intros _ ? ? Hin. by apply elem_of_nil in Hin.
  - destruct (st !! q) as [c|] eqn:Eq; [destruct (pred c) eqn:Ep|].
    + split; [done|]. intros H. rewrite (H q c) in Ep; [done|by left|done].
    + rewrite IH. split.
      * intros H q' c' [->|Hin]%elem_of_cons Hq'; [congruence|eauto].
      * intros H q' c' Hin. apply H. by right.
    + rewrite IH. split.
      * intros H q' c' [->|Hin]%elem_of_cons Hq'; [congruence|eauto].
      * intros H q' c' Hin. apply H. by right.
Qed.

(** Once a FreeReady object has been appended to the store and its address
    to a pool without FreeReady connections, the scan finds that address. *)
Lemma find_first_appended (st : list dfsConnection) (l : list nat) (c : dfsConnection) :
  find_first freeConnectionPredicate st l = None →
  freeConnectionPredicate c = true →
  find_first freeConnectionPredicate (st ++ [c]) (l ++ [length st]) = Some (length st).
Proof.
  intros Hnone Hc. induction l as [|q l IH]; simpl.
  - rewrite lookup_app_r by lia. rewrite Nat.sub_diag. simpl. by rewrite Hc.
  - simpl in Hnone. destruct (decide (q < length st)) as [Hlt|Hge].
    + rewrite lookup_app_l by done.
      destruct (st !! q) as [c'|] eqn:Eq.
      * destruct (freeConnectionPredicate c'); [done|]. by apply IH.
      * by apply IH.
    + rewrite (lookup_ge_None_2 st q) in Hnone by lia.
      destruct (decide (q = length st)) as [->|Hne].
      * rewrite lookup_app_r by lia. rewrite Nat.sub_diag. simpl. by rewrite Hc.
      * rewrite lookup_ge_None_2 by (rewrite length_app; simpl; lia). by apply IH.
Qed.

Lemma bind_assoc {A B C} (c : M W A) (f : A → M W B) (g : B → M W C) (m : machine W) :
  bind (bind c f) g m = bind c (λ a, bind (f a) g) m.
Proof. unfold bind. by destruct (c m). Qed.

Lemma ret_Returns {A} (a : A) (m : machine W) : ret a m = Returns a m.
Proof. done. Qed.

Lemma find_if_Returns (pred : dfsConnection → bool) (m : machine W) :
  find_if pred m =
    Returns (find_first pred (store m) (m_connections (this m))) (note ScanStates m).
Proof. done. Qed.

Lemma set_state_Returns (p : nat) (s : ConnectionState) (c : dfsConnection) (m : machine W) :
  store m !! p = Some c →
  set_state p s m =
    Returns tt (set_store (<[p := {| connection := connection c; state := s |}]> (store m))
                          (note (WriteState p s) m)).
Proof. intros Hc. unfold set_state, bind, log_access, deref. simpl. by rewrite Hc. Qed.

Lemma set_connection_Returns (p : nat) (h : fsBridge) (c : dfsConnection) (m : machine W) :
  store m !! p = Some c →
  set_connection p h m =
    Returns tt (set_store (<[p := {| connection := h; state := state c |}]> (store m))
                          (note (WriteHandle p h) m)).
Proof. intros Hc. unfold set_connection, bind, log_access, deref. simpl. by rewrite Hc. Qed.

Lemma new_dfsConnection_Returns (m : machine W) :
  new_dfsConnection m =
    Returns (length (store m))
      (set_store (store m ++ [{| connection := NULL; state := NON_INITIALIZED |}])
                 (note (WriteState (length (store m)) NON_INITIALIZED) m)).
Proof. done. Qed.

Lemma push_back_Returns (p : nat) (m : machine W) :
  push_back p m = Returns tt (set_pool (m_connections (this m) ++ [p]) (note (PushBack p) m)).
Proof. done. Qed.

Lemma connect_Returns (m : machine W) :
  connect respond m =
    let c := DfsBuilderConnect (connect_builder (m_fsDescriptor (this m))) in
    Returns (answer respond c m) (after_call respond c m).
Proof. unfold connect. by rewrite call_Returns. Qed.

Ltac step H :=
  rewrite ?bind_assoc; rewrite (bind_Returns _ _ _ _ _ H); cbv beta zeta.

(** Step 1: a FreeReady connection is there. *)
Lemma getFreeConnection_free (m : machine W) (fuel : nat) (p : nat) (c : dfsConnection) :
  find_first freeConnectionPredicate (store m) (m_connections (this m)) = Some p →
  store m !! p = Some c →
  getFreeConnection respond (S fuel) m =
    Returns (Some p)
      {| world := world m; calls := calls m;
         store := <[p := {| connection := connection c; state := BUSY_OK |}]> (store m);
         this := this m;
         accesses := accesses m ++ logged m [ScanStates; WriteState p BUSY_OK] |}.
Proof.
  intros Hf Hc. cbn [getFreeConnection].
  step (ret_Returns false m).
  step (find_if_Returns freeConnectionPredicate m). rewrite Hf. cbv iota.
  step (set_state_Returns p BUSY_OK c (note ScanStates m) Hc).
  unfold scoped_lock_destroy, bind, ret, set_store, note, logged. simpl.
  by rewrite <- !app_assoc.
Qed.

Section Acquire.
Variable m : machine W.
Let pool := m_connections (this m).
Let st := store m.
Let c_connect := DfsBuilderConnect (connect_builder (m_fsDescriptor (this m))).
Let conn := answer respond c_connect m.
Let w' := (respond _ c_connect (world m)).2.

(** Step 2: no FreeReady connection, but one that is neither FreeReady
    nor Busy. *)
Lemma getFreeConnection_repair (fuel : nat) (p : nat) (c : dfsConnection) :
  find_first freeConnectionPredicate st pool = None →
  find_first anyNonInitializedConnectionPredicate st pool = Some p →
  st !! p = Some c →
  getFreeConnection respond (S fuel) m =
    if (conn =? NULL)%Z then
      Returns None
        {| world := w'; calls := calls m ++ [Ext c_connect]; store := st;
           this := this m;
           accesses := accesses m ++ logged m [ScanStates; ScanStates] |}
    else
      Returns (Some p)
        {| world := w'; calls := calls m ++ [Ext c_connect];
           store := <[p := {| connection := conn; state := BUSY_OK |}]> st;
           this := this m;
           accesses := accesses m ++
             logged m [ScanStates; ScanStates; WriteHandle p conn; WriteState p BUSY_OK] |}.
Proof.
  intros Hf Hu Hc. subst pool st. cbn [getFreeConnection].
  step (ret_Returns false m).
  step (find_if_Returns freeConnectionPredicate m). rewrite Hf. cbv iota.
  step (find_if_Returns anyNonInitializedConnectionPredicate (note ScanStates m)).
  cbn [store this note]. rewrite Hu. cbv iota.
  step (connect_Returns (note ScanStates (note ScanStates m))).
  cbn [this note]. fold c_connect.
  change (answer respond c_connect (note ScanStates (note ScanStates m))) with conn.
  destruct (conn =? NULL)%Z eqn:En; cbn [negb].
  - step (ret_Returns (A:=option nat) None
            (after_call respond c_connect (note ScanStates (note ScanStates m)))).
    unfold scoped_lock_destroy, bind, ret, after_call, note, logged. simpl.
    by rewrite <- !app_assoc.
  - step (set_connection_Returns p conn c
            (after_call respond c_connect (note ScanStates (note ScanStates m))) Hc).
    set (mc := set_store _ _).
    assert (store mc !! p = Some {| connection := conn; state := state c |}) as Hmc.
    { unfold mc. cbn [store set_store note after_call].
      apply list_lookup_insert_eq. by eapply lookup_lt_Some. }
    step (set_state_Returns p BUSY_OK _ mc Hmc).
    unfold mc.
    unfold scoped_lock_destroy, bind, ret, after_call, set_store, note, logged. simpl.
    rewrite list_insert_insert_eq. by rewrite <- !app_assoc.
Qed.

(** Step 3: neither; a new connection is made. *)
Lemma getFreeConnection_grow (fuel : nat) :
  find_first freeConnectionPredicate st pool = None →
  find_first anyNonInitializedConnectionPredicate st pool = None →
  getFreeConnection respond (S (S fuel)) m =
    if (conn =? NULL)%Z then
      Returns None
        {| world := w'; calls := calls m ++ [Ext c_connect]; store := st;
           this := this m;
           accesses := accesses m ++
             logged m [ScanStates; ScanStates; WriteState (length st) NON_INITIALIZED] |}
    else
      Returns (Some (length st))
        {| world := w'; calls := calls m ++ [Ext c_connect];
           store := st ++ [{| connection := conn; state := BUSY_OK |}];
           this := {| class_of := class_of (this m);
                      m_fsDescriptor := m_fsDescriptor (this m);
                      m_connections := pool ++ [length st];
                      m_mux := m_mux (this m) |};
           accesses := accesses m ++
             logged m [ScanStates; ScanStates; WriteState (length st) NON_INITIALIZED;
                       WriteHandle (length st) conn;
                       WriteState (length st) FREE_INITIALIZED;
                       PushBack (length st); ScanStates;
                       WriteState (length st) BUSY_OK] |}.
Proof.
  intros Hf Hu. subst pool st.
  change (getFreeConnection respond (S (S fuel)) m) with
    ((let! lk := scoped_lock_default in
      let! r := (let! i1 := find_if freeConnectionPredicate in
                 match i1 with
                 | Some p => let! _ := set_state p BUSY_OK in ret (Some p)
                 | None =>
                   let! i2 := find_if anyNonInitializedConnectionPredicate in
                   match i2 with
                   | Some p =>
                       let! conn := connect respond in
                       if negb (conn =? NULL)%Z then
                         let! _ := set_connection p conn in
                         let! _ := set_state p BUSY_OK in
                         ret (Some p)
                       else ret None
                   | None =>
                       let! connection := new_dfsConnection in
                       let! conn := connect respond in
                       if negb (conn =? NULL)%Z then
                         let! _ := set_connection connection conn in
                         let! _ := set_state connection FREE_INITIALIZED in
                         let! _ := push_back connection in
                         getFreeConnection respond (S fuel)
                       else
                         let! _ := drop_last connection in ret None
                   end
                 end) in
      let! _ := scoped_lock_destroy lk in
      ret r) m).
  step (ret_Returns false m).
  step (find_if_Returns freeConnectionPredicate m). rewrite Hf. cbv iota.
  step (find_if_Returns anyNonInitializedConnectionPredicate (note ScanStates m)).
  cbn [store this note]. rewrite Hu. cbv iota.
  set (m0 := note ScanStates (note ScanStates m)).
  step (new_dfsConnection_Returns m0).
  change (length (store m0)) with (length (store m)).
  set (len := length (store m)).
  set (ma := set_store _ _).
  step (connect_Returns ma).
  change (m_fsDescriptor (this ma)) with (m_fsDescriptor (this m)). fold c_connect.
  change (answer respond c_connect ma) with conn.
  set (mb := after_call respond c_connect ma).
  assert (store mb = store m ++ [{| connection := NULL; state := NON_INITIALIZED |}])
    as Hmb by done.
  destruct (conn =? NULL)%Z eqn:En; cbn [negb].
  - unfold drop_last, scoped_lock_destroy, bind, ret. rewrite Hmb.
    unfold len. rewrite take_app_length.
    unfold set_store at 1. f_equal; try reflexivity.
    unfold logged, mb, ma, m0.
    cbn [accesses this m_mux note set_store set_pool after_call map].
    by rewrite <- !app_assoc.
  - assert (store mb !! len = Some {| connection := NULL; state := NON_INITIALIZED |})
      as Hlb.
    { rewrite Hmb. unfold len. by rewrite lookup_app_r, Nat.sub_diag by lia. }
    step (set_connection_Returns len conn _ mb Hlb).
    set (mc := set_store _ _).
    assert (store mc = store m ++ [{| connection := conn; state := NON_INITIALIZED |}])
      as Hmc.
    { unfold mc. cbn [store set_store note]. rewrite Hmb. unfold len.
      by rewrite insert_app_r_alt, Nat.sub_diag by lia. }
    assert (store mc !! len = Some {| connection := conn; state := NON_INITIALIZED |})
      as Hlc.
    { rewrite Hmc. unfold len. by rewrite lookup_app_r, Nat.sub_diag by lia. }
    step (set_state_Returns len FREE_INITIALIZED _ mc Hlc).
    set (md := set_store _ _).
    assert (store md = store m ++ [{| connection := conn; state := FREE_INITIALIZED |}])
      as Hmd.
    { unfold md. cbn [store set_store note]. rewrite Hmc. unfold len.
      by rewrite insert_app_r_alt, Nat.sub_diag by lia. }
    step (push_back_Returns len md).
    set (me := set_pool _ _).
    assert (store me = store md) as Hme by done.
    assert (m_connections (this me) = m_connections (this m) ++ [len]) as Hpe by done.
    assert (find_first freeConnectionPredicate (store me) (m_connections (this me))
            = Some len) as Hfe.
    { rewrite Hme, Hmd, Hpe. by apply find_first_appended. }
    assert (store me !! len = Some {| connection := conn; state := FREE_INITIALIZED |})
      as Hle.
    { rewrite Hme, Hmd. unfold len. by rewrite lookup_app_r, Nat.sub_diag by lia. }
    step (getFreeConnection_free me fuel len _ Hfe Hle).
    unfold scoped_lock_destroy, bind, ret. f_equal.
    rewrite Hme, Hmd. unfold len.
    rewrite insert_app_r_alt, Nat.sub_diag by lia.
    f_equal; try reflexivity.
    unfold logged, me, md, mc, mb, ma, m0.
    cbn [accesses this m_mux note set_store set_pool after_call map].
    by rewrite <- !app_assoc.
Qed.
End Acquire.

(** *** The lease in pass-through operations *)

(** C1, as the code has it.  No pass-through operation checks its lease.
    When every lease it is given holds a connection, the operation makes
    exactly one call, the corresponding call of the native binding (the one
    [corresponding_call] lists for it, with the operation's own arguments)
    on the native connection(s) of the lease(s); it returns the answer of
    that call (pathExists: whether the answer is zero) and touches nothing
    else: the pool, the connection objects and the adapter stay as they are.
    When a lease holds no connection the operation does not return an I/O
    failure: it dereferences the missing connection object, and the machine
    stops there with no external call made.  The same holds for the Tachyon
    override of fileOpen. *)
Theorem passthrough_lease_unchecked {R} (op : passthrough R) (m : machine W) :
  (∀ hs, mapM (lease_bridge m) (leases op) = Some hs →
     let native := native_call (corresponding_call op (bridge m)) in
     invoke respond op m
       = Returns (native_result (corresponding_call op (bridge m))
                    (answer respond native m))
                 (after_call respond native m) ∧
     calls (after_call respond native m) = calls m ++ [Ext native] ∧
     is_native (Ext native) = true ∧ bridges (Ext native) = hs ∧
     store (after_call respond native m) = store m ∧
     this (after_call respond native m) = this m ∧
     accesses (after_call respond native m) = accesses m) ∧
  (∀ conn, conn ∈ leases op → lease_bridge m conn = None →
     invoke respond op m = BadDeref m) ∧
  (∀ fuel path flags bufferSize replication blocksize,
     Tachyon_fileOpen respond fuel None path flags bufferSize replication blocksize m
       = BadDeref m).
Proof.
  split; [|split].
  - intros hs [Hall Hhs]%mapM_lease_bridge native.
    destruct (corresponding_call_bridges op (bridge m)) as [Hnative Hbridges].
    split; [by apply passthrough_forwards|].
    split; [reflexivity|]. split; [exact Hnative|].
    split; [by rewrite <- Hhs|]. done.
  - intros conn. apply passthrough_invalid_lease.
  - intros. unfold Tachyon_fileOpen. by apply bind_BadDeref, bridge_of_invalid.
Qed.

(** *** The pool-acquisition algorithm *)

(** C2: getFreeConnection, given fuel for its one possible self-call,
    returns, and
    (1) when the pool has a FreeReady connection, the lease is over the
        first one, which becomes Busy; no call is made to the native
        binding and the pool is the same list;
    (2) otherwise, when the pool has a connection that is neither Busy nor
        FreeReady, connect() is called once; if it gives a connection, the
        first such slot gets it as its handle and becomes Busy and the
        lease is over that slot; if it does not, the lease is empty and
        pool and connection objects are unchanged;
    (3) otherwise connect() is called once; if it gives a connection, one
        new object with that handle, Busy, is at the end of the pool and
        the lease is over it; if it does not, the lease is empty and pool
        and connection objects are unchanged.
    In every case the pool keeps its length or grows by one. *)
Theorem getFreeConnection_algorithm (fuel : nat) (m : machine W) :
  2 ≤ fuel →
  let pool := m_connections (this m) in
  let c_connect := DfsBuilderConnect (connect_builder (m_fsDescriptor (this m))) in
  let conn := answer respond c_connect m in
  ∃ lease m',
    getFreeConnection respond fuel m = Returns lease m' ∧
    let pool' := m_connections (this m') in
    (∀ p, first_with freeConnectionPredicate (store m) pool p →
       lease = Some p ∧
       (∃ c, store m !! p = Some c ∧
             store m' = <[p := {| connection := connection c; state := BUSY_OK |}]> (store m)) ∧
       pool' = pool ∧ calls m' = calls m ∧ world m' = world m) ∧
    (none_with freeConnectionPredicate (store m) pool →
     ∀ p, first_with anyNonInitializedConnectionPredicate (store m) pool p →
       calls m' = calls m ++ [Ext c_connect] ∧ pool' = pool ∧
       (conn ≠ NULL →
          lease = Some p ∧
          store m' = <[p := {| connection := conn; state := BUSY_OK |}]> (store m)) ∧
       (conn = NULL → lease = None ∧ store m' = store m)) ∧
    (none_with freeConnectionPredicate (store m) pool →
     none_with anyNonInitializedConnectionPredicate (store m) pool →
       calls m' = calls m ++ [Ext c_connect] ∧
       (conn ≠ NULL →
          lease = Some (length (store m)) ∧
          store m' = store m ++ [{| connection := conn; state := BUSY_OK |}] ∧
          pool' = pool ++ [length (store m)]) ∧
       (conn = NULL → lease = None ∧ store m' = store m ∧ pool' = pool)) ∧
    length pool ≤ length pool' ≤ S (length pool).
Proof.
  intros Hfuel pool c_connect conn.
  destruct fuel as [|[|fuel]]; [lia|lia|].
  destruct (find_first freeConnectionPredicate (store m) pool) as [p|] eqn:Hf.
  - (* a FreeReady connection *)
    pose proof Hf as (l1 & l2 & c & _ & Hc & _)%find_first_Some.
    do 2 eexists. split; [exact (getFreeConnection_free m (S fuel) p c Hf Hc)|].
    cbn [this store calls world]. split; [|split; [|split]].
    + intros q Hq%find_first_Some. fold pool in Hq. rewrite Hf in Hq.
      injection Hq as <-. eauto 10.
    + intros Hn%find_first_None. fold pool in Hn. congruence.
    + intros Hn%find_first_None. fold pool in Hn. congruence.
    + fold pool. lia.
  - destruct (find_first anyNonInitializedConnectionPredicate (store m) pool)
      as [p|] eqn:Hu.
    + (* a slot to repair *)
      pose proof Hu as (l1 & l2 & c & _ & Hc & _)%find_first_Some.
      pose proof (getFreeConnection_repair m (S fuel) p c Hf Hu Hc) as Hr.
      fold c_connect conn in Hr.
      destruct (conn =? NULL)%Z eqn:En.
      * apply Z.eqb_eq in En.
        do 2 eexists. split; [exact Hr|]. cbn [this store calls world].
        split; [|split; [|split]].
        -- intros q Hq%find_first_Some. fold pool in Hq. congruence.
        -- intros _ q Hq%find_first_Some. fold pool in Hq. rewrite Hu in Hq.
           injection Hq as <-. split_and!; try done.
        -- intros _ Hn%find_first_None. fold pool in Hn. congruence.
        -- fold pool. lia.
      * apply Z.eqb_neq in En.
        do 2 eexists. split; [exact Hr|]. cbn [this store calls world].
        split; [|split; [|split]].
        -- intros q Hq%find_first_Some. fold pool in Hq. congruence.
        -- intros _ q Hq%find_first_Some. fold pool in Hq. rewrite Hu in Hq.
           injection Hq as <-. split_and!; try done.
        -- intros _ Hn%find_first_None. fold pool in Hn. congruence.
        -- fold pool. lia.
    + (* a new connection *)
      pose proof (getFreeConnection_grow m fuel Hf Hu) as Hr.
      fold c_connect conn pool in Hr.
      destruct (conn =? NULL)%Z eqn:En.
      * apply Z.eqb_eq in En.
        do 2 eexists. split; [exact Hr|]. cbn [this store calls world].
        split; [|split; [|split]].
        -- intros q Hq%find_first_Some. fold pool in Hq. congruence.
        -- intros _ q Hq%find_first_Some. fold pool in Hq. congruence.
        -- intros _ _. split_and!; try done.
        -- fold pool. lia.
      * apply Z.eqb_neq in En.
        do 2 eexists. split; [exact Hr|]. cbn [this store calls world m_connections].
        split; [|split; [|split]].
        -- intros q Hq%find_first_Some. fold pool in Hq. congruence.
        -- intros _ q Hq%find_first_Some. fold pool in Hq. congruence.
        -- intros _ _. split_and!; try done.
        -- rewrite length_app. simpl. lia.
Qed.

(** C8, what the code does: getFreeConnection returns with m_mux in the
    state it found it in, and every access to the pool it makes (at least
    the first scan) happens with m_mux in that state.  Called with the
    mutex free, it scans the pool and writes connection states without
    holding it. *)
Theorem getFreeConnection_takes_no_lock (fuel : nat) (m : machine W) :
  ∃ lease m' ops,
    getFreeConnection respond (S (S fuel)) m = Returns lease m' ∧
    m_mux (this m') = m_mux (this m) ∧
    accesses m' = accesses m ++ ops ∧
    ScanStates ∈ map what ops ∧
    Forall (λ a, under_lock a = m_mux (this m)) ops.
Proof.
  assert (∀ l, Forall (λ a, under_lock a = m_mux (this m)) (logged m l)) as Hall.
  { intros l. unfold logged. apply Forall_forall. intros a Ha.
    apply list_elem_of_fmap in Ha as (o & -> & _). done. }
  destruct (find_first freeConnectionPredicate (store m) (m_connections (this m)))
    as [p|] eqn:Hf.
  - pose proof Hf as (l1 & l2 & c & _ & Hc & _)%find_first_Some.
    do 3 eexists. split; [exact (getFreeConnection_free m (S fuel) p c Hf Hc)|].
    cbn [this accesses]. split_and!; [done|done| |apply Hall]. simpl. by left.
  - destruct (find_first anyNonInitializedConnectionPredicate (store m)
                (m_connections (this m))) as [p|] eqn:Hu.
    + pose proof Hu as (l1 & l2 & c & _ & Hc & _)%find_first_Some.
      pose proof (getFreeConnection_repair m (S fuel) p c Hf Hu Hc) as Hr.
      destruct (_ =? NULL)%Z.
      * do 3 eexists. split; [exact Hr|].
        cbn [this accesses]. split_and!; [done|done| |apply Hall]. simpl. by left.
      * do 3 eexists. split; [exact Hr|].
        cbn [this accesses]. split_and!; [done|done| |apply Hall]. simpl. by left.
    + pose proof (getFreeConnection_grow m fuel Hf Hu) as Hr.
      destruct (_ =? NULL)%Z.
      * do 3 eexists. split; [exact Hr|].
        cbn [this accesses]. split_and!; [done|done| |apply Hall]. simpl. by left.
      * do 3 eexists. split; [exact Hr|].
        cbn [this accesses m_mux]. split_and!; [done|done| |apply Hall]. simpl. by left.
Qed.

(** *** Priming on the Tachyon adapter *)

Section PrimingClaims.
Variables (fuel n : nat) (conn : raiiDfsConnection) (path : string).
Variables (flags bufferSize replication blocksize : Z).
Variables (m : machine W) (fs : fsBridge).

Let c_open := DfsOpenFile fs path flags bufferSize replication blocksize.
Let handle := answer respond c_open m.
Let m1 := after_call respond c_open m.
Let c_malloc := Malloc (1 * BUFFER_SIZE).
Let buffer := answer respond c_malloc m1.
Let m2 := after_call respond c_malloc m1.
Let c_read := DfsRead fs handle buffer BUFFER_SIZE.
Let c_close := DfsCloseFile fs handle.
Let last_read := answer respond c_read (after_calls respond c_read n m2).
Let m3 := after_calls respond c_read (S n) m2.
Let m4 := after_call respond (Free buffer) m3.
Let m5 := after_call respond c_close m4.
Let m6 := after_call respond c_open m5.

Lemma calls_m3 :
  calls m3 = calls m ++ [Ext c_open; Ext c_malloc] ++ replicate (S n) (Ext c_read).
Proof.
  unfold m3. rewrite (proj2 (proj2 (proj2 (after_calls_frame c_read (S n) m2)))).
  unfold m2, m1, after_call. cbn [calls]. by rewrite <- !app_assoc.
Qed.

Lemma calls_m6 :
  calls m6 = calls m ++ [Ext c_open; Ext c_malloc] ++ replicate (S n) (Ext c_read)
               ++ [Ext (Free buffer); Ext c_close; Ext c_open].
Proof.
  unfold m6, m5, m4, after_call. cbn [calls]. rewrite calls_m3.
  by rewrite <- !app_assoc.
Qed.

(** The two runs of the Tachyon fileOpen on which the code does what C3
    says.  With flags O_WRONLY the Tachyon fileOpen is
    the base fileOpen: one native open and nothing else.  With read
    access (access mode O_RDONLY), a lease that holds a connection, a
    base open and a scratch buffer that are not null, a stream that ends
    with a read answering 0 and a close answering 0, it opens, reads up
    to and including the read that answers 0, frees the buffer, closes
    the handle, opens the same path again with the same arguments and
    returns the handle of that second open. *)
Theorem Tachyon_fileOpen_priming :
  (lease_bridge m conn = Some fs →
   Z.land flags O_ACCMODE = O_RDONLY →
   handle ≠ NULL → buffer ≠ NULL →
   ends_at respond c_read m2 n → last_read = 0%Z →
   answer respond c_close m4 = 0%Z →
   n ≤ fuel →
     Tachyon_fileOpen respond fuel conn path flags bufferSize replication blocksize m
       = Returns (answer respond c_open m5) m6 ∧
     calls m6 = calls m ++ [Ext c_open; Ext c_malloc] ++ replicate (S n) (Ext c_read)
                  ++ [Ext (Free buffer); Ext c_close; Ext c_open]) ∧
  Tachyon_fileOpen respond fuel conn path O_WRONLY bufferSize replication blocksize m
    = fileOpen respond conn path O_WRONLY bufferSize replication blocksize m.
Proof.
  split; [|apply Tachyon_fileOpen_O_WRONLY].
  intros Hv Hacc Hh Hb Hends Hlast Hclose Hfuel.
  assert (flags ≠ O_WRONLY) as Hf by (intros ->; done).
  split; [|apply calls_m6].
  rewrite (Tachyon_fileOpen_read conn path flags bufferSize replication blocksize m fs
             Hv fuel n Hh Hf Hb Hends Hfuel).
  cbv zeta. fold c_open handle m1 c_malloc buffer m2 c_read c_close last_read m3 m4 m5.
  by rewrite Hlast, Hclose.
Qed.

(** C4: on the Tachyon adapter, with a lease that holds a connection, a
    base open that succeeded and flags other than O_WRONLY:
    when the scratch buffer cannot be allocated, the handle just opened
    is closed and NULL is returned;
    when the stream fails, i.e. some read answers a negative value (-1)
    after any number of successful reads, NULL is returned and that
    failing read is the last call made: no second open, no further
    read.  Either way the caller gets NULL, never the handle. *)
Theorem Tachyon_fileOpen_failures :
  lease_bridge m conn = Some fs → handle ≠ NULL → flags ≠ O_WRONLY →
  (buffer = NULL →
     Tachyon_fileOpen respond fuel conn path flags bufferSize replication blocksize m
       = Returns NULL (after_call respond c_close m2) ∧
     calls (after_call respond c_close m2)
       = calls m ++ [Ext c_open; Ext c_malloc; Ext c_close]) ∧
  (buffer ≠ NULL → ends_at respond c_read m2 n → (last_read < 0)%Z → n ≤ fuel →
     Tachyon_fileOpen respond fuel conn path flags bufferSize replication blocksize m
       = Returns NULL m3 ∧
     calls m3 = calls m ++ [Ext c_open; Ext c_malloc] ++ replicate (S n) (Ext c_read)).
Proof.
  intros Hv Hh Hf. split.
  - intros Hb. split.
    + by apply Tachyon_fileOpen_alloc_failed.
    + unfold m2, m1, after_call. cbn [calls]. by rewrite <- !app_assoc.
  - intros Hb Hends Hlast Hfuel. split; [|apply calls_m3].
    rewrite (Tachyon_fileOpen_read conn path flags bufferSize replication blocksize m fs
               Hv fuel n Hh Hf Hb Hends Hfuel).
    cbv zeta. fold c_open handle m1 c_malloc buffer m2 c_read c_close last_read m3.
    by rewrite (proj2 (Z.eqb_neq last_read 0)) by lia.
Qed.

(** C9: with a lease that holds a connection and a base open that
    succeeded, the flags decide by equality with O_WRONLY alone.  Equal:
    the handle is returned after the one open.  Different, whatever else
    the flags say: provided the scratch buffer is there, the file is
    read up to and including the first read that answers 0 or less, right
    after the open, and no read follows.  O_WRONLY|O_CREAT is different
    from O_WRONLY. *)
Theorem Tachyon_fileOpen_flag_test :
  lease_bridge m conn = Some fs → handle ≠ NULL →
  (flags = O_WRONLY →
     Tachyon_fileOpen respond fuel conn path flags bufferSize replication blocksize m
       = Returns handle m1 ∧
     calls m1 = calls m ++ [Ext c_open]) ∧
  (flags ≠ O_WRONLY → buffer ≠ NULL → ends_at respond c_read m2 n → n ≤ fuel →
     ∃ r m' rest,
       Tachyon_fileOpen respond fuel conn path flags bufferSize replication blocksize m
         = Returns r m' ∧
       calls m' = calls m ++ [Ext c_open; Ext c_malloc]
                    ++ replicate (S n) (Ext c_read) ++ rest ∧
       Forall (λ e, is_read e = false) rest) ∧
  Z.lor O_WRONLY O_CREAT ≠ O_WRONLY.
Proof.
  intros Hv Hh. split; [|split; [|done]].
  - intros Hf. split; [|done].
    unfold Tachyon_fileOpen.
    rewrite (bind_Returns _ _ _ _ _ (bridge_of_valid _ _ _ Hv)).
    rewrite (bind_Returns _ _ _ _ _ (call_Returns _ _)).
    fold c_open handle m1.
    by rewrite (proj2 (Z.eqb_neq handle NULL)), (proj2 (Z.eqb_eq flags O_WRONLY)).
  - intros Hf Hb Hends Hfuel.
    rewrite (Tachyon_fileOpen_read conn path flags bufferSize replication blocksize m fs
               Hv fuel n Hh Hf Hb Hends Hfuel).
    cbv zeta. fold c_open handle m1 c_malloc buffer m2 c_read c_close last_read m3 m4 m5 m6.
    destruct (last_read =? 0)%Z; [destruct (answer respond c_close m4 =? 0)%Z|].
    + exists (answer respond c_open m5), m6, [Ext (Free buffer); Ext c_close; Ext c_open].
      split; [done|]. split; [apply calls_m6|]. by repeat constructor.
    + exists NULL, m5, [Ext (Free buffer); Ext c_close].
      split; [done|]. split; [|by repeat constructor].
      unfold m5, m4, after_call. cbn [calls]. rewrite calls_m3.
      by rewrite <- !app_assoc.
    + exists NULL, m3, []. split; [done|]. split; [|constructor].
      rewrite calls_m3. by rewrite app_nil_r.
Qed.

(** C10: same setting, flags other than O_WRONLY.  When a read answers
    -1, NULL is returned and none of the calls made is a close: the
    handle of the base open stays open.  When instead the scratch buffer
    cannot be allocated, NULL is returned and the last call made is the
    close of that handle. *)
Theorem Tachyon_fileOpen_read_error_keeps_handle_open :
  lease_bridge m conn = Some fs → handle ≠ NULL → flags ≠ O_WRONLY →
  (buffer ≠ NULL → ends_at respond c_read m2 n → last_read = (-1)%Z → n ≤ fuel →
     ∃ m' made,
       Tachyon_fileOpen respond fuel conn path flags bufferSize replication blocksize m
         = Returns NULL m' ∧
       calls m' = calls m ++ made ∧
       Forall (λ e, is_close e = false) made) ∧
  (buffer = NULL →
     ∃ m' made,
       Tachyon_fileOpen respond fuel conn path flags bufferSize replication blocksize m
         = Returns NULL m' ∧
       calls m' = calls m ++ made ++ [Ext c_close] ∧
       Forall (λ e, is_close e = false) made).
Proof.
  intros Hv Hh Hf. split.
  - intros Hb Hends Hlast Hfuel.
    exists m3, ([Ext c_open; Ext c_malloc] ++ replicate (S n) (Ext c_read)).
    split; [|split; [apply calls_m3|]].
    + rewrite (Tachyon_fileOpen_read conn path flags bufferSize replication blocksize m fs
                 Hv fuel n Hh Hf Hb Hends Hfuel).
      cbv zeta. fold c_open handle m1 c_malloc buffer m2 c_read c_close last_read m3.
      by rewrite Hlast.
    + apply Forall_app. split; [by repeat constructor|].
      by apply Forall_replicate.
  - intros Hb. exists (after_call respond c_close m2), [Ext c_open; Ext c_malloc].
    split; [by apply Tachyon_fileOpen_alloc_failed|].
    split; [|by repeat constructor].
    unfold m2, m1, after_call. cbn [calls]. by rewrite <- !app_assoc.
Qed.
End PrimingClaims.
End AdapterFacts.

(** * Worked instances on the scripted environment *)

Module Instances.
Import Scripted.

Ltac crunch :=
  vm_compute; first [reflexivity | discriminate | lia | congruence].

(** *** Registry *)

Lemma setupFileSystem_singleton_witness :
  host namenode ≠ "default" ∧
  ∃ reg1 a,
    setupFileSystem respond "default" namenode quiet empty_registry
      = (OK, namenode, quiet, reg1) ∧
    getFileSystemDescriptor reg1 namenode = Some a ∧
    a = 0 ∧
    Nat.iter 3 (λ r, (setupFileSystem respond "default" namenode quiet r).2) reg1 = reg1.
Proof.
  assert (host namenode ≠ "default") as Hh by (vm_compute; discriminate).
  split; [exact Hh|].
  destruct (setupFileSystem_singleton respond "default" namenode quiet empty_registry Hh)
    as (reg1 & a & Hs & Hg & [[Hold _]|(_ & Ha & _)] & _ & Hiter & _).
  - vm_compute in Hold. discriminate.
  - exists reg1, a. split; [exact Hs|]. split; [exact Hg|]. split; [exact Ha|].
    exact (Hiter 3).
Defined.

Lemma createFromSelect_pairing_witness :
  m_createFromSelect empty_registry !! 10%Z = None ∧
  ∃ reg1,
    registerCreateFromSelectScenario 10 20 empty_registry = (true, reg1) ∧
    registerCreateFromSelectScenario 10 30 reg1 = (false, reg1) ∧
    getCreateFromSelectScenario 10 reg1 = (20%Z, true) ∧
    unregisterCreateFromSelectScenario 10 reg1 = (true, empty_registry) ∧
    getCreateFromSelectScenario 10 empty_registry = (NULL, false).
Proof.
  assert (m_createFromSelect empty_registry !! 10%Z = None) as Hfresh by reflexivity.
  split; [exact Hfresh|].
  destruct (createFromSelect_pairing 10 20 30 empty_registry Hfresh)
    as (reg1 & H1 & _ & H2 & H3 & _ & _ & _ & H4).
  exists reg1. split; [exact H1|]. split; [exact H2|]. split; [exact H3|].
  split; [exact H4|]. reflexivity.
Defined.

Lemma setupFileSystem_resolution_witness :
  host unresolved = "default" ∧
  ∃ d' reg1,
    setupFileSystem respond "default" unresolved resolving empty_registry
      = (OK, d', resolving, reg1) ∧
    host d' = "nn1" ∧ dfs_type d' = hdfs ∧ port d' = 0%Z ∧
    is_Some (getFileSystemDescriptor reg1 d').
Proof.
  assert (host unresolved = "default") as Hh by reflexivity.
  split; [exact Hh|].
  destruct (setupFileSystem_resolution respond "default" unresolved resolving
              empty_registry Hh)
    as (bld & status & h & p & t & w' & Hq & _ & Hok).
  cbn in Hq. injection Hq as <- <- <- <- <-.
  destruct (Hok eq_refl) as (d' & reg1 & Hs & H1 & H2 & H3 & _ & _ & H4 & _).
  exists d', reg1. split; [exact Hs|]. split; [exact H1|]. split; [exact H2|].
  split; [exact H3|]. exact H4.
Defined.

(** *** Leases *)

Lemma passthrough_lease_unchecked_witness :
  (∃ r m',
     invoke respond (FileRead (Some 0) 11 99 10) (leased (with_reads [3%Z]))
       = Returns r m' ∧
     calls m' = [Ext (DfsRead 5 11 99 10)]) ∧
  invoke respond (FileRead None 11 99 10) (leased (with_reads [3%Z]))
    = BadDeref (leased (with_reads [3%Z])).
Proof.
  destruct (passthrough_lease_unchecked respond (FileRead (Some 0) 11 99 10)
              (leased (with_reads [3%Z]))) as (Hvalid & _ & _).
  destruct (passthrough_lease_unchecked respond (FileRead None 11 99 10)
              (leased (with_reads [3%Z]))) as (_ & Hinvalid & _).
  split.
  - destruct (Hvalid [5%Z] eq_refl) as (Hr & Hc & _).
    eexists _, _. split; [exact Hr|exact Hc].
  - apply (Hinvalid None); [by left|reflexivity].
Defined.

(** C1 as stated fails: fileRead on an empty lease returns nothing at all,
    so in particular no I/O failure. *)
Lemma fileRead_empty_lease_returns_nothing :
  ¬ ∃ r m', fileRead respond None 11 99 10 (leased quiet) = Returns r m'.
Proof. intros (r & m' & H). vm_compute in H. discriminate. Qed.

(** *** The pool *)

Lemma getFreeConnection_algorithm_witness :
  2 ≤ 2 ∧
  ∃ lease m',
    getFreeConnection respond 2 (boot quiet [] []) = Returns lease m' ∧
    lease = Some 0 ∧
    store m' = [{| connection := 7; state := BUSY_OK |}] ∧
    m_connections (this m') = [0].
Proof.
  split; [lia|].
  destruct (getFreeConnection_algorithm respond 2 (boot quiet [] []) (le_n 2))
    as (lease & m' & Hr & _ & _ & Hgrow & _).
  exists lease, m'. split; [exact Hr|].
  destruct Hgrow as (_ & Hok & _).
  - intros q c Hq. cbn in Hq. by apply elem_of_nil in Hq.
  - intros q c Hq. cbn in Hq. by apply elem_of_nil in Hq.
  - destruct Hok as (Hl & Hs & Hp); [vm_compute; discriminate|].
    split; [exact Hl|]. split; [exact Hs|exact Hp].
Defined.

(** The failing input of C8: an adapter with an empty pool whose mutex is
    free.  All eight pool accesses of the call are made with m_mux free. *)
Example getFreeConnection_unlocked_accesses :
  ∃ m', getFreeConnection respond 2 (boot quiet [] []) = Returns (Some 0) m' ∧
        accesses m' =
          [mkAccess ScanStates false; mkAccess ScanStates false;
           mkAccess (WriteState 0 NON_INITIALIZED) false;
           mkAccess (WriteHandle 0 7) false;
           mkAccess (WriteState 0 FREE_INITIALIZED) false;
           mkAccess (PushBack 0) false; mkAccess ScanStates false;
           mkAccess (WriteState 0 BUSY_OK) false].
Proof. eexists. split; reflexivity. Qed.

(** *** Priming *)

Lemma two_chunks_end (flags : Z) :
  ends_at respond (DfsRead 5 11 99 BUFFER_SIZE)
    (after_call respond (Malloc (1 * BUFFER_SIZE))
       (after_call respond (DfsOpenFile 5 "/a" flags 0 0 0) two_chunks)) 2.
Proof.
  split.
  - intros [|[|k]] Hk; [crunch|crunch|lia].
  - crunch.
Defined.

Lemma failing_end (flags : Z) :
  ends_at respond (DfsRead 5 11 99 BUFFER_SIZE)
    (after_call respond (Malloc (1 * BUFFER_SIZE))
       (after_call respond (DfsOpenFile 5 "/a" flags 0 0 0) failing)) 1.
Proof.
  split.
  - intros [|k] Hk; [crunch|lia].
  - crunch.
Defined.

Lemma Tachyon_fileOpen_priming_witness :
  (∃ m', Tachyon_fileOpen respond 5 (Some 0) "/a" O_RDONLY 0 0 0 two_chunks
           = Returns 11%Z m' ∧
         calls m' =
           [Ext (DfsOpenFile 5 "/a" O_RDONLY 0 0 0); Ext (Malloc BUFFER_SIZE);
            Ext (DfsRead 5 11 99 BUFFER_SIZE); Ext (DfsRead 5 11 99 BUFFER_SIZE);
            Ext (DfsRead 5 11 99 BUFFER_SIZE); Ext (Free 99);
            Ext (DfsCloseFile 5 11); Ext (DfsOpenFile 5 "/a" O_RDONLY 0 0 0)]) ∧
  (∃ m', Tachyon_fileOpen respond 5 (Some 0) "/a" O_WRONLY 0 0 0 two_chunks
           = Returns 11%Z m' ∧
         calls m' = [Ext (DfsOpenFile 5 "/a" O_WRONLY 0 0 0)]).
Proof.
  destruct (Tachyon_fileOpen_priming respond 5 2 (Some 0) "/a" O_RDONLY 0 0 0 two_chunks 5)
    as [Hread Hwrite].
  split.
  - destruct Hread as [Hr Hc];
      [reflexivity|reflexivity|crunch|crunch|apply two_chunks_end|crunch|crunch|lia|].
    eexists. split; [exact Hr|]. exact Hc.
  - eexists. split; [rewrite Hwrite; reflexivity|reflexivity].
Defined.

(** C3, where the code departs from it: O_WRONLY|O_CREAT asks for write
    access, for which the claim and the comment at line 279 (a file opened
    for write needs no caching) promise the base open alone, and yet the
    Tachyon fileOpen, whose test at line 278 is flags == O_WRONLY, goes on
    after the base open: it allocates the scratch buffer, reads the file to
    its end, frees the buffer, closes the handle and opens the path again.
    Its outcome is not that of the base fileOpen. *)
Lemma Tachyon_fileOpen_write_create_primes :
  Z.land (Z.lor O_WRONLY O_CREAT) O_ACCMODE = O_WRONLY ∧
  (∃ m', Tachyon_fileOpen respond 5 (Some 0) "/a" (Z.lor O_WRONLY O_CREAT) 0 0 0 two_chunks
           = Returns 11%Z m' ∧
         calls m' =
           [Ext (DfsOpenFile 5 "/a" 65 0 0 0); Ext (Malloc BUFFER_SIZE);
            Ext (DfsRead 5 11 99 BUFFER_SIZE); Ext (DfsRead 5 11 99 BUFFER_SIZE);
            Ext (DfsRead 5 11 99 BUFFER_SIZE); Ext (Free 99);
            Ext (DfsCloseFile 5 11); Ext (DfsOpenFile 5 "/a" 65 0 0 0)]) ∧
  Tachyon_fileOpen respond 5 (Some 0) "/a" (Z.lor O_WRONLY O_CREAT) 0 0 0 two_chunks
    ≠ fileOpen respond (Some 0) "/a" (Z.lor O_WRONLY O_CREAT) 0 0 0 two_chunks.
Proof.
  split; [reflexivity|]. split.
  - remember (Tachyon_fileOpen _ _ _ _ _ _ _ _ _) as o eqn:E.
    vm_compute in E. subst o. eexists. split; reflexivity.
  - intros H. vm_compute in H. discriminate.
Qed.

Lemma Tachyon_fileOpen_failures_witness :
  (∃ m', Tachyon_fileOpen respond 5 (Some 0) "/a" O_RDONLY 0 0 0 (leased without_memory)
           = Returns NULL m' ∧
         calls m' = [Ext (DfsOpenFile 5 "/a" O_RDONLY 0 0 0); Ext (Malloc BUFFER_SIZE);
                     Ext (DfsCloseFile 5 11)]) ∧
  (∃ m', Tachyon_fileOpen respond 5 (Some 0) "/a" O_RDONLY 0 0 0 failing
           = Returns NULL m' ∧
         calls m' = [Ext (DfsOpenFile 5 "/a" O_RDONLY 0 0 0); Ext (Malloc BUFFER_SIZE);
                     Ext (DfsRead 5 11 99 BUFFER_SIZE); Ext (DfsRead 5 11 99 BUFFER_SIZE)]).
Proof.
  split.
  - destruct (Tachyon_fileOpen_failures respond 5 0 (Some 0) "/a" O_RDONLY 0 0 0
                (leased without_memory) 5) as [Halloc _];
      [reflexivity|crunch|crunch|].
    destruct Halloc as [Hr Hc]; [crunch|].
    eexists. split; [exact Hr|exact Hc].
  - destruct (Tachyon_fileOpen_failures respond 5 1 (Some 0) "/a" O_RDONLY 0 0 0
                failing 5) as [_ Hread];
      [reflexivity|crunch|crunch|].
    destruct Hread as [Hr Hc]; [crunch|apply failing_end|crunch|lia|].
    eexists. split; [exact Hr|exact Hc].
Defined.

Lemma Tachyon_fileOpen_flag_test_witness :
  (∃ m', Tachyon_fileOpen respond 5 (Some 0) "/a" O_WRONLY 0 0 0 two_chunks
           = Returns 11%Z m' ∧
         calls m' = [Ext (DfsOpenFile 5 "/a" O_WRONLY 0 0 0)]) ∧
  (∃ r m' rest,
     Tachyon_fileOpen respond 5 (Some 0) "/a" (Z.lor O_WRONLY O_CREAT) 0 0 0 two_chunks
       = Returns r m' ∧
     calls m' =
       [Ext (DfsOpenFile 5 "/a" (Z.lor O_WRONLY O_CREAT) 0 0 0); Ext (Malloc BUFFER_SIZE)]
       ++ replicate 3 (Ext (DfsRead 5 11 99 BUFFER_SIZE)) ++ rest ∧
     Forall (λ e, is_read e = false) rest).
Proof.
  split.
  - destruct (Tachyon_fileOpen_flag_test respond 5 2 (Some 0) "/a" O_WRONLY 0 0 0
                two_chunks 5) as (Hw & _ & _); [reflexivity|crunch|].
    destruct (Hw eq_refl) as [Hr Hc].
    eexists. split; [exact Hr|exact Hc].
  - destruct (Tachyon_fileOpen_flag_test respond 5 2 (Some 0) "/a" (Z.lor O_WRONLY O_CREAT)
                0 0 0 two_chunks 5) as (_ & Hp & _); [reflexivity|crunch|].
    destruct Hp as (r & m' & rest & Hr & Hc & Hrest);
      [crunch|crunch|apply two_chunks_end|lia|].
    exists r, m', rest. split; [exact Hr|]. split; [exact Hc|exact Hrest].
Defined.

Lemma Tachyon_fileOpen_read_error_keeps_handle_open_witness :
  (∃ m' made,
     Tachyon_fileOpen respond 5 (Some 0) "/a" O_RDONLY 0 0 0 failing = Returns NULL m' ∧
     calls m' = made ∧ Forall (λ e, is_close e = false) made) ∧
  (∃ m' made,
     Tachyon_fileOpen respond 5 (Some 0) "/a" O_RDONLY 0 0 0 (leased without_memory)
       = Returns NULL m' ∧
     calls m' = made ++ [Ext (DfsCloseFile 5 11)] ∧
     Forall (λ e, is_close e = false) made).
Proof.
  split.
  - destruct (Tachyon_fileOpen_read_error_keeps_handle_open respond 5 1 (Some 0) "/a"
                O_RDONLY 0 0 0 failing 5) as [Hread _];
      [reflexivity|crunch|crunch|].
    destruct Hread as (m' & made & Hr & Hc & Hm);
      [crunch|apply failing_end|crunch|lia|].
    exists m', made. split; [exact Hr|]. split; [exact Hc|exact Hm].
  - destruct (Tachyon_fileOpen_read_error_keeps_handle_open respond 5 0 (Some 0) "/a"
                O_RDONLY 0 0 0 (leased without_memory) 5) as [_ Halloc];
      [reflexivity|crunch|crunch|].
    destruct Halloc as (m' & made & Hr & Hc & Hm); [crunch|].
    exists m', made. split; [exact Hr|]. split; [exact Hc|exact Hm].
Defined.
End Instances.

(** * Further properties *)

(** ** The pool across calls *)

Section PoolFacts.
Context {W : Type}.
Variable respond : ∀ R : Type, ext_call R → W → R * W.

Lemma free_state (c : dfsConnection) :
  freeConnectionPredicate c = true ↔ state c = FREE_INITIALIZED.
Proof. unfold freeConnectionPredicate. apply bool_decide_eq_true. Qed.

Lemma uninitialized_state (c : dfsConnection) :
  anyNonInitializedConnectionPredicate c = true
  ↔ state c ≠ BUSY_OK ∧ state c ≠ FREE_INITIALIZED.
Proof.
  unfold anyNonInitializedConnectionPredicate.
  rewrite andb_true_iff, !negb_true_iff, !bool_decide_eq_false. done.
Qed.

Lemma first_not_none (pred : dfsConnection → bool) (st : list dfsConnection)
    (l : list nat) (p : nat) :
  first_with pred st l p → none_with pred st l → False.
Proof.
  intros Hf%find_first_Some Hn%find_first_None. congruence.
Qed.

(** What a call of getFreeConnection does, in one statement: it returns,
    leaves class, descriptor and mutex of the adapter alone, and took one of
    the three routes. *)
Lemma getFreeConnection_shape (fuel : nat) (m : machine W) :
  let pool := m_connections (this m) in
  let c_connect := DfsBuilderConnect (connect_builder (m_fsDescriptor (this m))) in
  let conn := answer respond c_connect m in
  ∃ lease m',
    getFreeConnection respond (S (S fuel)) m = Returns lease m' ∧
    (class_of (this m') = class_of (this m) ∧
     m_fsDescriptor (this m') = m_fsDescriptor (this m) ∧
     m_mux (this m') = m_mux (this m)) ∧
    ((∃ p c, first_with freeConnectionPredicate (store m) pool p ∧
             store m !! p = Some c ∧ lease = Some p ∧
             store m' = <[p := {| connection := connection c; state := BUSY_OK |}]> (store m) ∧
             m_connections (this m') = pool ∧ world m' = world m ∧ calls m' = calls m)
     ∨ (none_with freeConnectionPredicate (store m) pool ∧
        ∃ p c, first_with anyNonInitializedConnectionPredicate (store m) pool p ∧
               store m !! p = Some c ∧ m_connections (this m') = pool ∧
               calls m' = calls m ++ [Ext c_connect] ∧
               (conn = NULL ∧ lease = None ∧ store m' = store m
                ∨ conn ≠ NULL ∧ lease = Some p ∧
                  store m' = <[p := {| connection := conn; state := BUSY_OK |}]> (store m)))
     ∨ (none_with freeConnectionPredicate (store m) pool ∧
        none_with anyNonInitializedConnectionPredicate (store m) pool ∧
        calls m' = calls m ++ [Ext c_connect] ∧
        (conn = NULL ∧ lease = None ∧ store m' = store m ∧
         m_connections (this m') = pool
         ∨ conn ≠ NULL ∧ lease = Some (length (store m)) ∧
           store m' = store m ++ [{| connection := conn; state := BUSY_OK |}] ∧
           m_connections (this m') = pool ++ [length (store m)]))).
Proof.
  intros pool c_connect conn.
  destruct (find_first freeConnectionPredicate (store m) pool) as [p|] eqn:Hf.
  - pose proof Hf as Hfw%find_first_Some.
    pose proof Hfw as (l1 & l2 & c & _ & Hc & _).
    do 2 eexists. split; [exact (getFreeConnection_free respond m (S fuel) p c Hf Hc)|].
    cbn [this store calls world]. split; [done|]. left. by exists p, c.
  - pose proof Hf as Hfn%find_first_None.
    destruct (find_first anyNonInitializedConnectionPredicate (store m) pool)
      as [p|] eqn:Hu.
    + pose proof Hu as Huw%find_first_Some.
      pose proof Huw as (l1 & l2 & c & _ & Hc & _).
      pose proof (getFreeConnection_repair respond m (S fuel) p c Hf Hu Hc) as Hr.
      fold c_connect conn in Hr.
      destruct (conn =? NULL)%Z eqn:En.
      * apply Z.eqb_eq in En.
        do 2 eexists. split; [exact Hr|]. cbn [this store calls world].
        split; [done|]. right; left. split; [done|]. exists p, c.
        split_and!; try done. by left.
      * apply Z.eqb_neq in En.
        do 2 eexists. split; [exact Hr|]. cbn [this store calls world].
        split; [done|]. right; left. split; [done|]. exists p, c.
        split_and!; try done. by right.
    + pose proof Hu as Hun%find_first_None.
      pose proof (getFreeConnection_grow respond m fuel Hf Hu) as Hr.
      fold c_connect conn pool in Hr.
      destruct (conn =? NULL)%Z eqn:En.
      * apply Z.eqb_eq in En.
        do 2 eexists. split; [exact Hr|]. cbn [this store calls world].
        split; [done|]. right; right. split_and!; try done. by left.
      * apply Z.eqb_neq in En.
        do 2 eexists. split; [exact Hr|].
        cbn [this store calls world class_of m_fsDescriptor m_mux m_connections].
        split; [done|]. right; right. split_and!; try done. by right.
Qed.

(** X1: what one call of getFreeConnection can do to a connection object
    that exists before the call.  Either the object is left exactly as it is
    and is not the one leased; or it was FreeReady, keeps its handle, is Busy
    now and is the one leased; or it was neither FreeReady nor Busy, has got
    the non-null handle connect() just gave, is Busy now and is the one
    leased.  So a Busy connection is never altered and never leased again,
    no connection is ever set back to FreeReady or Uninitialized, and no
    object disappears. *)
Theorem getFreeConnection_slot_transitions (fuel : nat) (m : machine W) :
  ∃ lease m',
    getFreeConnection respond (S (S fuel)) m = Returns lease m' ∧
    ∀ a c, store m !! a = Some c →
      ∃ c', store m' !! a = Some c' ∧
        (c' = c ∧ lease ≠ Some a
         ∨ lease = Some a ∧ state c = FREE_INITIALIZED ∧
           c' = {| connection := connection c; state := BUSY_OK |}
         ∨ lease = Some a ∧ state c ≠ FREE_INITIALIZED ∧ state c ≠ BUSY_OK ∧
           c' = {| connection :=
                     answer respond
                       (DfsBuilderConnect (connect_builder (m_fsDescriptor (this m)))) m;
                   state := BUSY_OK |} ∧
           connection c' ≠ NULL).
Proof.
  destruct (getFreeConnection_shape fuel m) as (lease & m' & Hr & _ & Hcases).
  exists lease, m'. split; [exact Hr|]. intros a c Ha.
  assert (a < length (store m)) as Hlt by (by eapply lookup_lt_Some).
  destruct Hcases as [(p & c0 & Hfw & Hc0 & -> & -> & _)
                     |[(_ & p & c0 & Huw & Hc0 & _ & _ & [(_ & -> & ->)|(Hn & -> & ->)])
                      |(_ & _ & _ & [(_ & -> & -> & _)|(Hn & -> & -> & _)])]].
  - destruct (decide (a = p)) as [->|Hne].
    + rewrite list_lookup_insert_eq by done. eexists. split; [done|].
      right; left. rewrite Hc0 in Ha. injection Ha as ->.
      destruct Hfw as (_ & _ & c' & _ & Hc' & Hp%free_state & _).
      rewrite Hc0 in Hc'. injection Hc' as <-. done.
    + rewrite list_lookup_insert_ne by done. exists c. split; [done|].
      left. split; [done|]. congruence.
  - exists c. split; [done|]. by left.
  - destruct (decide (a = p)) as [->|Hne].
    + rewrite list_lookup_insert_eq by done. eexists. split; [done|].
      right; right. rewrite Hc0 in Ha. injection Ha as ->.
      destruct Huw as (_ & _ & c' & _ & Hc' & [Hb Hf]%uninitialized_state & _).
      rewrite Hc0 in Hc'. injection Hc' as <-. done.
    + rewrite list_lookup_insert_ne by done. exists c. split; [done|].
      left. split; [done|]. congruence.
  - exists c. split; [done|]. by left.
  - exists c. rewrite lookup_app_l by done. split; [done|].
    left. split; [done|]. intros [= Heq]. lia.
Qed.

(** X2: a lease that holds a connection refers to a member of the pool that
    is Busy when the call returns; the lease is empty exactly when the pool
    had no FreeReady connection and connect() gave no connection. *)
Theorem getFreeConnection_lease (fuel : nat) (m : machine W) :
  ∃ lease m',
    getFreeConnection respond (S (S fuel)) m = Returns lease m' ∧
    (∀ p, lease = Some p →
       p ∈ m_connections (this m') ∧
       ∃ c', store m' !! p = Some c' ∧ state c' = BUSY_OK) ∧
    (lease = None ↔
       none_with freeConnectionPredicate (store m) (m_connections (this m)) ∧
       answer respond (DfsBuilderConnect (connect_builder (m_fsDescriptor (this m)))) m
         = NULL).
Proof.
  destruct (getFreeConnection_shape fuel m) as (lease & m' & Hr & _ & Hcases).
  exists lease, m'. split; [exact Hr|].
  destruct Hcases as [(p & c0 & Hfw & Hc0 & -> & -> & -> & _)
                     |[(Hnf & p & c0 & Huw & Hc0 & -> & _ & [(Hn & -> & ->)|(Hn & -> & ->)])
                      |(Hnf & _ & _ & [(Hn & -> & -> & ->)|(Hn & -> & -> & ->)])]].
  - split.
    + intros ? [= <-]. split.
      * destruct Hfw as (l1 & l2 & _ & -> & _). set_solver.
      * eexists. split; [apply list_lookup_insert_eq; by eapply lookup_lt_Some|done].
    + split; [done|]. intros [Hnf _]. destruct (first_not_none _ _ _ _ Hfw Hnf).
  - split; [done|]. done.
  - split.
    + intros ? [= <-]. split.
      * destruct Huw as (l1 & l2 & _ & -> & _). set_solver.
      * eexists. split; [apply list_lookup_insert_eq; by eapply lookup_lt_Some|done].
    + split; [done|]. by intros [_ ?].
  - split; [done|]. done.
  - split.
    + intros ? [= <-]. split; [set_solver|].
      eexists. split; [by rewrite lookup_app_r, Nat.sub_diag by lia|done].
    + split; [done|]. by intros [_ ?].
Qed.

(** X3: a pool that holds each of its connection objects once, all of them
    existing, is still such a pool after the call; the pool before the call
    is a prefix of the pool after it, no connection object is deleted, and
    the adapter keeps its class, its descriptor and the state of its mutex. *)
Theorem getFreeConnection_keeps_pool (fuel : nat) (m : machine W) :
  pool_wf m →
  ∃ lease m',
    getFreeConnection respond (S (S fuel)) m = Returns lease m' ∧
    pool_wf m' ∧
    m_connections (this m) `prefix_of` m_connections (this m') ∧
    length (store m) ≤ length (store m') ∧
    class_of (this m') = class_of (this m) ∧
    m_fsDescriptor (this m') = m_fsDescriptor (this m) ∧
    m_mux (this m') = m_mux (this m).
Proof.
  intros [Hnd Hin].
  destruct (getFreeConnection_shape fuel m) as (lease & m' & Hr & (? & ? & ?) & Hcases).
  exists lease, m'. split; [exact Hr|].
  assert (pool_wf m' ∧ m_connections (this m) `prefix_of` m_connections (this m') ∧
          length (store m) ≤ length (store m')) as (? & ? & ?); [|done].
  unfold pool_wf.
  destruct Hcases as [(p & c0 & _ & _ & _ & -> & -> & _)
                     |[(_ & p & c0 & _ & _ & -> & _ & [(_ & _ & ->)|(_ & _ & ->)])
                      |(_ & _ & _ & [(_ & _ & -> & ->)|(_ & _ & -> & ->)])]];
    rewrite ?length_insert.
  1-4: by split_and!.
  rewrite length_app. simpl. split_and!.
  - apply NoDup_app. split_and!; [done| |apply NoDup_singleton].
    intros q Hq ->%list_elem_of_singleton. apply Hin in Hq. lia.
  - intros q [Hq| ->%list_elem_of_singleton]%elem_of_app; [apply Hin in Hq|]; lia.
  - by apply prefix_app_r.
  - lia.
Qed.

Lemma none_with_grown (pred : dfsConnection → bool) (st : list dfsConnection)
    (l : list nat) (c : dfsConnection) :
  none_with pred st l → pred c = false →
  none_with pred (st ++ [c]) (l ++ [length st]).
Proof.
  intros Hn Hc q c' Hq Hl.
  destruct (decide (q < length st)) as [Hlt|Hge].
  - rewrite lookup_app_l in Hl by done.
    apply elem_of_app in Hq as [Hq|Hq%list_elem_of_singleton]; [by eapply Hn|lia].
  - destruct (decide (q = length st)) as [->|Hne].
    + rewrite lookup_app_r, Nat.sub_diag in Hl by lia. by injection Hl as <-.
    + rewrite lookup_ge_None_2 in Hl by (rewrite length_app; simpl; lia). done.
Qed.

(** X4: in an environment where connect() always gives a connection, a
    client that takes [k] leases in a row from a pool without FreeReady and
    without broken connections (an empty pool, or one whose connections are
    all Busy) gets [k] different leases, over [k] new connection objects, all
    Busy with a non-null handle, appended to the pool in that order: the
    pool has grown by exactly [k]. *)
Theorem acquire_many_grows (fuel k : nat) (m : machine W) :
  (∀ w bld, (respond _ (DfsBuilderConnect bld) w).1 ≠ NULL) →
  none_with freeConnectionPredicate (store m) (m_connections (this m)) →
  none_with anyNonInitializedConnectionPredicate (store m) (m_connections (this m)) →
  ∃ m' new,
    acquire_many respond (S (S fuel)) k m
      = Returns (Some <$> seq (length (store m)) k) m' ∧
    m_connections (this m') = m_connections (this m) ++ seq (length (store m)) k ∧
    store m' = store m ++ new ∧ length new = k ∧
    Forall (λ c, state c = BUSY_OK ∧ connection c ≠ NULL) new ∧
    NoDup (Some <$> seq (length (store m)) k).
Proof.
  intros Hconnect. revert m. induction k as [|k IH]; intros m Hnf Hnu.
  - exists m, []. simpl. rewrite !app_nil_r. split_and!; try done. constructor.
  - apply find_first_None in Hnf as Hf. apply find_first_None in Hnu as Hu.
    pose proof (getFreeConnection_grow respond m fuel Hf Hu) as Hr.
    set (c_connect := DfsBuilderConnect (connect_builder (m_fsDescriptor (this m)))) in *.
    set (conn := answer respond c_connect m) in *.
    assert (conn ≠ NULL) as Hconn by apply Hconnect.
    rewrite (proj2 (Z.eqb_neq conn NULL)) in Hr by done.
    match type of Hr with _ = Returns _ ?x => set (m1 := x) in * end.
    destruct (IH m1) as (m' & new & Hrun & Hpool & Hstore & Hlen & Hall & Hnd).
    { unfold m1. cbn [store this m_connections]. by apply none_with_grown. }
    { unfold m1. cbn [store this m_connections]. by apply none_with_grown. }
    assert (length (store m1) = S (length (store m))) as Hl1.
    { unfold m1. cbn [store]. rewrite length_app. simpl. lia. }
    rewrite Hl1 in Hrun, Hpool.
    exists m', ({| connection := conn; state := BUSY_OK |} :: new).
    split_and!.
    + cbn [acquire_many]. rewrite (bind_Returns _ _ _ _ _ Hr).
      rewrite (bind_Returns _ _ _ _ _ Hrun). done.
    + rewrite Hpool. unfold m1. cbn [this m_connections seq].
      by rewrite <- app_assoc.
    + rewrite Hstore. unfold m1. cbn [store]. by rewrite <- app_assoc.
    + simpl. by rewrite Hlen.
    + constructor; done.
    + apply (NoDup_fmap_2 Some), NoDup_seq.
Qed.

(** X5: a lease as getFreeConnection hands it out is safe to use exactly
    when it is not empty.  Take any pass-through operation that is given the
    lease, alone or, as fileCopy and fsMove, next to a second lease.  If the
    lease is the empty one of a failed connect(), the operation dereferences
    the missing connection.  If it is not empty (and the other lease, if
    any, holds a connection), the operation reaches the native binding: it
    makes exactly one call, the corresponding native call, with the native
    connection of the leased connection object among the connections the
    call is made on, returns the answer of that call, and leaves pool and
    connection objects as they are. *)
Theorem lease_of_getFreeConnection_in_passthrough (fuel : nat) (m : machine W) :
  ∃ lease m',
    getFreeConnection respond (S (S fuel)) m = Returns lease m' ∧
    ∀ R (op : passthrough R), lease ∈ leases op →
      (lease = None → invoke respond op m' = BadDeref m') ∧
      (lease ≠ None →
       (∀ other, other ∈ leases op → other ≠ lease →
          is_Some (lease_bridge m' other)) →
       let native := native_call (corresponding_call op (bridge m')) in
       invoke respond op m'
         = Returns (native_result (corresponding_call op (bridge m'))
                      (answer respond native m'))
                   (after_call respond native m') ∧
       calls (after_call respond native m') = calls m' ++ [Ext native] ∧
       is_native (Ext native) = true ∧
       bridges (Ext native) = bridge m' <$> leases op ∧
       (∃ p c, lease = Some p ∧ store m' !! p = Some c ∧
               connection c ∈ bridges (Ext native)) ∧
       store (after_call respond native m') = store m' ∧
       this (after_call respond native m') = this m').
Proof.
  destruct (getFreeConnection_shape fuel m) as (lease & m' & Hr & _ & Hcases).
  exists lease, m'. split; [exact Hr|]. intros R op Hop. split.
  - intros ->. by apply (passthrough_invalid_lease respond op m' None).
  - intros Hsome Hothers native.
    assert (∃ p c, lease = Some p ∧ store m' !! p = Some c) as (p & c & Hp & Hc).
    { destruct Hcases as [(p & c0 & _ & Hc0 & -> & Hs & _)
                         |[(_ & p & c0 & _ & Hc0 & _ & _ & [(_ & -> & _)|(_ & -> & Hs)])
                          |(_ & _ & _ & [(_ & -> & _)|(_ & -> & Hs & _)])]];
        try done; eexists _, _; (split; [reflexivity|]); rewrite Hs.
      - by rewrite list_lookup_insert_eq by (by eapply lookup_lt_Some).
      - by rewrite list_lookup_insert_eq by (by eapply lookup_lt_Some).
      - by rewrite lookup_app_r, Nat.sub_diag by lia. }
    assert (bridge m' lease = connection c) as Hb.
    { unfold bridge. rewrite Hp. cbn [lease_bridge]. by rewrite Hc. }
    destruct (corresponding_call_bridges op (bridge m')) as [Hnative Hbridges].
    split.
    { apply passthrough_forwards. intros conn Hin.
      destruct (decide (conn = lease)) as [->|Hne]; [|by apply Hothers].
      rewrite Hp. cbn [lease_bridge]. rewrite Hc. by eexists. }
    split; [reflexivity|]. split; [exact Hnative|]. split; [exact Hbridges|].
    split; [|done].
    exists p, c. split; [exact Hp|]. split; [exact Hc|].
    fold native in Hbridges. rewrite Hbridges, <- Hb.
    by apply list_elem_of_fmap_2.
Qed.
End PoolFacts.

(** ** Priming, every way it can end *)

Section PrimingFacts.
Context {W : Type}.
Variable respond : ∀ R : Type, ext_call R → W → R * W.

Lemma bind_OutOfFuel {A B} (c : M W A) (k : A → M W B) (m : machine W) :
  c m = OutOfFuel → bind c k m = OutOfFuel.
Proof. unfold bind. by intros ->. Qed.

(** The loop of the reader either runs out of fuel, having seen positive
    answers only, or stops at the first answer that is not positive. *)
Lemma reader_loop_outcome (conn : raiiDfsConnection) (handle : dfsFile) (buffer : pointer)
    (fs : fsBridge) (fuel : nat) :
  ∀ (m : machine W) (last_read bytes : Z),
    lease_bridge m conn = Some fs →
    let c := DfsRead fs handle buffer BUFFER_SIZE in
    let s := λ k, match k with
                  | O => last_read
                  | S j => answer respond c (after_calls respond c j m)
                  end in
    (reader_loop respond fuel conn handle buffer last_read bytes m = OutOfFuel ∧
     ∀ k, k ≤ fuel → (0 < s k)%Z)
    ∨ ∃ n bytes',
        n ≤ fuel ∧ (∀ k, k < n → (0 < s k)%Z) ∧ (s n ≤ 0)%Z ∧
        reader_loop respond fuel conn handle buffer last_read bytes m
          = Returns (s n, bytes') (after_calls respond c n m).
Proof.
  induction fuel as [|fuel IH]; intros m last_read bytes Hv c s.
  - destruct (Z.ltb_spec 0 last_read) as [Hpos|Hnon].
    + left. simpl. rewrite (proj2 (Z.ltb_lt 0 last_read)) by done.
      split; [done|]. intros k Hk. replace k with 0 by lia. done.
    + right. exists 0, bytes. simpl. rewrite (proj2 (Z.ltb_ge 0 last_read)) by done.
      split_and!; [lia| intros; lia | done | done].
  - destruct (Z.ltb_spec 0 last_read) as [Hpos|Hnon].
    + assert (reader_loop respond (S fuel) conn handle buffer last_read bytes m
              = reader_loop respond fuel conn handle buffer (answer respond c m)
                  (wrap32 (bytes + last_read)) (after_call respond c m)) as Hstep.
      { simpl. rewrite (proj2 (Z.ltb_lt 0 last_read)) by done.
        rewrite (bind_Returns _ _ _ _ _ (bridge_of_valid _ _ _ Hv)).
        by rewrite (bind_Returns _ _ _ _ _ (call_Returns _ _ _)). }
      rewrite Hstep.
      assert (∀ k, s (S k) =
                   match k with
                   | O => answer respond c m
                   | S j => answer respond c (after_calls respond c j (after_call respond c m))
                   end) as Hs.
      { intros [|j]; [done|]. simpl. by rewrite after_calls_S. }
      destruct (IH (after_call respond c m) (answer respond c m)
                  (wrap32 (bytes + last_read))) as [[Hout Hall]|(n & b & Hn & Hall & Hend & Hr)].
      { by rewrite (lease_bridge_store m). }
      * left. split; [exact Hout|]. intros [|k] Hk; [done|].
        rewrite Hs. apply Hall. lia.
      * right. exists (S n), b. split_and!.
        -- lia.
        -- intros [|k] Hk; [done|]. rewrite Hs. apply Hall. lia.
        -- by rewrite Hs.
        -- rewrite Hr, <- Hs. by rewrite after_calls_S.
    + right. exists 0, bytes. simpl. rewrite (proj2 (Z.ltb_ge 0 last_read)) by done.
      split_and!; [lia| intros; lia | done | done].
Qed.

Lemma reader_outcome (conn : raiiDfsConnection) (handle : dfsFile) (buffer : pointer)
    (fs : fsBridge) (fuel : nat) (m : machine W) :
  lease_bridge m conn = Some fs →
  let c := DfsRead fs handle buffer BUFFER_SIZE in
  (reader respond fuel conn handle buffer m = OutOfFuel ∧
   ∀ k, k ≤ fuel → (0 < answer respond c (after_calls respond c k m))%Z)
  ∨ ∃ n bytes,
      n ≤ fuel ∧ ends_at respond c m n ∧
      reader respond fuel conn handle buffer m
        = Returns (answer respond c (after_calls respond c n m), bytes)
                  (after_calls respond c (S n) m).
Proof.
  intros Hv c. unfold reader.
  rewrite (bind_Returns _ _ _ _ _ (bridge_of_valid _ _ _ Hv)).
  rewrite (bind_Returns _ _ _ _ _ (call_Returns _ _ _)). fold c.
  assert (∀ k, match k with
               | O => answer respond c m
               | S j => answer respond c (after_calls respond c j (after_call respond c m))
               end = answer respond c (after_calls respond c k m)) as Hs.
  { intros [|j]; [done|]. by rewrite after_calls_S. }
  destruct (reader_loop_outcome conn handle buffer fs fuel (after_call respond c m)
              (answer respond c m) 0%Z) as [[Hout Hall]|(n & b & Hn & Hall & Hend & Hr)].
  { by rewrite (lease_bridge_store m). }
  - left. split; [exact Hout|]. intros k Hk. rewrite <- Hs. by apply Hall.
  - right. exists n, b. split; [done|]. split.
    + split; [intros k Hk; rewrite <- Hs; by apply Hall|by rewrite <- Hs].
    + fold c in Hr. rewrite Hr, Hs. by rewrite after_calls_S.
Qed.

Section Outcomes.
Variables (fuel : nat) (conn : raiiDfsConnection) (path : string).
Variables (flags bufferSize replication blocksize : Z).
Variables (m : machine W) (fs : fsBridge).

Let c_open := DfsOpenFile fs path flags bufferSize replication blocksize.
Let handle := answer respond c_open m.
Let m1 := after_call respond c_open m.
Let c_malloc := Malloc (1 * BUFFER_SIZE).
Let buffer := answer respond c_malloc m1.
Let m2 := after_call respond c_malloc m1.
Let c_read := DfsRead fs handle buffer BUFFER_SIZE.
Let c_close := DfsCloseFile fs handle.
Let last_read (n : nat) := answer respond c_read (after_calls respond c_read n m2).
Let m3 (n : nat) := after_calls respond c_read (S n) m2.
Let m4 (n : nat) := after_call respond (Free buffer) (m3 n).
Let m5 (n : nat) := after_call respond c_close (m4 n).
Let m6 (n : nat) := after_call respond c_open (m5 n).

(** Every way the Tachyon fileOpen can return, given a lease that holds a
    connection. *)
Lemma Tachyon_fileOpen_returns (r : dfsFile) (m' : machine W) :
  lease_bridge m conn = Some fs →
  Tachyon_fileOpen respond fuel conn path flags bufferSize replication blocksize m
    = Returns r m' →
  (handle = NULL ∧ r = NULL ∧ m' = m1)
  ∨ (handle ≠ NULL ∧ flags = O_WRONLY ∧ r = handle ∧ m' = m1)
  ∨ (handle ≠ NULL ∧ flags ≠ O_WRONLY ∧ buffer = NULL ∧ r = NULL ∧
     m' = after_call respond c_close m2)
  ∨ (handle ≠ NULL ∧ flags ≠ O_WRONLY ∧ buffer ≠ NULL ∧
     ∃ n, n ≤ fuel ∧ ends_at respond c_read m2 n ∧
          (last_read n ≠ 0%Z ∧ r = NULL ∧ m' = m3 n
           ∨ last_read n = 0%Z ∧ answer respond c_close (m4 n) ≠ 0%Z ∧
             r = NULL ∧ m' = m5 n
           ∨ last_read n = 0%Z ∧ answer respond c_close (m4 n) = 0%Z ∧
             r = answer respond c_open (m5 n) ∧ m' = m6 n)).
Proof.
  intros Hv Hrun.
  destruct (decide (handle = NULL)) as [Hh|Hh].
  { rewrite (Tachyon_fileOpen_base_failed respond conn path flags bufferSize replication
               blocksize m fs Hv fuel Hh) in Hrun.
    injection Hrun as <- <-. by left. }
  right. destruct (decide (flags = O_WRONLY)) as [Hf|Hf].
  { left. revert Hrun. unfold Tachyon_fileOpen.
    rewrite (bind_Returns _ _ _ _ _ (bridge_of_valid _ _ _ Hv)).
    rewrite (bind_Returns _ _ _ _ _ (call_Returns _ _ _)).
    fold c_open handle m1.
    rewrite (proj2 (Z.eqb_neq handle NULL)), (proj2 (Z.eqb_eq flags O_WRONLY)) by done.
    intros [= <- <-]. done. }
  right. destruct (decide (buffer = NULL)) as [Hb|Hb].
  { rewrite (Tachyon_fileOpen_alloc_failed respond conn path flags bufferSize replication
               blocksize m fs Hv fuel Hh Hf Hb) in Hrun.
    injection Hrun as <- <-. by left. }
  right. split_and!; try done.
  destruct (reader_outcome conn handle buffer fs fuel m2) as [[Hout _]|(n & b & Hn & He & Hr)].
  { by rewrite (lease_bridge_store m). }
  - exfalso. revert Hrun. unfold Tachyon_fileOpen.
    rewrite (bind_Returns _ _ _ _ _ (bridge_of_valid _ _ _ Hv)).
    rewrite (bind_Returns _ _ _ _ _ (call_Returns _ _ _)).
    fold c_open handle m1.
    rewrite (proj2 (Z.eqb_neq handle NULL)), (proj2 (Z.eqb_neq flags O_WRONLY)) by done.
    rewrite (bind_Returns _ _ _ _ _ (call_Returns _ _ _)).
    fold c_malloc buffer m2.
    rewrite (proj2 (Z.eqb_neq buffer NULL)) by done.
    by rewrite (bind_OutOfFuel _ _ _ Hout).
  - exists n. split; [done|]. split; [done|].
    rewrite (Tachyon_fileOpen_read respond conn path flags bufferSize replication blocksize
               m fs Hv fuel n Hh Hf Hb He Hn) in Hrun.
    cbv zeta in Hrun.
    fold c_open handle m1 c_malloc buffer m2 c_read c_close in Hrun.
    fold (last_read n) (m3 n) in Hrun. fold (m4 n) in Hrun. fold (m5 n) in Hrun.
    fold (m6 n) in Hrun.
    destruct (Z.eqb_spec (last_read n) 0) as [Hl|Hl].
    + destruct (Z.eqb_spec (answer respond c_close (m4 n)) 0) as [Hc|Hc];
        injection Hrun as <- <-; [right; right|right; left]; done.
    + injection Hrun as <- <-. by left.
Qed.

Lemma calls_of_m3 (n : nat) :
  calls (m3 n) = calls m ++ [Ext c_open; Ext c_malloc] ++ replicate (S n) (Ext c_read).
Proof.
  unfold m3. rewrite (proj2 (proj2 (proj2 (after_calls_frame respond c_read (S n) m2)))).
  unfold m2, m1, after_call. cbn [calls]. by rewrite <- !app_assoc.
Qed.

Lemma frame_of_m3 (n : nat) :
  store (m3 n) = store m ∧ this (m3 n) = this m ∧ accesses (m3 n) = accesses m.
Proof.
  destruct (after_calls_frame respond c_read (S n) m2) as (H1 & H2 & H3 & _).
  unfold m3. by rewrite H1, H2, H3.
Qed.

(** X6: with flags other than O_WRONLY, a handle that is not NULL comes back
    only from a complete priming: the base open and the allocation
    succeeded, the reads went on until one answered exactly 0, the buffer
    was freed, the close of the first handle answered 0, and the handle
    returned is the answer of the second open.  No handle is ever returned
    for a file that was read only in part. *)
Theorem Tachyon_fileOpen_handle_means_primed (r : dfsFile) (m' : machine W) :
  lease_bridge m conn = Some fs →
  flags ≠ O_WRONLY →
  Tachyon_fileOpen respond fuel conn path flags bufferSize replication blocksize m
    = Returns r m' →
  r ≠ NULL →
  handle ≠ NULL ∧ buffer ≠ NULL ∧
  ∃ n, n ≤ fuel ∧ ends_at respond c_read m2 n ∧ last_read n = 0%Z ∧
       answer respond c_close (m4 n) = 0%Z ∧
       r = answer respond c_open (m5 n) ∧
       calls m' = calls m ++ [Ext c_open; Ext c_malloc] ++ replicate (S n) (Ext c_read)
                    ++ [Ext (Free buffer); Ext c_close; Ext c_open].
Proof.
  intros Hv Hf Hrun Hr.
  destruct (Tachyon_fileOpen_returns r m' Hv Hrun)
    as [(_ & ? & _)|[(_ & ? & _)|[(_ & _ & _ & ? & _)
       |(Hh & _ & Hb & n & Hn & He & [(_ & ? & _)|[(_ & _ & ? & _)|(Hl & Hc & -> & ->)]])]]];
    try done.
  split; [done|]. split; [done|]. exists n. split_and!; try done.
  unfold m6, m5, m4, after_call. cbn [calls]. rewrite calls_of_m3.
  by rewrite <- !app_assoc.
Qed.

(** X7: however the Tachyon fileOpen returns, it has not touched the pool,
    the connection objects, the adapter or its mutex; the first call it made
    is the base open on the native connection of the lease, and every later
    call is either on that same native connection or a malloc/free. *)
Theorem Tachyon_fileOpen_frame (r : dfsFile) (m' : machine W) :
  lease_bridge m conn = Some fs →
  Tachyon_fileOpen respond fuel conn path flags bufferSize replication blocksize m
    = Returns r m' →
  store m' = store m ∧ this m' = this m ∧ accesses m' = accesses m ∧
  ∃ made, calls m' = calls m ++ Ext c_open :: made ∧
          Forall (λ e, bridges e = [fs] ∨ is_native e = false) made.
Proof.
  intros Hv Hrun.
  assert (∀ n, Forall (λ e, bridges e = [fs] ∨ is_native e = false)
                 (Ext c_malloc :: replicate (S n) (Ext c_read))) as Hreads.
  { intros n. constructor; [by right|]. apply Forall_replicate. by left. }
  destruct (Tachyon_fileOpen_returns r m' Hv Hrun)
    as [(_ & _ & ->)|[(_ & _ & _ & ->)|[(_ & _ & _ & _ & ->)
       |(_ & _ & _ & n & _ & _ & [(_ & _ & ->)|[(_ & _ & _ & ->)|(_ & _ & _ & ->)]])]]].
  - split_and!; try done. exists []. split; [done|constructor].
  - split_and!; try done. exists []. split; [done|constructor].
  - split_and!; try done. exists [Ext c_malloc; Ext c_close].
    split; [|repeat constructor; by (left + right)].
    unfold m2, m1, after_call. cbn [calls]. by rewrite <- !app_assoc.
  - destruct (frame_of_m3 n) as (? & ? & ?). split_and!; try done.
    exists (Ext c_malloc :: replicate (S n) (Ext c_read)).
    split; [by rewrite calls_of_m3|apply Hreads].
  - destruct (frame_of_m3 n) as (? & ? & ?). split_and!; try done.
    exists ((Ext c_malloc :: replicate (S n) (Ext c_read)) ++ [Ext (Free buffer); Ext c_close]).
    split.
    + unfold m5, m4, after_call. cbn [calls]. rewrite calls_of_m3.
      rewrite <- !app_assoc. done.
    + apply Forall_app. split; [apply Hreads|].
      repeat constructor; by (left + right).
  - destruct (frame_of_m3 n) as (? & ? & ?). split_and!; try done.
    exists ((Ext c_malloc :: replicate (S n) (Ext c_read))
              ++ [Ext (Free buffer); Ext c_close; Ext c_open]).
    split.
    + unfold m6, m5, m4, after_call. cbn [calls]. rewrite calls_of_m3.
      rewrite <- !app_assoc. done.
    + apply Forall_app. split; [apply Hreads|].
      repeat constructor; by (left + right).
Qed.

(** X8: the priming read has no bound of its own.  On a stream whose reads
    keep answering a positive count the Tachyon fileOpen (base open and
    allocation having succeeded, flags other than O_WRONLY) never returns:
    whatever number of loop iterations it is allowed, it is still reading
    when they are used up. *)
Theorem Tachyon_fileOpen_endless_stream :
  lease_bridge m conn = Some fs →
  handle ≠ NULL → flags ≠ O_WRONLY → buffer ≠ NULL →
  (∀ k, (0 < answer respond c_read (after_calls respond c_read k m2))%Z) →
  Tachyon_fileOpen respond fuel conn path flags bufferSize replication blocksize m
    = OutOfFuel.
Proof.
  intros Hv Hh Hf Hb Hpos. unfold Tachyon_fileOpen.
  rewrite (bind_Returns _ _ _ _ _ (bridge_of_valid _ _ _ Hv)).
  rewrite (bind_Returns _ _ _ _ _ (call_Returns _ _ _)).
  fold c_open handle m1.
  rewrite (proj2 (Z.eqb_neq handle NULL)), (proj2 (Z.eqb_neq flags O_WRONLY)) by done.
  rewrite (bind_Returns _ _ _ _ _ (call_Returns _ _ _)).
  fold c_malloc buffer m2.
  rewrite (proj2 (Z.eqb_neq buffer NULL)) by done.
  apply bind_OutOfFuel.
  destruct (reader_outcome conn handle buffer fs fuel m2) as [[Hout _]|(n & b & _ & [_ He] & _)].
  { by rewrite (lease_bridge_store m). }
  - exact Hout.
  - fold c_read in He. specialize (Hpos n). lia.
Qed.

(** X9: when the base open gives NULL, the Tachyon fileOpen returns NULL
    after that one call, whatever the flags: nothing is allocated, read or
    closed. *)
Theorem Tachyon_fileOpen_base_open_fails :
  lease_bridge m conn = Some fs →
  handle = NULL →
  Tachyon_fileOpen respond fuel conn path flags bufferSize replication blocksize m
    = Returns NULL m1 ∧
  calls m1 = calls m ++ [Ext c_open].
Proof.
  intros Hv Hh. split; [|done].
  by apply Tachyon_fileOpen_base_failed.
Qed.

(** X10: when the file has been read to its end but the close of the first
    handle answers something other than 0, the Tachyon fileOpen returns
    NULL; the scratch buffer has been freed and the path is not opened
    again. *)
Theorem Tachyon_fileOpen_close_fails (n : nat) :
  lease_bridge m conn = Some fs →
  handle ≠ NULL → flags ≠ O_WRONLY → buffer ≠ NULL →
  ends_at respond c_read m2 n → last_read n = 0%Z →
  answer respond c_close (m4 n) ≠ 0%Z →
  n ≤ fuel →
  Tachyon_fileOpen respond fuel conn path flags bufferSize replication blocksize m
    = Returns NULL (m5 n) ∧
  calls (m5 n) = calls m ++ [Ext c_open; Ext c_malloc] ++ replicate (S n) (Ext c_read)
                   ++ [Ext (Free buffer); Ext c_close].
Proof.
  intros Hv Hh Hf Hb He Hl Hc Hn. split.
  - rewrite (Tachyon_fileOpen_read respond conn path flags bufferSize replication blocksize
               m fs Hv fuel n Hh Hf Hb He Hn).
    cbv zeta. fold c_open handle m1 c_malloc buffer m2 c_read c_close.
    fold (last_read n) (m3 n). fold (m4 n). fold (m5 n).
    rewrite Hl. simpl (0 =? 0)%Z. cbv iota.
    by rewrite (proj2 (Z.eqb_neq _ 0) Hc).
  - unfold m5, m4, after_call. cbn [calls]. rewrite calls_of_m3.
    by rewrite <- !app_assoc.
Qed.
End Outcomes.
End PrimingFacts.

(** ** The adapter directory across calls *)

Section DirectoryFacts.
Context {W : Type}.
Variable respond : ∀ R : Type, ext_call R → W → R * W.
Variable DEFAULT_FS : string.

Lemma with_adapter_other (d d' : FileSystemDescriptor) (reg : CacheLayerRegistry) :
  (dfs_type d', host d') ≠ (dfs_type d, host d) →
  getFileSystemDescriptor (with_adapter d reg) d' = getFileSystemDescriptor reg d'.
Proof.
  intros Hne. unfold with_adapter. cbv zeta.
  destruct (default ∅ (m_filesystems reg !! dfs_type d) !! host d) eqn:E; [done|].
  unfold getFileSystemDescriptor at 1. simpl.
  destruct (decide (dfs_type d = dfs_type d')) as [Et|Et].
  - rewrite Et, lookup_insert_eq.
    assert (host d ≠ host d') by congruence.
    rewrite lookup_insert_ne by done.
    by rewrite <- Et, getFileSystemDescriptor_default, Et.
  - by rewrite lookup_insert_ne.
Qed.

Lemma with_adapter_keeps (d : FileSystemDescriptor) (reg : CacheLayerRegistry) :
  (∀ d' a, getFileSystemDescriptor reg d' = Some a →
           getFileSystemDescriptor (with_adapter d reg) d' = Some a) ∧
  adapters reg `prefix_of` adapters (with_adapter d reg) ∧
  length (adapters (with_adapter d reg)) ≤ S (length (adapters reg)) ∧
  m_createFromSelect (with_adapter d reg) = m_createFromSelect reg.
Proof.
  split; [|unfold with_adapter; cbv zeta;
           destruct (default ∅ (m_filesystems reg !! dfs_type d) !! host d);
           simpl; rewrite ?length_app; simpl;
           split_and!; try done; try lia; by apply prefix_app_r].
  intros d' a Ha.
  destruct (decide ((dfs_type d', host d') = (dfs_type d, host d))) as [[= Et Eh]|Hne].
  - assert (getFileSystemDescriptor reg d = Some a) as Hd.
    { revert Ha. unfold getFileSystemDescriptor. by rewrite Et, Eh. }
    assert (getFileSystemDescriptor (with_adapter d reg) d' =
            getFileSystemDescriptor (with_adapter d reg) d) as ->.
    { unfold getFileSystemDescriptor. by rewrite Et, Eh. }
    by rewrite getFileSystemDescriptor_with_adapter, Hd.
  - by rewrite with_adapter_other.
Qed.

Lemma with_adapter_wf (d : FileSystemDescriptor) (reg : CacheLayerRegistry) :
  registry_wf reg → registry_wf (with_adapter d reg).
Proof.
  intros Hwf. unfold with_adapter. cbv zeta.
  destruct (default ∅ (m_filesystems reg !! dfs_type d) !! host d) eqn:E; [done|].
  intros t h by_host a Ht Hh. simpl in Ht. cbn [adapters].
  destruct (decide (dfs_type d = t)) as [<-|Hne].
  - rewrite lookup_insert_eq in Ht. injection Ht as <-.
    destruct (decide (host d = h)) as [<-|Hneh].
    + rewrite lookup_insert_eq in Hh. injection Hh as <-.
      eexists. split; [by rewrite lookup_app_r, Nat.sub_diag by lia|].
      by destruct (bool_decide (dfs_type d = tachyon)).
    + rewrite lookup_insert_ne in Hh by done.
      destruct (m_filesystems reg !! dfs_type d) as [bh|] eqn:Em;
        [|simpl in Hh; by rewrite lookup_empty in Hh].
      destruct (Hwf _ _ _ _ Em Hh) as (obj & Ho & ?).
      exists obj. split; [by apply lookup_app_l_Some|done].
  - rewrite lookup_insert_ne in Ht by done.
    destruct (Hwf _ _ _ _ Ht Hh) as (obj & Ho & ?).
    exists obj. split; [by apply lookup_app_l_Some|done].
Qed.

Lemma setupFileSystem_registry (d : FileSystemDescriptor) (w : W) (reg : CacheLayerRegistry) :
  (setupFileSystem respond DEFAULT_FS d w reg).2 = reg
  ∨ ∃ d1, (setupFileSystem respond DEFAULT_FS d w reg).2 = with_adapter d1 reg.
Proof.
  rewrite setupFileSystem_phases.
  destruct (if bool_decide (host d = DEFAULT_FS) then _ else _) as [[status d1] w1].
  destruct (status =? 0)%Z; [right; by exists d1|by left].
Qed.

(** X11: the directory stays well-formed.  The empty directory is; and if
    every entry points to an adapter object built for the entry's own (type,
    host), of class TachyonFileSystemDescriptorBound exactly for type
    tachyon, then so it is after setupFileSystem, whatever the descriptor
    and whatever the resolver answers.  In such a directory two endpoints
    that differ in type or in host never share an adapter object. *)
Theorem setupFileSystem_keeps_directory (d : FileSystemDescriptor) (w : W)
    (reg : CacheLayerRegistry) :
  registry_wf {| adapters := []; m_filesystems := ∅; m_createFromSelect := ∅ |} ∧
  (registry_wf reg →
   let reg1 := (setupFileSystem respond DEFAULT_FS d w reg).2 in
   registry_wf reg1 ∧
   ∀ d1 d2 a, getFileSystemDescriptor reg1 d1 = Some a →
              getFileSystemDescriptor reg1 d2 = Some a →
              dfs_type d1 = dfs_type d2 ∧ host d1 = host d2).
Proof.
  split.
  { intros t h by_host a Ht. simpl in Ht. by rewrite lookup_empty in Ht. }
  intros Hwf reg1.
  assert (registry_wf reg1) as Hwf1.
  { unfold reg1. destruct (setupFileSystem_registry d w reg) as [->|[d1 ->]]; [done|].
    by apply with_adapter_wf. }
  split; [exact Hwf1|].
  intros d1 d2 a H1 H2. unfold getFileSystemDescriptor in H1, H2.
  destruct (m_filesystems reg1 !! dfs_type d1) as [b1|] eqn:E1; [|done].
  destruct (m_filesystems reg1 !! dfs_type d2) as [b2|] eqn:E2; [|done].
  destruct (Hwf1 _ _ _ _ E1 H1) as (o1 & Ho1 & <- & <- & _).
  destruct (Hwf1 _ _ _ _ E2 H2) as (o2 & Ho2 & <- & <- & _).
  rewrite Ho1 in Ho2. by injection Ho2 as <-.
Qed.

(** X12: setupFileSystem never takes anything away.  Whatever descriptor it
    is given and however the resolution goes, every adapter that could be
    looked up before can be looked up after, at the same address; the adapter
    objects of before are still there, followed by at most one new one; the
    create-from-select pairings are not touched; and when the answer is not
    OK the registry is exactly as before. *)
Theorem setupFileSystem_only_adds (d : FileSystemDescriptor) (w : W)
    (reg : CacheLayerRegistry) :
  let reg1 := (setupFileSystem respond DEFAULT_FS d w reg).2 in
  (∀ d' a, getFileSystemDescriptor reg d' = Some a →
           getFileSystemDescriptor reg1 d' = Some a) ∧
  adapters reg `prefix_of` adapters reg1 ∧
  length (adapters reg1) ≤ S (length (adapters reg)) ∧
  m_createFromSelect reg1 = m_createFromSelect reg ∧
  ((setupFileSystem respond DEFAULT_FS d w reg).1.1.1 ≠ OK → reg1 = reg).
Proof.
  intros reg1. unfold reg1. rewrite setupFileSystem_phases.
  destruct (if bool_decide (host d = DEFAULT_FS) then _ else _) as [[status d1] w1].
  destruct (status =? 0)%Z; simpl.
  - destruct (with_adapter_keeps d1 reg) as (? & ? & ? & ?). by split_and!.
  - split_and!; try done. lia.
Qed.

(** X13: the port and the credentials of a descriptor are not part of the
    adapter's identity.  Once an adapter has been set up from a descriptor
    with a concrete host, setupFileSystem with any descriptor of the same
    type and host answers OK and changes nothing, and the adapter found for
    it is still the object built from the first descriptor, with the first
    descriptor's port and credentials. *)
Theorem setupFileSystem_ignores_port (d1 d2 : FileSystemDescriptor) (w1 w2 : W)
    (reg : CacheLayerRegistry) :
  host d1 ≠ DEFAULT_FS →
  dfs_type d2 = dfs_type d1 → host d2 = host d1 →
  getFileSystemDescriptor reg d1 = None →
  let reg1 := (setupFileSystem respond DEFAULT_FS d1 w1 reg).2 in
  setupFileSystem respond DEFAULT_FS d2 w2 reg1 = (OK, d2, w2, reg1) ∧
  ∃ a obj, getFileSystemDescriptor reg1 d2 = Some a ∧
           adapters reg1 !! a = Some obj ∧ m_fsDescriptor obj = d1.
Proof.
  intros Hh Et Eh Hnone reg1.
  assert (reg1 = with_adapter d1 reg) as Hreg1.
  { unfold reg1. by rewrite setupFileSystem_concrete. }
  assert (getFileSystemDescriptor reg1 d2 = Some (length (adapters reg))) as Hg.
  { assert (getFileSystemDescriptor reg1 d2 = getFileSystemDescriptor reg1 d1) as ->
      by (unfold getFileSystemDescriptor; by rewrite Et, Eh).
    by rewrite Hreg1, getFileSystemDescriptor_with_adapter, Hnone. }
  split.
  - rewrite setupFileSystem_concrete by congruence. f_equal.
    rewrite getFileSystemDescriptor_default in Hg.
    unfold with_adapter. cbv zeta. by rewrite Hg.
  - exists (length (adapters reg)). eexists. split; [exact Hg|].
    rewrite Hreg1. unfold with_adapter. cbv zeta.
    rewrite getFileSystemDescriptor_default in Hnone. rewrite Hnone. cbn [adapters].
    rewrite lookup_app_r, Nat.sub_diag by lia.
    split; [done|]. by destruct (bool_decide (dfs_type d1 = tachyon)).
Qed.

(** X14: after a successful resolution the adapter is filed under the
    resolved host, not under the sentinel: a lookup with the caller's
    original descriptor (host still the sentinel) finds exactly what it
    found before the call, while the descriptor handed back does find the
    adapter. *)
Theorem setupFileSystem_files_under_resolved_host (d d' : FileSystemDescriptor)
    (w w' : W) (reg : CacheLayerRegistry) :
  host d = DEFAULT_FS →
  resolveFsAddress respond d w = (0%Z, d', w') →
  host d' ≠ DEFAULT_FS →
  ∃ reg1,
    setupFileSystem respond DEFAULT_FS d w reg = (OK, d', w', reg1) ∧
    getFileSystemDescriptor reg1 d = getFileSystemDescriptor reg d ∧
    is_Some (getFileSystemDescriptor reg1 d').
Proof.
  intros Hh Hres Hh'. exists (with_adapter d' reg).
  rewrite setupFileSystem_phases, bool_decide_eq_true_2, Hres by done.
  split; [done|]. split.
  - apply with_adapter_other. intros [= _ E]. congruence.
  - rewrite getFileSystemDescriptor_with_adapter. eauto.
Qed.

(** X15: resolveFsAddress at its edges.  It sets a port on the builder it
    hands to the resolver whatever the descriptor's port is, with no test of
    its sign (for a port from 0 to 65535, which fits the builder's unsigned
    port, the builder carries that very port), and it never passes a backend
    type; credentials, password and the valid flag of the descriptor are
    never changed; on a nonzero status the host is kept, while port and type
    are whatever the resolver stored through the pointers, with no
    normalisation; on status zero the port is not negative. *)
Theorem resolveFsAddress_edges (d : FileSystemDescriptor) (w : W) :
  ∃ bld status h p t w' d',
    respond _ (DfsGetDefaultFsHostPortType bld (port d) (dfs_type d)) w
      = (status, h, p, t, w') ∧
    (is_Some (bld_port bld) ∧
     ((0 ≤ port d < 65536)%Z → bld_port bld = Some (port d))) ∧
    bld_type bld = None ∧
    bld_host bld = (if bool_decide (host d = EmptyString) then None else Some (host d)) ∧
    resolveFsAddress respond d w = (status, d', w') ∧
    credentials d' = credentials d ∧ password d' = password d ∧ valid d' = valid d ∧
    dfs_type d' = t ∧
    (status ≠ 0%Z → host d' = host d ∧ port d' = p) ∧
    (status = 0%Z → host d' = h ∧ port d' = Z.max 0 p ∧ (0 ≤ port d')%Z).
Proof.
  unfold resolveFsAddress.
  match goal with |- context [respond _ ?c w] =>
    destruct (respond _ c w) as [[[[status h] p] t] w'] eqn:E end.
  destruct (Z.eqb_spec status 0) as [->|Hs].
  - eexists _, 0%Z, h, p, t, w', _. split; [exact E|].
    split; [by split; [eexists|]|]. split; [by destruct (bool_decide (host d = EmptyString))|].
    split; [by destruct (bool_decide (host d = EmptyString))|].
    split; [reflexivity|]. simpl.
    split_and!; try done.
    intros _. destruct (Z.ltb_spec p 0); split_and!; try done; lia.
  - eexists _, status, h, p, t, w', _. split; [exact E|].
    split; [by split; [eexists|]|]. split; [by destruct (bool_decide (host d = EmptyString))|].
    split; [by destruct (bool_decide (host d = EmptyString))|].
    split; [reflexivity|]. simpl. split_and!; try done.
Qed.

(** X16: the pairing table and the adapter directory are independent, and
    pairings are independent of each other: registering or unregistering a
    pairing for one local key changes neither the pairing of any other key
    nor any adapter lookup, and setting up a filesystem changes no pairing. *)
Theorem createFromSelect_frame (L L' R : Z) (reg : CacheLayerRegistry) :
  L' ≠ L →
  getCreateFromSelectScenario L' (registerCreateFromSelectScenario L R reg).2
    = getCreateFromSelectScenario L' reg ∧
  getCreateFromSelectScenario L' (unregisterCreateFromSelectScenario L reg).2
    = getCreateFromSelectScenario L' reg ∧
  (∀ d, getFileSystemDescriptor (registerCreateFromSelectScenario L R reg).2 d
        = getFileSystemDescriptor reg d) ∧
  (∀ d, getFileSystemDescriptor (unregisterCreateFromSelectScenario L reg).2 d
        = getFileSystemDescriptor reg d) ∧
  (∀ d w, getCreateFromSelectScenario L' (setupFileSystem respond DEFAULT_FS d w reg).2
          = getCreateFromSelectScenario L' reg).
Proof.
  intros Hne. split_and!.
  - unfold registerCreateFromSelectScenario, getCreateFromSelectScenario.
    destruct (m_createFromSelect reg !! L); [done|]. simpl.
    by rewrite lookup_insert_ne.
  - unfold unregisterCreateFromSelectScenario, getCreateFromSelectScenario. simpl.
    by rewrite lookup_delete_ne.
  - intros d. unfold registerCreateFromSelectScenario.
    by destruct (m_createFromSelect reg !! L).
  - done.
  - intros d w. unfold getCreateFromSelectScenario.
    destruct (setupFileSystem_registry d w reg) as [->|[d1 ->]]; [done|].
    by rewrite (proj2 (proj2 (proj2 (with_adapter_keeps d1 reg)))).
Qed.

(** X17: unregistering a local key that has no pairing answers false and
    leaves the registry exactly as it is; and whatever the registry, once a
    key has been unregistered it can be registered again, with a new remote,
    which is then the one the lookup returns. *)
Theorem createFromSelect_unregister_then_register (L R2 : Z) (reg : CacheLayerRegistry) :
  (m_createFromSelect reg !! L = None →
   unregisterCreateFromSelectScenario L reg = (false, reg)) ∧
  ∃ reg2,
    registerCreateFromSelectScenario L R2 (unregisterCreateFromSelectScenario L reg).2
      = (true, reg2) ∧
    getCreateFromSelectScenario L reg2 = (R2, true).
Proof.
  split.
  - intros Hnone. unfold unregisterCreateFromSelectScenario. rewrite Hnone.
    rewrite bool_decide_eq_false_2 by done. f_equal.
    unfold set_createFromSelect. rewrite delete_id by done. by destruct reg.
  - unfold registerCreateFromSelectScenario, unregisterCreateFromSelectScenario.
    simpl. rewrite lookup_delete_eq. eexists. split; [done|].
    unfold getCreateFromSelectScenario. simpl. by rewrite lookup_insert_eq.
Qed.
End DirectoryFacts.

(** ** connect, file operations, init and printing *)

Section MiscFacts.
Context {W : Type}.
Variable respond : ∀ R : Type, ext_call R → W → R * W.

(** X18: connect() at its edges.  It returns what _dfsBuilderConnect answers
    for the builder it has set up from the adapter's descriptor, and touches
    neither pool nor connection objects.  A port is set on that builder only
    when the descriptor's port is positive: with port 0 or a negative port
    none is set, and a port from 1 to 65535, which fits the builder's
    unsigned port, is carried as it is.  With an empty host the builder is
    set up for the local filesystem and the backend type is not passed on;
    with any other host both host and type are. *)
Theorem connect_edges (m : machine W) :
  let d := m_fsDescriptor (this m) in
  ∃ bld,
    connect respond m
      = Returns (answer respond (DfsBuilderConnect bld) m)
                (after_call respond (DfsBuilderConnect bld) m) ∧
    store (after_call respond (DfsBuilderConnect bld) m) = store m ∧
    this (after_call respond (DfsBuilderConnect bld) m) = this m ∧
    ((0 < port d)%Z → is_Some (bld_port bld)) ∧
    ((0 < port d < 65536)%Z → bld_port bld = Some (port d)) ∧
    ((port d ≤ 0)%Z → bld_port bld = None) ∧
    (host d = EmptyString → bld_host bld = None ∧ bld_type bld = None) ∧
    (host d ≠ EmptyString → bld_host bld = Some (host d) ∧ bld_type bld = Some (dfs_type d)).
Proof.
  intros d. exists (connect_builder d). split; [apply connect_Returns|].
  split; [done|]. split; [done|].
  unfold connect_builder. fold d.
  split_and!.
  - intros Hp. by rewrite (proj2 (Z.ltb_lt 0 (port d))).
  - intros [Hp _]. by rewrite (proj2 (Z.ltb_lt 0 (port d))).
  - intros Hp. rewrite (proj2 (Z.ltb_ge 0 (port d))) by done.
    by destruct (bool_decide (host d = EmptyString)).
  - intros Hh. rewrite bool_decide_eq_true_2 by done.
    by destruct (0 <? port d)%Z.
  - intros Hh. rewrite bool_decide_eq_false_2 by done.
    by destruct (0 <? port d)%Z.
Qed.
End MiscFacts.

Section FileOperationFacts.
Context {C : Type}.
Variable constructLocalPath : FileSystemDescriptor → string → string.
Variable cache_find : string → string → C → pointer * C.
Variable cache_find_plain : string → C → pointer * C.
Variable cache_add : string → pointer → Z → C → bool * pointer * C.
Variable cache_remove : string → bool → C → bool * C.
Variable cache_deletePath : string → C → bool * C.

(** X19: the file operations of the registry fail fast.  When the canonical
    local path of (descriptor, path) is empty, findFile, addFile, deleteFile
    and deletePath all answer false without consulting the cache: the cache
    and the caller's File pointer are left as they are; so does the findFile
    that takes a canonical path when that path is empty.  Otherwise findFile
    answers true exactly when the entry it hands back is not null. *)
Theorem file_operations_fail_fast (path : string) (descriptor : FileSystemDescriptor)
    (file : pointer) (transformCmd : string) (creationFlag : Z) (physically : bool)
    (m_cache : C) :
  (constructLocalPath descriptor path = EmptyString →
     findFile constructLocalPath cache_find path descriptor file transformCmd m_cache
       = (false, file, m_cache) ∧
     addFile constructLocalPath cache_add path descriptor file creationFlag m_cache
       = (false, file, m_cache) ∧
     deleteFile constructLocalPath cache_remove descriptor path physically m_cache
       = (false, m_cache) ∧
     deletePath constructLocalPath cache_deletePath descriptor path m_cache
       = (false, m_cache)) ∧
  findFile_canonical cache_find_plain EmptyString file m_cache = (false, file, m_cache) ∧
  (constructLocalPath descriptor path ≠ EmptyString →
     let '(found, file', _) :=
       findFile constructLocalPath cache_find path descriptor file transformCmd m_cache in
     found = true ↔ file' ≠ NULL).
Proof.
  split; [|split].
  - intros He. unfold findFile, addFile, deleteFile, deletePath.
    by rewrite He.
  - done.
  - intros Hne. unfold findFile. rewrite bool_decide_eq_false_2 by done.
    destruct (cache_find _ _ _) as [f c].
    rewrite negb_true_iff. apply Z.eqb_neq.
Qed.
End FileOperationFacts.

Section InitFacts.
Context {I : Type}.
Variable new_CacheLayerRegistry : Z → string → Z → Z → I.
Variable valid_registry : I → bool.
Variable reload : I → I.
Variable preferredSlash : string.

(** X20: the registry is constructed once.  When an instance exists, init
    ignores all four arguments: the result is the same for any of them, and
    the instance afterwards is the old one, reloaded if it is valid.  And a
    failed init is final: it leaves the instance that is not valid in place,
    so every later init, whatever root it is given, answers false again
    without initialising the File class or reloading. *)
Theorem init_constructs_once (mem1 mem2 : Z) (root1 root2 : string)
    (slice1 slice2 limit1 limit2 : Z) (p : process) :
  let init1 := init new_CacheLayerRegistry valid_registry reload preferredSlash
                 mem1 root1 slice1 limit1 in
  let init2 := init new_CacheLayerRegistry valid_registry reload preferredSlash
                 mem2 root2 slice2 limit2 in
  (∀ i, instance_ p = Some i →
        init1 p = init2 p ∧
        instance_ (init1 p).2 = Some (if valid_registry i then reload i else i)) ∧
  (∀ p1, init1 p = (false, p1) →
         init2 p1 = (false, p1) ∧
         File_initialize_calls p1 = File_initialize_calls p ∧
         ∃ i, instance_ p1 = Some i ∧ valid_registry i = false).
Proof.
  intros init1 init2. split.
  - intros i Hi. unfold init1, init2, init. rewrite Hi.
    by destruct (valid_registry i).
  - intros p1. unfold init1, init2, init.
    set (i := match instance_ p with Some i => i | None => _ end).
    destruct (valid_registry i) eqn:Hv; simpl; [done|].
    intros [= <-]. simpl. rewrite Hv. simpl. split_and!; try done. by exists i.
Qed.
End InitFacts.

(** X21: operator<< writes a different text for each DFS_TYPE, and the text
    is file exactly for the type local (whose own name is never written). *)
Theorem DFS_TYPE_out_injective (a b : DFS_TYPE) :
  (DFS_TYPE_out a = DFS_TYPE_out b → a = b) ∧
  (DFS_TYPE_out a = "file" ↔ a = local) ∧
  DFS_TYPE_out a ≠ "local".
Proof.
  split_and!.
  - destruct a, b; vm_compute; intros H; first [reflexivity | discriminate H].
  - destruct a; vm_compute; split; intros H; first [reflexivity | discriminate H].
  - destruct a; vm_compute; intros H; discriminate H.
Qed.

(** * Worked instances of the further properties *)

Module MoreInstances.
Import Scripted.

Ltac crunch :=
  vm_compute; first [reflexivity | discriminate | lia | congruence].

(** *** The pool *)

Lemma getFreeConnection_slot_transitions_witness :
  ∃ lease m',
    getFreeConnection respond 2
      (boot quiet [{| connection := 5; state := BUSY_OK |};
                   {| connection := 6; state := FREE_INITIALIZED |}] [0; 1])
      = Returns lease m' ∧
    store m' !! 0 = Some {| connection := 5; state := BUSY_OK |} ∧
    lease ≠ Some 0.
Proof.
  destruct (getFreeConnection_slot_transitions respond 0
              (boot quiet [{| connection := 5; state := BUSY_OK |};
                           {| connection := 6; state := FREE_INITIALIZED |}] [0; 1]))
    as (lease & m' & Hr & Hall).
  exists lease, m'. split; [exact Hr|].
  destruct (Hall 0 {| connection := 5; state := BUSY_OK |} eq_refl)
    as (c' & Hc' & [[-> Hl]|[(_ & Hs & _)|(_ & _ & Hs & _)]]).
  - split; [exact Hc'|exact Hl].
  - discriminate Hs.
  - destruct (Hs eq_refl).
Defined.

Lemma getFreeConnection_lease_witness :
  ∃ lease m',
    getFreeConnection respond 2 (boot quiet [] []) = Returns lease m' ∧
    lease ≠ None ∧
    ∀ p, lease = Some p → p ∈ m_connections (this m').
Proof.
  destruct (getFreeConnection_lease respond 0 (boot quiet [] []))
    as (lease & m' & Hr & Hin & Hiff).
  exists lease, m'. split; [exact Hr|]. split.
  - intros Hn. apply Hiff in Hn as [_ Hc]. vm_compute in Hc. discriminate Hc.
  - intros p Hp. exact (proj1 (Hin p Hp)).
Defined.

Lemma getFreeConnection_keeps_pool_witness :
  pool_wf (leased quiet) ∧
  ∃ lease m',
    getFreeConnection respond 2 (leased quiet) = Returns lease m' ∧ pool_wf m'.
Proof.
  assert (pool_wf (leased quiet)) as Hwf.
  { split.
    - apply NoDup_singleton.
    - intros p Hp. apply list_elem_of_singleton in Hp. subst p. simpl. lia. }
  split; [exact Hwf|].
  destruct (getFreeConnection_keeps_pool respond 0 (leased quiet) Hwf)
    as (lease & m' & Hr & Hwf' & _).
  exists lease, m'. split; [exact Hr|exact Hwf'].
Defined.

Lemma acquire_many_grows_witness :
  ∃ m', acquire_many Steady.respond 2 3 (Steady.boot [] [])
          = Returns [Some 0; Some 1; Some 2] m' ∧
        m_connections (this m') = [0; 1; 2] ∧
        length (store m') = 3.
Proof.
  destruct (acquire_many_grows Steady.respond 0 3 (Steady.boot [] []))
    as (m' & new & Hr & Hp & Hs & Hl & _).
  - intros w bld H. vm_compute in H. discriminate H.
  - intros q c Hq. apply elem_of_nil in Hq. destruct Hq.
  - intros q c Hq. apply elem_of_nil in Hq. destruct Hq.
  - exists m'. split; [exact Hr|]. split; [exact Hp|].
    rewrite Hs. simpl. exact Hl.
Defined.

Lemma lease_of_getFreeConnection_in_passthrough_witness :
  ∃ lease m',
    getFreeConnection respond 2 (boot quiet [] []) = Returns lease m' ∧
    ∃ r m'',
      invoke respond (FileCopy lease "/a" lease "/b") m' = Returns r m'' ∧
      calls m'' = calls m' ++ [Ext (DfsCopy 7 "/a" 7 "/b")].
Proof.
  destruct (lease_of_getFreeConnection_in_passthrough respond 0 (boot quiet [] []))
    as (lease & m' & Hr & Hop).
  pose proof Hr as Hr'. vm_compute in Hr'. injection Hr' as <- <-.
  eexists _, _. split; [exact Hr|].
  destruct (Hop Z (FileCopy (Some 0) "/a" (Some 0) "/b")) as [_ Hsome].
  { apply list_elem_of_here. }
  destruct Hsome as (Ho & Hc & _).
  - discriminate.
  - intros other Hin Hne. exfalso. apply Hne.
    apply elem_of_cons in Hin as [->|Hin]; [reflexivity|].
    apply elem_of_cons in Hin as [->|Hin]; [reflexivity|].
    by apply elem_of_nil in Hin.
  - eexists _, _. split; [exact Ho|exact Hc].
Defined.

(** *** Priming *)

Lemma Tachyon_fileOpen_handle_means_primed_witness :
  ∃ m' n,
    Tachyon_fileOpen respond 5 (Some 0) "/a" O_RDONLY 0 0 0 two_chunks = Returns 11%Z m' ∧
    n ≤ 5 ∧
    calls m' =
      [Ext (DfsOpenFile 5 "/a" O_RDONLY 0 0 0); Ext (Malloc (1 * BUFFER_SIZE))]
      ++ replicate (S n) (Ext (DfsRead 5 11 99 BUFFER_SIZE))
      ++ [Ext (Free 99); Ext (DfsCloseFile 5 11); Ext (DfsOpenFile 5 "/a" O_RDONLY 0 0 0)].
Proof.
  destruct (Tachyon_fileOpen respond 5 (Some 0) "/a" O_RDONLY 0 0 0 two_chunks)
    as [r m'| |] eqn:E; [|vm_compute in E; discriminate E..].
  assert (r = 11%Z) as -> by (vm_compute in E; congruence).
  destruct (Tachyon_fileOpen_handle_means_primed respond 5 (Some 0) "/a" O_RDONLY 0 0 0
              two_chunks 5 11 m' eq_refl) as (_ & _ & n & Hn & _ & _ & _ & _ & Hc);
    [crunch|exact E|crunch|].
  exists m', n. split; [reflexivity|]. split; [exact Hn|exact Hc].
Defined.

Lemma Tachyon_fileOpen_frame_witness :
  ∃ r m',
    Tachyon_fileOpen respond 5 (Some 0) "/a" O_RDONLY 0 0 0 failing = Returns r m' ∧
    store m' = store failing ∧ this m' = this failing.
Proof.
  destruct (Tachyon_fileOpen respond 5 (Some 0) "/a" O_RDONLY 0 0 0 failing)
    as [r m'| |] eqn:E; [|vm_compute in E; discriminate E..].
  destruct (Tachyon_fileOpen_frame respond 5 (Some 0) "/a" O_RDONLY 0 0 0
              failing 5 r m' eq_refl E) as (Hs & Ht & _).
  exists r, m'. split; [reflexivity|]. split; [exact Hs|exact Ht].
Defined.

Lemma Tachyon_fileOpen_endless_stream_witness :
  Tachyon_fileOpen Steady.respond 1000 (Some 0) "/a" O_RDONLY 0 0 0
    (Steady.boot [{| connection := 5; state := BUSY_OK |}] [0]) = OutOfFuel.
Proof.
  apply (Tachyon_fileOpen_endless_stream Steady.respond 1000 (Some 0) "/a" O_RDONLY 0 0 0
           (Steady.boot [{| connection := 5; state := BUSY_OK |}] [0]) 5).
  - reflexivity.
  - crunch.
  - crunch.
  - crunch.
  - intros k. reflexivity.
Defined.

Lemma Tachyon_fileOpen_base_open_fails_witness :
  ∃ m', Tachyon_fileOpen respond 5 (Some 0) "/a" O_RDONLY 0 0 0
          (leased (mkScript [] [0%Z] [] [] [] (resolved quiet))) = Returns NULL m' ∧
        calls m' = [Ext (DfsOpenFile 5 "/a" O_RDONLY 0 0 0)].
Proof.
  destruct (Tachyon_fileOpen_base_open_fails respond 5 (Some 0) "/a" O_RDONLY 0 0 0
              (leased (mkScript [] [0%Z] [] [] [] (resolved quiet))) 5) as [Hr Hc];
    [reflexivity|crunch|].
  eexists. split; [exact Hr|exact Hc].
Defined.

Lemma Tachyon_fileOpen_close_fails_witness :
  ∃ m', Tachyon_fileOpen respond 5 (Some 0) "/a" O_RDONLY 0 0 0
          (leased (mkScript [] [] [3%Z] [1%Z] [] (resolved quiet))) = Returns NULL m' ∧
        calls m' =
          [Ext (DfsOpenFile 5 "/a" O_RDONLY 0 0 0); Ext (Malloc (1 * BUFFER_SIZE));
           Ext (DfsRead 5 11 99 BUFFER_SIZE); Ext (DfsRead 5 11 99 BUFFER_SIZE);
           Ext (Free 99); Ext (DfsCloseFile 5 11)].
Proof.
  destruct (Tachyon_fileOpen_close_fails respond 5 (Some 0) "/a" O_RDONLY 0 0 0
              (leased (mkScript [] [] [3%Z] [1%Z] [] (resolved quiet))) 5 1) as [Hr Hc].
  - reflexivity.
  - crunch.
  - crunch.
  - crunch.
  - split; [intros [|k] Hk; [crunch|lia]|crunch].
  - crunch.
  - crunch.
  - lia.
  - eexists. split; [exact Hr|exact Hc].
Defined.

(** *** Registry *)

Lemma setupFileSystem_keeps_directory_witness :
  registry_wf empty_registry ∧
  registry_wf (setupFileSystem respond "default" namenode quiet empty_registry).2.
Proof.
  destruct (setupFileSystem_keeps_directory respond "default" namenode quiet empty_registry)
    as [Hempty Hstep].
  split; [exact Hempty|]. exact (proj1 (Hstep Hempty)).
Defined.

Lemma setupFileSystem_only_adds_witness :
  adapters empty_registry
    `prefix_of` adapters (setupFileSystem respond "default" unresolved resolving
                            empty_registry).2 ∧
  m_createFromSelect (setupFileSystem respond "default" unresolved resolving
                        empty_registry).2 = ∅.
Proof.
  destruct (setupFileSystem_only_adds respond "default" unresolved resolving empty_registry)
    as (_ & Hp & _ & Hc & _).
  split; [exact Hp|exact Hc].
Defined.

Lemma setupFileSystem_ignores_port_witness :
  host namenode ≠ "default" ∧
  ∃ a obj,
    getFileSystemDescriptor
      (setupFileSystem respond "default" namenode quiet empty_registry).2 other_port
      = Some a ∧
    adapters (setupFileSystem respond "default" namenode quiet empty_registry).2 !! a
      = Some obj ∧
    port (m_fsDescriptor obj) = 8020%Z.
Proof.
  assert (host namenode ≠ "default") as Hh by (vm_compute; discriminate).
  split; [exact Hh|].
  destruct (setupFileSystem_ignores_port respond "default" namenode other_port quiet quiet
              empty_registry Hh eq_refl eq_refl eq_refl) as (_ & a & obj & Hg & Ho & Hd).
  exists a, obj. split; [exact Hg|]. split; [exact Ho|]. rewrite Hd. reflexivity.
Defined.

Lemma setupFileSystem_files_under_resolved_host_witness :
  ∃ d' reg1,
    setupFileSystem respond "default" unresolved resolving empty_registry
      = (OK, d', resolving, reg1) ∧
    getFileSystemDescriptor reg1 unresolved = None ∧
    is_Some (getFileSystemDescriptor reg1 d').
Proof.
  destruct (setupFileSystem_files_under_resolved_host respond "default" unresolved
              (mkFileSystemDescriptor hdfs "nn1" 0 EmptyString EmptyString true)
              resolving resolving empty_registry) as (reg1 & Hs & Hold & Hnew).
  - reflexivity.
  - reflexivity.
  - vm_compute. discriminate.
  - eexists _, reg1. split; [exact Hs|]. split; [rewrite Hold; reflexivity|exact Hnew].
Defined.

Lemma resolveFsAddress_edges_witness :
  ∃ d', resolveFsAddress Steady.respond unresolved tt = (1%Z, d', tt) ∧
        host d' = "default" ∧ port d' = 0%Z.
Proof.
  destruct (resolveFsAddress_edges Steady.respond unresolved tt)
    as (bld & status & h & p & t & w' & d' & Hq & _ & _ & _ & Hr & _ & _ & _ & _ & Hfail & _).
  cbn in Hq. injection Hq as <- <- <- <- <-.
  destruct Hfail as [Hh Hp]; [discriminate|].
  exists d'. split; [exact Hr|]. split; [exact Hh|exact Hp].
Defined.

Lemma createFromSelect_frame_witness :
  getCreateFromSelectScenario 11 (registerCreateFromSelectScenario 10 20 empty_registry).2
    = (NULL, false) ∧
  getFileSystemDescriptor (registerCreateFromSelectScenario 10 20 empty_registry).2 namenode
    = None.
Proof.
  destruct (createFromSelect_frame respond "default" 10 11 20 empty_registry)
    as (H1 & _ & H2 & _); [lia|].
  split; [rewrite H1; reflexivity|rewrite H2; reflexivity].
Defined.

Lemma createFromSelect_unregister_then_register_witness :
  unregisterCreateFromSelectScenario 10 empty_registry = (false, empty_registry) ∧
  ∃ reg2,
    registerCreateFromSelectScenario 10 30
      (unregisterCreateFromSelectScenario 10 empty_registry).2 = (true, reg2) ∧
    getCreateFromSelectScenario 10 reg2 = (30%Z, true).
Proof.
  destruct (createFromSelect_unregister_then_register 10 30 empty_registry)
    as [Hmiss Hre].
  split; [exact (Hmiss eq_refl)|exact Hre].
Defined.

(** *** connect, file operations, init, printing *)

Lemma connect_edges_witness :
  ∃ bld, connect respond (boot quiet [] [])
           = Returns 7%Z (after_call respond (DfsBuilderConnect bld) (boot quiet [] [])) ∧
         bld_port bld = Some 8020%Z ∧ bld_host bld = Some "nn1" ∧ bld_type bld = Some hdfs.
Proof.
  destruct (connect_edges respond (boot quiet [] []))
    as (bld & Hr & _ & _ & _ & Hpos & _ & _ & Hhost).
  exists bld. split; [exact Hr|]. split; [apply Hpos; split; crunch|].
  apply Hhost. vm_compute. discriminate.
Defined.

Lemma file_operations_fail_fast_witness :
  findFile (λ _ p, p) (λ _ _ (c : nat), (42%Z, S c)) EmptyString namenode 17 "gzip" 0
    = (false, 17%Z, 0) ∧
  deleteFile (λ _ p, p) (λ _ _ (c : nat), (true, S c)) namenode EmptyString true 0
    = (false, 0).
Proof.
  destruct (file_operations_fail_fast (λ _ p, p) (λ _ _ (c : nat), (42%Z, S c))
              (λ _ (c : nat), (42%Z, S c)) (λ _ f _ (c : nat), (true, f, S c))
              (λ _ _ (c : nat), (true, S c)) (λ _ (c : nat), (true, S c))
              EmptyString namenode 17 "gzip" 0 true 0) as (Hempty & _ & _).
  destruct (Hempty eq_refl) as (Hfind & _ & Hdel & _).
  split; [exact Hfind|exact Hdel].
Defined.

Lemma init_constructs_once_witness :
  ∃ p1,
    init (λ _ root _ _, root) (λ root : string, negb (bool_decide (root = EmptyString)))
         (λ i, i) "/" 80 EmptyString 10 100 (mkProcess None EmptyString 0) = (false, p1) ∧
    init (λ _ root _ _, root) (λ root : string, negb (bool_decide (root = EmptyString)))
         (λ i, i) "/" 80 "/var/cache" 10 100 p1 = (false, p1) ∧
    File_initialize_calls p1 = 0.
Proof.
  eexists. split; [reflexivity|].
  destruct (init_constructs_once (λ _ root _ _, root)
              (λ root : string, negb (bool_decide (root = EmptyString)))
              (λ i, i) "/" 80 80 EmptyString "/var/cache" 10 10 100 100
              (mkProcess None EmptyString 0)) as [_ Hfail].
  destruct (Hfail _ eq_refl) as (H2 & Hc & _).
  split; [exact H2|exact Hc].
Defined.

Lemma DFS_TYPE_out_injective_witness :
  DFS_TYPE_out local = "file" ∧ (DFS_TYPE_out hdfs = DFS_TYPE_out hdfs → hdfs = hdfs).
Proof.
  destruct (DFS_TYPE_out_injective local hdfs) as (_ & Hfile & _).
  destruct (DFS_TYPE_out_injective hdfs hdfs) as (Hinj & _).
  split; [apply Hfile; reflexivity|exact Hinj].
Defined.
End MoreInstances.
